(** * MAX agent: memory store, tool executor and ReAct loop

    A shallow embedding of [memory.py], [tool_registry.py],
    [tool_executor.py] and [agent.py], and the properties of the three
    core subsystems (memory store, capability gateway, reasoning loop). *)

From Stdlib Require Import ZArith QArith Qminmax Lia Ascii String.
From Stdlib Require Floats.SpecFloat.
From stdpp Require Import base gmap list strings sorting.

Local Open Scope string_scope.
Local Open Scope list_scope.
Local Open Scope Z_scope.
Local Set Warnings "-register-all".

(* ===================================================================== *)
(** * Python values and library behaviour the sources rely on *)
(* ===================================================================== *)

Module Py.

(** Exception classes that occur in the modelled code.  [Raised] models
    an instance of [Exception]; interpreter-level signals
    ([KeyboardInterrupt], [SystemExit], task cancellation) are not
    modelled. *)
Inductive exn_class :=
  | TypeError | AttributeError | JSONDecodeError | KeyError
  | ZeroDivisionError | RuntimeError | OperationalError | IntegrityError
  | EOFError | ValueError | RecursionError | OtherException.

Record exn := Exn { exn_cls : exn_class; exn_msg : string }.

#[global] Instance exn_class_eq_dec : EqDecision exn_class.
Proof. solve_decision. Defined.

Inductive outcome (A : Type) :=
  | Returned (a : A)
  | Raised (e : exn).
Arguments Returned {A} a.
Arguments Raised {A} e.

Definition outcome_bind {A B} (o : outcome A) (f : A -> outcome B) : outcome B :=
  match o with
  | Returned a => f a
  | Raised e => Raised e
  end.

(** [try: body except (classes): return fallback] *)
Definition catching {A} (classes : list exn_class) (body : outcome A) (fallback : A)
  : outcome A :=
  match body with
  | Returned a => Returned a
  | Raised e => if bool_decide (exn_cls e ∈ classes) then Returned fallback else Raised e
  end.

(** Values produced by [json.loads] and the dict literals of the code.
    A dict is an insertion-ordered list of bindings with distinct keys. *)
Inductive json :=
  | JNull
  | JBool (b : bool)
  | JInt (n : Z)
  | JFloat (f : SpecFloat.spec_float)
  | JStr (s : string)
  | JArr (items : list json)
  | JObj (fields : list (string * json)).

(** Python truth value: [None], [False], zero, and empty containers are
    false. *)
Definition truthy (v : json) : bool :=
  match v with
  | JNull => false
  | JBool b => b
  | JInt n => negb (n =? 0)
  | JFloat (SpecFloat.S754_zero _) => false
  | JFloat _ => true
  | JStr s => negb (String.eqb s "")
  | JArr items => match items with [] => false | _ => true end
  | JObj fields => match fields with [] => false | _ => true end
  end.

(** [d.get(key, default)] on a dict. *)
Fixpoint assoc_get (key : string) (fields : list (string * json)) : option json :=
  match fields with
  | [] => None
  | (k, v) :: rest => if String.eqb k key then Some v else assoc_get key rest
  end.

(** [v[key]] read off a returned dict, when [v] is one and has the key. *)
Definition field (key : string) (v : json) : option json :=
  match v with
  | JObj fields => assoc_get key fields
  | _ => None
  end.

(** [l[start:]] with Python's treatment of negative and out-of-range
    indices. *)
Definition slice_from {A} (l : list A) (start : Z) : list A :=
  let n := Z.of_nat (length l) in
  let i := if start <? 0 then Z.max (n + start) 0 else Z.min start n in
  drop (Z.to_nat i) l.

(** [l[:stop]]. *)
Definition slice_to {A} (l : list A) (stop : Z) : list A :=
  let n := Z.of_nat (length l) in
  let i := if stop <? 0 then Z.max (n + stop) 0 else Z.min stop n in
  take (Z.to_nat i) l.

(** [str.isspace] on one character; a character is a code point below
    256. *)
Definition isspace (c : ascii) : bool :=
  let n := nat_of_ascii c in
  ((9 <=? n) && (n <=? 13) || (28 <=? n) && (n <=? 32)
   || (n =? 133) || (n =? 160))%nat.

Fixpoint lstrip (s : string) : string :=
  match s with
  | EmptyString => EmptyString
  | String c rest => if isspace c then lstrip rest else s
  end.

Fixpoint rstrip (s : string) : string :=
  match s with
  | EmptyString => EmptyString
  | String c rest =>
      match rstrip rest with
      | EmptyString => if isspace c then EmptyString else String c EmptyString
      | r => String c r
      end
  end.

(** [s.strip()] *)
Definition strip (s : string) : string := rstrip (lstrip s).

(** [sep.join(parts)] *)
Definition join (sep : string) (parts : list string) : string :=
  String.concat sep parts.

(** [s[:n]] for [n >= 0]. *)
Definition prefix (n : nat) (s : string) : string := String.substring 0 n s.

(** The newline and the double quote of string literals. *)
Definition nl : string := String (ascii_of_nat 10) EmptyString.
Definition dq : string := String (ascii_of_nat 34) EmptyString.

End Py.
Export Py.


(* ===================================================================== *)
(** * The world outside the three subsystems, and the effect monad *)
(* ===================================================================== *)

Module Host.

(** One request to the completion backend: [_call_llm] sends the system
    prompt, the tool catalogue and the transcript; [_call_llm_simple]
    sends a single user prompt without tools. *)
Inductive request :=
  | ToolCompletion (system_prompt : string) (messages : list (string * string))
  | SimpleCompletion (prompt : string).

(** What has happened at the boundary so far: how often the clock was
    read, which completion requests were sent, which tool
    implementations were called and which confirmation prompts were
    shown.  The three logs only record: the code does not read them,
    and the model takes only their lengths, to tell an oracle how often
    it was consulted before. *)
Record host := Host {
  clock_reads : nat;
  completions : list request;
  invocations : list (string * json);
  confirmations : list string;
}.

(** How many of the requests sent so far satisfy [p]; with
    [is_tool_completion], how many came from [_call_llm]. *)
Definition requests (p : request -> bool) (h : host) : nat :=
  length (List.filter p (completions h)).
Definition is_tool_completion (r : request) : bool :=
  match r with ToolCompletion _ _ => true | SimpleCompletion _ => false end.
Definition tool_completions (h : host) : nat := requests is_tool_completion h.

Definition tick (h : host) : host :=
  Host (S (clock_reads h)) (completions h) (invocations h) (confirmations h).
Definition log_completion (r : request) (h : host) : host :=
  Host (clock_reads h) (completions h ++ [r]) (invocations h) (confirmations h).
Definition log_invocation (name : string) (args : json) (h : host) : host :=
  Host (clock_reads h) (completions h) (invocations h ++ [(name, args)]) (confirmations h).
Definition log_confirmation (p : string) (h : host) : host :=
  Host (clock_reads h) (completions h) (invocations h) (confirmations h ++ [p]).

(** The collaborators the code calls but does not define: the clock, the
    completion backend, and the library functions whose results are only
    passed along.  The [n]-th answer of an oracle may depend on [n], so a
    backend with internal state is covered. *)
Record environment := Environment {
  (** [datetime.utcnow()], in microseconds, at the [n]-th reading *)
  utcnow : nat -> Z;
  (** the backend's answer to the [n]-th request: text, [None], or an
      exception *)
  completion : nat -> request -> outcome (option string);
  (** [json.loads] on a [str]: the value, or the exception of the
      decoder, which is [JSONDecodeError] on text that is not JSON,
      [ValueError] on an integer literal with more digits than the
      interpreter converts, and [RecursionError] on nesting that is too
      deep *)
  json_loads : string -> outcome json;
  json_dumps : json -> string;
  (** [str(v)] and [repr(v)] *)
  py_str : json -> string;
  py_repr : json -> string;
  (** [datetime.isoformat()] *)
  isoformat : Z -> string;
  (** [timedelta.total_seconds() * 1000] of a difference in microseconds *)
  total_ms : Z -> SpecFloat.spec_float;
  (** [config.prompts.build_system_prompt]: agent name, memory contents,
      time stamp read by the caller, time stamp read inside *)
  build_system_prompt : string -> list string -> Z -> Z -> string;
}.

(** A computation over component state [S] that may raise; state changes
    made before an exception stay. *)
Definition M (S A : Type) : Type := host * S -> outcome A * (host * S).

Definition ret {S A} (a : A) : M S A := fun w => (Returned a, w).

Definition raise {S A} (e : exn) : M S A := fun w => (Raised e, w).

Definition bind {S A B} (m : M S A) (f : A -> M S B) : M S B :=
  fun w =>
    match m w with
    | (Returned a, w') => f a w'
    | (Raised e, w') => (Raised e, w')
    end.

(** [try: body except Exception as e: handler(e)] *)
Definition try_except {S A} (body : M S A) (handler : exn -> M S A) : M S A :=
  fun w =>
    match body w with
    | (Returned a, w') => (Returned a, w')
    | (Raised e, w') => handler e w'
    end.

Definition get_state {S} : M S S := fun w => (Returned (snd w), w).

Definition modify {S} (f : S -> S) : M S unit :=
  fun w => (Returned tt, (fst w, f (snd w))).

Definition get_host {S} : M S host := fun w => (Returned (fst w), w).

Definition modify_host {S} (f : host -> host) : M S unit :=
  fun w => (Returned tt, (f (fst w), snd w)).

(** Lift a pure computation that may raise. *)
Definition lift_outcome {S A} (o : outcome A) : M S A := fun w => (o, w).

(** Run a computation of a component that is a field of the state. *)
Definition zoom {W S A} (proj : W -> S) (upd : S -> W -> W) (m : M S A) : M W A :=
  fun w =>
    let r := m (fst w, proj (snd w)) in
    (fst r, (fst (snd r), upd (snd (snd r)) (snd w))).

(** [for x in l: body(x)] *)
Fixpoint for_each {S A} (l : list A) (body : A -> M S unit) : M S unit :=
  match l with
  | [] => ret tt
  | x :: rest => bind (body x) (fun _ => for_each rest body)
  end.

(** A computation that sends nothing to the completion backend, and one
    that sends at most [k] requests satisfying [p]. *)
Definition quiet {S A} (m : M S A) : Prop :=
  forall w, completions (fst (snd (m w))) = completions (fst w).
Definition sends_at_most (p : request -> bool) {S A} (m : M S A) (k : nat) : Prop :=
  forall w, (requests p (fst (snd (m w))) <= requests p (fst w) + k)%nat.

(** A computation that only adds to the log of requests, however it
    ends. *)
Definition extends_log {S A} (m : M S A) : Prop :=
  forall w, completions (fst w) `prefix_of` completions (fst (snd (m w))).

End Host.
Export Host.

Declare Scope py_scope.
Delimit Scope py_scope with py.
Notation "x <- m ;; k" := (bind m (fun x => k))
  (at level 100, m at next level, right associativity) : py_scope.
Notation "m ;; k" := (bind m (fun _ => k))
  (at level 100, right associativity) : py_scope.
Local Open Scope py_scope.

Section Effects.
Context (env : environment).

(** [datetime.utcnow()] *)
Definition now {S} : M S Z :=
  h <- get_host ;;
  modify_host tick ;;
  ret (utcnow env (clock_reads h)).

(** One round trip to the completion backend. *)
Definition complete {S} (r : request) : M S (option string) :=
  h <- get_host ;;
  modify_host (log_completion r) ;;
  lift_outcome (completion env (length (completions h)) r).
End Effects.

(* ===================================================================== *)
(** * memory.py *)
(* ===================================================================== *)

Module Memory.

(** The dataclass [Memory]; a row of the table [memories] has the same
    columns.  Time stamps are microseconds. *)
Record Memory := mkMemory {
  id : Z;
  content : string;
  user_id : string;
  tags : list string;
  created_at : Z;
  accessed_at : Z;
  access_count : Z;
}.

(** A row of the virtual table [memories_fts]. *)
Record fts_row := mkFts {
  rowid : Z;
  fts_content : string;
  fts_user_id : string;
}.

(** The SQLite database behind a [MemoryStore]: the two tables and the
    largest rowid that AUTOINCREMENT has handed out. *)
Record MemoryStore := mkStore {
  memories : list Memory;
  memories_fts : list fts_row;
  sqlite_sequence : Z;
}.

(** The FTS5 engine: compiling the right-hand side of [MATCH] ([None]
    is a syntax error) and the [rank] column of a matching row, which
    depends on the whole index. *)
Record fts5 := Fts5 {
  fts_match : string -> option (string -> bool);
  fts_rank : string -> list fts_row -> fts_row -> Z;
}.

(** [LIMIT ?]: a negative bound means no bound. *)
Definition sql_limit {A} (n : Z) (l : list A) : list A :=
  if n <? 0 then l else take (Z.to_nat n) l.

(** [ORDER BY key] and [ORDER BY key DESC]; SQL leaves the relative
    order of rows with equal keys open, the model takes the one of
    [merge_sort]. *)
Definition key_le {A} (key : A -> Z) : relation A := fun x y => key x <= key y.
Definition key_ge {A} (key : A -> Z) : relation A := fun x y => key y <= key x.

#[global] Instance key_le_dec {A} (key : A -> Z) x y : Decision (key_le key x y).
Proof. unfold key_le. apply _. Defined.
#[global] Instance key_ge_dec {A} (key : A -> Z) x y : Decision (key_ge key x y).
Proof. unfold key_ge. apply _. Defined.

Definition order_by {A} (key : A -> Z) (l : list A) : list A :=
  merge_sort (key_le key) l.
Definition order_by_desc {A} (key : A -> Z) (l : list A) : list A :=
  merge_sort (key_ge key) l.

(** The effect of the UPDATE of [_touch] on one row. *)
Definition touched (now : Z) (m : Memory) : Memory :=
  mkMemory (id m) (content m) (user_id m) (tags m) (created_at m) now (access_count m + 1).
Definition touch_one (now : Z) (memory_id : Z) (m : Memory) : Memory :=
  if bool_decide (id m = memory_id) then touched now m else m.

Definition has_any_tag (wanted : list string) (m : Memory) : bool :=
  existsb (fun t => bool_decide (t ∈ tags m)) wanted.

(** The rows the FTS query of [search] selects, before ORDER BY:
    the join of [memories_fts] and [memories] on [rowid = id], where the
    indexed content matches and the memory belongs to the user. *)
Definition fts_join (matches : string -> bool) (uid : string) (db : MemoryStore)
  : list (fts_row * Memory) :=
  f ← memories_fts db;
  m ← memories db;
  if bool_decide (rowid f = id m) && matches (fts_content f)
     && bool_decide (user_id m = uid)
  then [(f, m)] else [].

Section Store.
Context (env : environment) (engine : fts5).

(** [MemoryStore.store] *)
Definition store (content : string) (user_id : string) (tags : option (list string))
  : M MemoryStore Z :=
  t <- now env ;;
  db <- get_state ;;
  let memory_id := sqlite_sequence db + 1 in
  let row := mkMemory memory_id content user_id (default [] tags) t t 0 in
  modify (fun db => mkStore (memories db ++ [row]) (memories_fts db) memory_id) ;;
  modify (fun db => mkStore (memories db)
                      (memories_fts db ++ [mkFts memory_id content user_id])
                      (sqlite_sequence db)) ;;
  ret memory_id.

(** [MemoryStore._touch] *)
Definition _touch (memory_id : Z) : M MemoryStore unit :=
  t <- now env ;;
  modify (fun db =>
    mkStore (map (touch_one t memory_id) (memories db))
            (memories_fts db) (sqlite_sequence db)).

(** The table [memories] after [_touch] was called for each of [ids]
    in turn, the first call reading the clock for the [n]-th time. *)
Fixpoint touch_rows (n : nat) (ids : list Z) (rows : list Memory) : list Memory :=
  match ids with
  | [] => rows
  | i :: rest => touch_rows (S n) rest (map (touch_one (utcnow env n) i) rows)
  end.

(** [MemoryStore._get_recent] *)
Definition _get_recent (user_id : string) (limit : Z) : M MemoryStore (list Memory) :=
  db <- get_state ;;
  let rows :=
    sql_limit limit
      (order_by_desc accessed_at
         (filter (fun m => Memory.user_id m = user_id) (memories db))) in
  ret rows.

(** The SELECT of [search]: the matching rows of the user, best rank
    first, cut at [limit]; a malformed MATCH expression makes SQLite
    raise. *)
Definition select_fts (query user_id : string) (limit : Z) (db : MemoryStore)
  : outcome (list Memory) :=
  match fts_match engine query with
  | None => Raised (Exn OperationalError "fts5: syntax error")
  | Some matches =>
      Returned
        (map snd
           (sql_limit limit
              (order_by (fun r => fts_rank engine query (memories_fts db) (fst r))
                        (fts_join matches user_id db))))
  end.

(** The tag filter of [search]; [None] and the empty list are both
    false for [if tags:]. *)
Definition filter_tags (tags : option (list string)) (memories : list Memory)
  : list Memory :=
  match tags with
  | Some (t :: ts) => List.filter (has_any_tag (t :: ts)) memories
  | _ => memories
  end.

(** [MemoryStore.search] *)
Definition search (query : string) (user_id : string) (limit : Z)
    (tags : option (list string)) : M MemoryStore (list Memory) :=
  if (Z.of_nat (String.length (strip query)) <? 3) then
    _get_recent user_id limit
  else
    db <- get_state ;;
    rows <- lift_outcome (select_fts query user_id limit db) ;;
    let memories := filter_tags tags rows in
    for_each memories (fun m => _touch (id m)) ;;
    ret memories.

(** [MemoryStore.delete] *)
Definition delete (memory_id : Z) : M MemoryStore unit :=
  modify (fun db =>
    mkStore (filter (fun m => id m ≠ memory_id) (memories db))
            (memories_fts db) (sqlite_sequence db)) ;;
  modify (fun db =>
    mkStore (memories db)
            (filter (fun f => rowid f ≠ memory_id) (memories_fts db))
            (sqlite_sequence db)).

(** [MemoryStore.get_all] *)
Definition get_all (user_id : string) : M MemoryStore (list Memory) :=
  db <- get_state ;;
  ret (order_by_desc created_at
         (filter (fun m => Memory.user_id m = user_id) (memories db))).
End Store.

End Memory.

(* ===================================================================== *)
(** * tool_registry.py and tool_executor.py *)
(* ===================================================================== *)

Module Executor.

(** A registered action: called with keyword arguments, it returns a
    value, of which the executor keeps [str(result)], or raises.  The
    first argument is the number of tool calls made before this one. *)
Definition tool : Type := nat -> list (string * json) -> outcome string.

(** An entry of [ToolRegistry._tool_metadata]. *)
Record tool_meta := mkMeta {
  skill : string;
  description : string;
  confirm_required : bool;
}.

Record ToolRegistry := mkRegistry {
  tools : gmap string tool;
  _tool_metadata : gmap string tool_meta;
}.

(** [ToolRegistry.requires_confirmation] *)
Definition requires_confirmation (reg : ToolRegistry) (tool_name : string) : bool :=
  match _tool_metadata reg !! tool_name with
  | Some meta => confirm_required meta
  | None => false
  end.

(** The confirmation function wired by an interface: given the number of
    prompts shown before and the prompt, the user's answer, or an
    exception of the interface. *)
Definition callback : Type := nat -> string -> outcome bool.

Record ToolExecutor := mkExecutor {
  registry : ToolRegistry;
  confirm_before_action : bool;
  confirm_callback : option callback;
  audit_log : list json;
}.

Definition append_audit (entry : json) (ex : ToolExecutor) : ToolExecutor :=
  mkExecutor (registry ex) (confirm_before_action ex) (confirm_callback ex)
             (audit_log ex ++ [entry]).

(** [ToolExecutor.set_confirm_callback] *)
Definition set_confirm_callback (cb : callback) (ex : ToolExecutor) : ToolExecutor :=
  mkExecutor (registry ex) (confirm_before_action ex) (Some cb) (audit_log ex).

(** [ToolExecutor.get_audit_log] *)
Definition get_audit_log (ex : ToolExecutor) (limit : Z) : list json :=
  slice_from (audit_log ex) (- limit).

(** [ToolExecutor._error_result] *)
Definition _error_result (tool_name : json) (error : string) (duration_ms : json) : json :=
  JObj [("success", JBool false);
        ("result", JNull);
        ("error", JStr error);
        ("tool_name", tool_name);
        ("duration_ms", duration_ms)].

(** The dict returned when the confirmation is not given. *)
Definition cancelled_result (tool_name : json) : json :=
  JObj [("success", JBool false);
        ("result", JNull);
        ("error", JStr "Action cancelled by user");
        ("tool_name", tool_name);
        ("cancelled", JBool true)].

Section Execute.
Context (env : environment).

(** [str(v)]; on a [str] it is the identity. *)
Definition str (v : json) : string :=
  match v with JStr s => s | _ => py_str env v end.

(** The prompt built in [_request_confirmation]. *)
Definition confirmation_prompt (tool_name : json) (arguments : list (string * json))
  : string :=
  let args_str :=
    join ", " (map (fun kv => fst kv +:+ "=" +:+ prefix 60 (py_repr env (snd kv)))
                   arguments) in
  "⚠️ MAX wants to run: **" +:+ str tool_name +:+ "**(" +:+ args_str +:+ ")"
    +:+ nl +:+ "Confirm? (yes/no)".

(** [ToolExecutor._request_confirmation] *)
Definition _request_confirmation (tool_name : json) (arguments : json)
  : M ToolExecutor bool :=
  ex <- get_state ;;
  match confirm_callback ex with
  | Some cb =>
      match arguments with
      | JObj kwargs =>
          let prompt := confirmation_prompt tool_name kwargs in
          h <- get_host ;;
          modify_host (log_confirmation prompt) ;;
          lift_outcome (cb (length (confirmations h)) prompt)
      | _ => raise (Exn AttributeError "object has no attribute 'items'")
      end
  | None => ret false
  end.

(** [await tool( **arguments )] *)
Definition call_tool (name : string) (action : tool) (arguments : json)
  : M ToolExecutor string :=
  match arguments with
  | JObj kwargs =>
      h <- get_host ;;
      modify_host (log_invocation name arguments) ;;
      lift_outcome (action (length (invocations h)) kwargs)
  | _ => raise (Exn TypeError "argument after ** must be a mapping")
  end.

(** [ToolExecutor.execute] *)
Definition execute (tool_name : json) (arguments : json) (user_id : string)
  : M ToolExecutor json :=
  ex <- get_state ;;
  match tool_name with
  | JArr _ | JObj _ => raise (Exn TypeError "unhashable type")
  | JStr name =>
      match tools (registry ex) !! name with
      | None =>
          ret (_error_result tool_name ("Unknown tool: '" +:+ str tool_name +:+ "'") (JInt 0))
      | Some action =>
          confirmed <-
            (if confirm_before_action ex && requires_confirmation (registry ex) name
             then _request_confirmation tool_name arguments
             else ret true) ;;
          if negb confirmed then ret (cancelled_result tool_name)
          else
            start <- now env ;;
            try_except
              (result <- call_tool name action arguments ;;
               finish <- now env ;;
               let duration := JFloat (total_ms env (finish - start)) in
               modify (append_audit
                 (JObj [("tool", tool_name);
                        ("arguments", arguments);
                        ("user_id", JStr user_id);
                        ("success", JBool true);
                        ("duration_ms", duration);
                        ("timestamp", JStr (isoformat env start))])) ;;
               ret (JObj [("success", JBool true);
                          ("result", JStr result);
                          ("error", JNull);
                          ("tool_name", tool_name);
                          ("duration_ms", duration)]))
              (fun e =>
               finish <- now env ;;
               let duration := JFloat (total_ms env (finish - start)) in
               modify (append_audit
                 (JObj [("tool", tool_name);
                        ("arguments", arguments);
                        ("user_id", JStr user_id);
                        ("success", JBool false);
                        ("error", JStr (exn_msg e));
                        ("duration_ms", duration);
                        ("timestamp", JStr (isoformat env start))])) ;;
               ret (_error_result tool_name (exn_msg e) duration))
      end
  | _ =>
      ret (_error_result tool_name ("Unknown tool: '" +:+ str tool_name +:+ "'") (JInt 0))
  end.
End Execute.

End Executor.

(* ===================================================================== *)
(** * agent.py *)
(* ===================================================================== *)

Module Agent.

Import Executor.

Record Message := mkMessage {
  role : string;
  content : string;
  timestamp : Z;
  metadata : json;
}.

Record AgentResponse := mkResponse {
  text : string;
  actions_taken : list string;
  memories_used : list string;
  error : option string;
}.

(** The fields of [Settings] the agent loop reads after start-up. *)
Record Settings := mkSettings {
  agent_name : string;
  max_context_tokens : Z;
}.

Record MAXAgent := mkAgent {
  settings : Settings;
  memory : Memory.MemoryStore;
  tool_executor : ToolExecutor;
  conversation_history : list Message;
  _initialized : bool;
}.

Definition MAX_ITERATIONS : nat := 15.
Definition COMPACTION_THRESHOLD : Q := 85 # 100.

Definition apology : string :=
  "I ran into trouble completing that task. Please try again.".

Definition with_memory (db : Memory.MemoryStore) (a : MAXAgent) : MAXAgent :=
  mkAgent (settings a) db (tool_executor a) (conversation_history a) (_initialized a).
Definition with_executor (ex : ToolExecutor) (a : MAXAgent) : MAXAgent :=
  mkAgent (settings a) (memory a) ex (conversation_history a) (_initialized a).
Definition with_history (h : list Message) (a : MAXAgent) : MAXAgent :=
  mkAgent (settings a) (memory a) (tool_executor a) h (_initialized a).

(** [sum(len(m.content) for m in history)] *)
Definition total_chars (history : list Message) : Z :=
  foldr (fun m acc => Z.of_nat (String.length (content m)) + acc) 0 history.

Section Loop.
Context (env : environment) (engine : Memory.fts5).

Definition in_memory {A} (m : M Memory.MemoryStore A) : M MAXAgent A :=
  zoom memory with_memory m.
Definition in_executor {A} (m : M ToolExecutor A) : M MAXAgent A :=
  zoom tool_executor with_executor m.

(** [self.conversation_history.append(Message(role, content, metadata))];
    the time stamp is read when the message is built. *)
Definition append_message (role content : string) (metadata : json) : M MAXAgent unit :=
  t <- now env ;;
  modify (fun a =>
    with_history (conversation_history a ++ [mkMessage role content t metadata]) a).

(** [MAXAgent._history_to_messages] *)
Definition _history_to_messages (a : MAXAgent) : list (string * string) :=
  map (fun msg =>
         if String.eqb (role msg) "tool_result"
         then ("user", "[Tool Result]: " +:+ content msg)
         else (role msg, content msg))
      (slice_from (conversation_history a) (-40)).

(** [MAXAgent._call_llm] *)
Definition _call_llm (system_prompt : string) : M MAXAgent (option string) :=
  a <- get_state ;;
  complete env (ToolCompletion system_prompt (_history_to_messages a)).

(** [MAXAgent._call_llm_simple] *)
Definition _call_llm_simple (prompt : string) : M MAXAgent (option string) :=
  complete env (SimpleCompletion prompt).

(** [json.loads(raw)]: a [TypeError] on [None], and on a [str] what the
    decoder gives. *)
Definition loads (raw : option string) : outcome json :=
  match raw with
  | None => Raised (Exn TypeError "the JSON object must be str, bytes or bytearray, not NoneType")
  | Some s => json_loads env s
  end.

(** [parsed.get(key, default)]: only a dict has [get]. *)
Definition get_attr (parsed : json) (key : string) (dflt : json) : outcome json :=
  match parsed with
  | JObj fields => Returned (default dflt (assoc_get key fields))
  | _ => Raised (Exn AttributeError "object has no attribute 'get'")
  end.

(** [MAXAgent._extract_tool_calls] *)
Definition _extract_tool_calls (raw_response : option string) : outcome json :=
  catching [JSONDecodeError; AttributeError]
    (outcome_bind (loads raw_response)
       (fun parsed => get_attr parsed "tool_calls" (JArr [])))
    (JArr []).

(** [MAXAgent._should_compact]; the quotient is taken in exact
    arithmetic where Python rounds to a float. *)
Definition _should_compact : M MAXAgent bool :=
  a <- get_state ;;
  let estimated_tokens := (inject_Z (total_chars (conversation_history a)) / 4)%Q in
  let limit := max_context_tokens (settings a) in
  if limit =? 0 then raise (Exn ZeroDivisionError "float division by zero")
  else
    let ratio := (estimated_tokens / inject_Z limit)%Q in
    ret (negb (Qle_bool ratio COMPACTION_THRESHOLD)).

(** The string an f-string puts for a value that may be [None]. *)
Definition fmt (s : option string) : string := default "None" s.

Definition summary_prompt (old_messages : list Message) : string :=
  "Summarize the following conversation history concisely, "
  +:+ "preserving all key facts, decisions, and outcomes:" +:+ nl +:+ nl
  +:+ join nl (map (fun m => role m +:+ ": " +:+ content m) old_messages).

(** [MAXAgent._compact_context] *)
Definition _compact_context (user_id : string) : M MAXAgent unit :=
  a <- get_state ;;
  if (length (conversation_history a) <=? 10)%nat then ret tt
  else
    let old_messages := slice_to (conversation_history a) (-10) in
    let recent_messages := slice_from (conversation_history a) (-10) in
    summary <- _call_llm_simple (summary_prompt old_messages) ;;
    t <- now env ;;
    modify (with_history
      ([mkMessage "assistant" ("[Context summary]: " +:+ fmt summary) t (JObj [])]
       ++ recent_messages)) ;;
    match summary with
    | Some s => in_memory (Memory.store env s user_id (Some ["context_summary"])) ;; ret tt
    | None =>
        (* [store] reads the clock, then the INSERT fails on [content] *)
        now env ;;
        raise (Exn IntegrityError "NOT NULL constraint failed: memories.content")
    end.

Definition check_prompt (user_input response : string) : string :=
  "Analyze this exchange:" +:+ nl
  +:+ "User: " +:+ user_input +:+ nl
  +:+ "MAX: " +:+ response +:+ nl
  +:+ nl
  +:+ "If this contains information worth remembering long-term (preferences, facts about the user, " +:+ nl
  +:+ "important decisions, contact info, etc.), respond with a JSON object:" +:+ nl
  +:+ "{" +:+ dq +:+ "should_store" +:+ dq +:+ ": true, "
  +:+ dq +:+ "content" +:+ dq +:+ ": " +:+ dq +:+ "concise memory to store" +:+ dq +:+ ", "
  +:+ dq +:+ "tags" +:+ dq +:+ ": [" +:+ dq +:+ "tag1" +:+ dq +:+ ", "
  +:+ dq +:+ "tag2" +:+ dq +:+ "]}" +:+ nl
  +:+ nl
  +:+ "If nothing is worth storing, respond with: {"
  +:+ dq +:+ "should_store" +:+ dq +:+ ": false}".

(** The arguments [_maybe_memorize] passes to [MemoryStore.store],
    which is annotated [content: str, tags: list[str]].  A suggestion
    of another shape is outside the embedding of the store; it is
    taken as an exception of the call, which the handler of
    [_maybe_memorize] swallows like any other. *)
Definition as_text (v : json) : outcome string :=
  match v with
  | JStr s => Returned s
  | _ => Raised (Exn TypeError "content is not text")
  end.
Fixpoint as_texts (vs : list json) : outcome (list string) :=
  match vs with
  | [] => Returned []
  | v :: rest =>
      outcome_bind (as_text v) (fun s =>
      outcome_bind (as_texts rest) (fun ss => Returned (s :: ss)))
  end.
Definition as_tags (v : json) : outcome (list string) :=
  if negb (truthy v) then Returned []
  else match v with
       | JArr items => as_texts items
       | _ => Raised (Exn TypeError "tags is not a list")
       end.

(** [result[key]] *)
Definition get_item (d : json) (key : string) : outcome json :=
  match d with
  | JObj fields =>
      match assoc_get key fields with
      | Some v => Returned v
      | None => Raised (Exn KeyError key)
      end
  | _ => Raised (Exn TypeError "object is not subscriptable")
  end.

(** [MAXAgent._maybe_memorize] *)
Definition _maybe_memorize (user_input response user_id : string) : M MAXAgent unit :=
  try_except
    (result_str <- _call_llm_simple (check_prompt user_input response) ;;
     result <- lift_outcome (loads result_str) ;;
     should_store <- lift_outcome (get_attr result "should_store" JNull) ;;
     if truthy should_store then
       content <- lift_outcome (outcome_bind (get_item result "content") as_text) ;;
       tags <- lift_outcome (outcome_bind (get_attr result "tags" (JArr [])) as_tags) ;;
       in_memory (Memory.store env content user_id (Some tags)) ;;
       ret tt
     else ret tt)
    (fun _ => ret tt).

(** The body of [for tool_call in tool_calls] for one element. *)
Definition run_tool_call (user_id : string) (tool_call : json) : M MAXAgent string :=
  tool_name <- lift_outcome (get_attr tool_call "name" JNull) ;;
  tool_args <- lift_outcome (get_attr tool_call "arguments" (JObj [])) ;;
  tool_result <- in_executor (execute env tool_name tool_args user_id) ;;
  append_message "assistant" (json_dumps env tool_call)
                 (JObj [("type", JStr "tool_call")]) ;;
  append_message "tool_result" (json_dumps env tool_result)
                 (JObj [("tool_name", tool_name)]) ;;
  ret (str env tool_name +:+ ": " +:+ prefix 80 (py_str env tool_args)).

Fixpoint run_tool_calls (user_id : string) (tool_calls : list json)
    (actions_taken : list string) : M MAXAgent (list string) :=
  match tool_calls with
  | [] => ret actions_taken
  | tool_call :: rest =>
      action <- run_tool_call user_id tool_call ;;
      run_tool_calls user_id rest (actions_taken ++ [action])
  end.

(** What [for tool_call in tool_calls] iterates over: the elements of
    a list.  The characters of a string and the keys of a dict are
    strings, so the first [tool_call.get] fails; other values are not
    iterable. *)
Definition run_requested (user_id : string) (tool_calls : json)
    (actions_taken : list string) : M MAXAgent (list string) :=
  match tool_calls with
  | JArr items => run_tool_calls user_id items actions_taken
  | JStr _ | JObj _ => raise (Exn AttributeError "'str' object has no attribute 'get'")
  | _ => raise (Exn TypeError "object is not iterable")
  end.

(** The [while iterations < self.MAX_ITERATIONS] loop; [remaining] is
    [MAX_ITERATIONS - iterations].  It yields [final_response] and
    [actions_taken]. *)
Fixpoint react_loop (remaining : nat) (system_prompt user_id : string)
    (actions_taken : list string) : M MAXAgent (option string * list string) :=
  match remaining with
  | O => ret (None, actions_taken)
  | S remaining' =>
      raw_response <- _call_llm system_prompt ;;
      tool_calls <- lift_outcome (_extract_tool_calls raw_response) ;;
      if negb (truthy tool_calls) then ret (raw_response, actions_taken)
      else
        actions_taken <- run_requested user_id tool_calls actions_taken ;;
        react_loop remaining' system_prompt user_id actions_taken
  end.

(** The part of [process_message] before the loop: memory retrieval,
    prompt construction, the user message, and compaction. *)
Definition prepare (user_input user_id : string)
  : M MAXAgent (list Memory.Memory * string) :=
  relevant_memories <- in_memory (Memory.search env engine user_input user_id 5 None) ;;
  a <- get_state ;;
  current_time <- now env ;;
  today <- now env ;;
  let system_prompt :=
    build_system_prompt env (agent_name (settings a))
      (map Memory.content relevant_memories) current_time today in
  append_message "user" user_input (JObj []) ;;
  compact <- _should_compact ;;
  (if compact then _compact_context user_id else ret tt) ;;
  ret (relevant_memories, system_prompt).

(** The part of [process_message] after the loop. *)
Definition conclude (user_input user_id : string)
    (relevant_memories : list Memory.Memory)
    (final_response : option string) (actions_taken : list string)
  : M MAXAgent AgentResponse :=
  let final_response :=
    match final_response with
    | Some s => if String.eqb s "" then apology else s
    | None => apology
    end in
  append_message "assistant" final_response (JObj []) ;;
  _maybe_memorize user_input final_response user_id ;;
  ret (mkResponse final_response actions_taken
         (map (fun m => prefix 60 (Memory.content m)) relevant_memories) None).

(** [MAXAgent.process_message] *)
Definition process_message (user_input user_id : string) : M MAXAgent AgentResponse :=
  a <- get_state ;;
  if negb (_initialized a) then
    raise (Exn RuntimeError "Agent not initialized. Call initialize() first.")
  else
    prepared <- prepare user_input user_id ;;
    looped <- react_loop MAX_ITERATIONS (snd prepared) user_id [] ;;
    conclude user_input user_id (fst prepared) (fst looped) (snd looped).
End Loop.

End Agent.

(* ===================================================================== *)
(** * A small concrete installation, used to run the definitions *)
(* ===================================================================== *)

Module Sample.

Import Executor.

(** A clock that starts at one millisecond and advances one millisecond
    per reading. *)
Definition clock (n : nat) : Z := 1000 * (Z.of_nat n + 1).

(** An environment around a given backend and a given [json.loads];
    the rendering functions return place holders. *)
Definition env_with (backend : nat -> request -> outcome (option string))
    (loads : string -> outcome json) : environment :=
  Environment clock backend loads
    (fun _ => "<json>") (fun _ => "<str>") (fun _ => "<repr>")
    (fun _ => "<time>") (fun _ => SpecFloat.S754_zero false)
    (fun name _ _ _ => name).

Definition silent_backend : nat -> request -> outcome (option string) :=
  fun _ _ => Returned (Some "").

(** What [json.loads] gives on a text that is not JSON. *)
Definition not_json : outcome json := Raised (Exn JSONDecodeError "Expecting value").

Definition env : environment := env_with silent_backend (fun _ => not_json).

(** The action [files__delete_file] of [files.py], registered with
    [confirm_required=True]. *)
Definition delete_file : tool := fun _ _ => Returned "Deleted a.txt".

Definition registry : ToolRegistry :=
  mkRegistry {[ "files__delete_file" := delete_file ]}
             {[ "files__delete_file" :=
                  mkMeta "files"
                    "Delete a file permanently. Always asks user for confirmation first."
                    true ]}.

Definition delete_args : json := JObj [("path", JStr "a.txt")].

Definition boot : host := Host 0 [] [] [].

(** Some time later: the clock has been read seven times. *)
Definition later : host := Host 7 [] [] [].

(** An executor as [MAXAgent.initialize] builds it: confirmation on, no
    callback wired yet. *)
Definition unwired : ToolExecutor := mkExecutor registry true None [].

(** The user answers no. *)
Definition refusing : ToolExecutor :=
  set_confirm_callback (fun _ _ => Returned false) unwired.


(** A stand-in for FTS5: a row matches when its content contains the
    query, and older rows rank first. *)
Definition contains (needle hay : string) : bool :=
  match String.index 0 needle hay with Some _ => true | None => false end.

Definition engine : Memory.fts5 :=
  Memory.Fts5 (fun query => Some (contains query)) (fun _ _ f => Memory.rowid f).

Definition empty_store : Memory.MemoryStore := Memory.mkStore [] [] 0.

(** One memory of alice, never retrieved since it was stored. *)
Definition tea : Memory.Memory :=
  Memory.mkMemory 1 "likes green tea" "alice" ["prefs"] 1000 1000 0.
Definition one_memory : Memory.MemoryStore :=
  Memory.mkStore [tea] [Memory.mkFts 1 "likes green tea" "alice"] 1.

(** Two memories of alice that match [green tea]; only the second one
    carries the tag [work]. *)
Definition tea_home : Memory.Memory :=
  Memory.mkMemory 1 "green tea at home" "alice" [] 1000 1000 0.
Definition tea_work : Memory.Memory :=
  Memory.mkMemory 2 "green tea at work" "alice" ["work"] 2000 2000 0.
Definition two_memories : Memory.MemoryStore :=
  Memory.mkStore [tea_home; tea_work]
    [Memory.mkFts 1 "green tea at home" "alice"; Memory.mkFts 2 "green tea at work" "alice"]
    2.

(** A response that asks for [files__delete_file], as [_call_llm]
    serialises it, and the value [json.loads] gives for it. *)
Definition delete_request_text : string :=
  "{" +:+ dq +:+ "tool_calls" +:+ dq +:+ ": [{" +:+ dq +:+ "name" +:+ dq +:+ ": "
  +:+ dq +:+ "files__delete_file" +:+ dq +:+ ", " +:+ dq +:+ "arguments" +:+ dq
  +:+ ": {" +:+ dq +:+ "path" +:+ dq +:+ ": " +:+ dq +:+ "a.txt" +:+ dq +:+ "}}]}".
Definition delete_request : json :=
  JObj [("tool_calls",
         JArr [JObj [("name", JStr "files__delete_file"); ("arguments", delete_args)]])].

(** [json.loads] on the few texts the sample backends produce; any
    other text is taken as not being JSON. *)
Definition loads (s : string) : outcome json :=
  if String.eqb s delete_request_text then Returned delete_request
  else if String.eqb s "4" then Returned (JInt 4)
  else not_json.

(** A backend that asks for the same tool call on every response. *)
Definition insistent_backend (n : nat) (r : request) : outcome (option string) :=
  match r with
  | ToolCompletion _ _ => Returned (Some delete_request_text)
  | SimpleCompletion _ => Returned (Some "nothing to store")
  end.

(** A backend that answers at once and summarises on request. *)
Definition helpful_backend (n : nat) (r : request) : outcome (option string) :=
  match r with
  | ToolCompletion _ _ => Returned (Some "4")
  | SimpleCompletion _ => Returned (Some "They talked about tea.")
  end.

(** A backend that asks for the tool call once and then answers. *)
Definition asking_once_backend (n : nat) (r : request) : outcome (option string) :=
  match r, n with
  | ToolCompletion _ _, O => Returned (Some delete_request_text)
  | ToolCompletion _ _, _ => Returned (Some "The file was not deleted.")
  | SimpleCompletion _, _ => Returned (Some "nothing to store")
  end.

Definition insistent_env : environment := env_with insistent_backend loads.
Definition asking_once_env : environment := env_with asking_once_backend loads.
Definition helpful_env : environment := env_with helpful_backend loads.

Definition said (text : string) : Agent.Message :=
  Agent.mkMessage "user" text 0 (JObj []).

(** An initialised agent with an empty transcript, and one whose
    transcript has twelve entries. *)
Definition fresh_agent : Agent.MAXAgent :=
  Agent.mkAgent (Agent.mkSettings "MAX" 80000) one_memory unwired [] true.
Definition refused_agent : Agent.MAXAgent :=
  Agent.mkAgent (Agent.mkSettings "MAX" 80000) one_memory refusing [] true.
Definition old_entries : list Agent.Message := [said "m1"; said "m2"].
Definition recent_entries : list Agent.Message :=
  [said "m3"; said "m4"; said "m5"; said "m6"; said "m7";
   said "m8"; said "m9"; said "m10"; said "m11"; said "m12"].
Definition busy_agent : Agent.MAXAgent :=
  Agent.mkAgent (Agent.mkSettings "MAX" 80000) one_memory unwired
    (old_entries ++ recent_entries) true.

End Sample.

(* ===================================================================== *)
(** * Consistency of the memory database *)
(* ===================================================================== *)

Module MemoryInv.

Import Memory.

(** The columns a memory shares with its entry in the full-text index. *)
Definition indexed (m : Memory) : Z * string * string :=
  (id m, content m, user_id m).
Definition index_entry (f : fts_row) : Z * string * string :=
  (rowid f, fts_content f, fts_user_id f).

(** What the statements of [memory.py] keep true of the database: ids
    are distinct, none exceeds the AUTOINCREMENT counter, and the
    full-text index holds, in the same order, one entry per memory with
    the same id, content and user. *)
Record well_formed (db : MemoryStore) : Prop := WellFormed {
  ids_distinct : NoDup (map id (memories db));
  ids_handed_out : Forall (fun m => id m <= sqlite_sequence db) (memories db);
  index_in_step : map index_entry (memories_fts db) = map indexed (memories db);
}.

(** The columns of a memory that no statement of [memory.py] updates. *)
Definition fixed_columns (m : Memory) : Z * string * string * list string * Z :=
  (id m, content m, user_id m, tags m, created_at m).

End MemoryInv.

(* ===================================================================== *)
(** * What a turn may change of the agent *)
(* ===================================================================== *)

Module Turn.

Import Executor Agent.

(** A computation relates the agent before it to the agent after it,
    however it ends. *)
Definition steps (R : relation MAXAgent) {A} (m : M MAXAgent A) : Prop :=
  forall w, R (snd w) (snd (snd (m w))).

(** The settings, the registry and the confirmation policy are the
    same. *)
Definition same_setup (a a' : MAXAgent) : Prop :=
  settings a' = settings a
  /\ _initialized a' = _initialized a
  /\ registry (tool_executor a') = registry (tool_executor a)
  /\ confirm_before_action (tool_executor a') = confirm_before_action (tool_executor a)
  /\ confirm_callback (tool_executor a') = confirm_callback (tool_executor a).

(** The audit log and the table of memories have only grown at the end,
    and no memory has changed in a column other than the access
    statistics. *)
Definition accumulates (a a' : MAXAgent) : Prop :=
  audit_log (tool_executor a) `prefix_of` audit_log (tool_executor a')
  /\ map MemoryInv.fixed_columns (Memory.memories (memory a))
     `prefix_of` map MemoryInv.fixed_columns (Memory.memories (memory a')).

(** The transcript has only grown at the end. *)
Definition extends_transcript (a a' : MAXAgent) : Prop :=
  conversation_history a `prefix_of` conversation_history a'.

(** The database stays consistent. *)
Definition keeps_database (a a' : MAXAgent) : Prop :=
  MemoryInv.well_formed (memory a) -> MemoryInv.well_formed (memory a').

(** The set-up is the same and the records have only grown. *)
Definition settles (a a' : MAXAgent) : Prop := same_setup a a' /\ accumulates a a'.

(** Only the memory store is written. *)
Definition writes_memory_only (a a' : MAXAgent) : Prop :=
  exists db', a' = with_memory db' a.

End Turn.

(* ===================================================================== *)
(** * skills/base.py and tools/tool_registry.py: how tools get registered *)
(* ===================================================================== *)

Module Skills.

Import Executor.

(** A method decorated with [@skill_action]: what calling it does, and
    the attributes the decorator sets on it. *)
Record action := mkAction {
  call : tool;
  _action_description : string;
  _confirm_required : bool;
}.

(** A class derived from [BaseSkill], as [discover_skills] meets it in
    a module of [skills/]: [obj.__name__.lower()], the class attribute
    [name], and what [obj(settings=...)] gives, the exception of
    [__init__] or an instance, of which [dir] lists the attributes, each
    with the skill action it holds when it holds one. *)
Record skill_class := mkClass {
  lowered_name : string;
  name : string;
  instance : outcome (list (string * option action));
}.

(** [attr_name.startswith("_")] *)
Definition is_private (attr_name : string) : bool :=
  match attr_name with
  | String c _ => Ascii.eqb c "_"
  | EmptyString => false
  end.

(** [BaseSkill._discover_actions]; [dir] lists a name once, so each key
    is set once. *)
Definition _discover_actions (self_name : string)
    (attributes : list (string * option action)) : list (string * action) :=
  attributes ≫= (fun attribute =>
    if is_private (fst attribute) then []
    else match snd attribute with
         | Some a => [(self_name +:+ "__" +:+ fst attribute, a)]
         | None => []
         end).

(** The body of [for tool_name, action in skill_instance._actions.items()]. *)
Definition register (skill_name : string) (reg : ToolRegistry)
    (entry : string * action) : ToolRegistry :=
  mkRegistry
    (<[fst entry := call (snd entry)]> (tools reg))
    (<[fst entry := mkMeta skill_name (_action_description (snd entry))
                      (_confirm_required (snd entry))]> (_tool_metadata reg)).

(** [getattr(skill_instance, "name", None) or obj.__name__.lower()] *)
Definition skill_name (c : skill_class) : string :=
  if String.eqb (name c) "" then lowered_name c else name c.

(** Whether [ENABLED_SKILLS] lets a skill be loaded. *)
Definition is_enabled (enabled : list string) (c : skill_class) : bool :=
  bool_decide ("all" ∈ enabled) || bool_decide (skill_name c ∈ enabled).

(** The body of the loop over the classes of a module. *)
Definition load_skill (enabled : list string) (reg : ToolRegistry) (c : skill_class)
  : ToolRegistry :=
  if negb (is_enabled enabled c) then reg
  else match instance c with
       | Returned attributes =>
           foldl (register (skill_name c)) reg (_discover_actions (name c) attributes)
       | Raised _ => reg
       end.

(** [ToolRegistry.discover_skills] on the classes derived from
    [BaseSkill] that the scan of [skills/] meets, in order; the
    dictionary [skills] of the instances is left out. *)
Definition discover_skills (enabled : list string) (found : list skill_class)
    (reg : ToolRegistry) : ToolRegistry :=
  foldl (load_skill enabled) reg found.

(** [ToolRegistry.__init__] *)
Definition empty_registry : ToolRegistry := mkRegistry ∅ ∅.

(** Where a registered tool comes from: a public attribute of an
    instance of an enabled class that holds a skill action. *)
Definition declared_by (enabled : list string) (found : list skill_class)
    (tool_name : string) (a : action) (skill : string) : Prop :=
  exists c attributes attr_name,
    c ∈ found
    /\ is_enabled enabled c = true
    /\ skill = skill_name c
    /\ instance c = Returned attributes
    /\ (attr_name, Some a) ∈ attributes
    /\ is_private attr_name = false
    /\ tool_name = name c +:+ "__" +:+ attr_name.

(** The two dictionaries of the registry describe the same tools, each
    by one declared action. *)
Definition in_step (enabled : list string) (found : list skill_class)
    (reg : ToolRegistry) : Prop :=
  forall tool_name,
    match tools reg !! tool_name, _tool_metadata reg !! tool_name with
    | Some f, Some meta =>
        exists a, declared_by enabled found tool_name a (skill meta)
                  /\ f = call a
                  /\ description meta = _action_description a
                  /\ confirm_required meta = _confirm_required a
    | None, None => True
    | _, _ => False
    end.

End Skills.

(* ===================================================================== *)
(** * interfaces/telegram_interface.py and interfaces/discord_interface.py *)
(* ===================================================================== *)

Module Interfaces.

Import Executor.

(** [text[n:]] for [n >= 0]. *)
Fixpoint drop_chars (n : nat) (s : string) : string :=
  match n, s with
  | O, _ => s
  | S n', String _ rest => drop_chars n' rest
  | S _, EmptyString => EmptyString
  end.

(** The loop
    [while text: chunks.append(text[:limit]); text = text[limit:]],
    run for at most [rounds] rounds. *)
Fixpoint split_loop (rounds limit : nat) (text : string) (chunks : list string)
  : list string :=
  match rounds with
  | O => chunks
  | S rounds' =>
      if String.eqb text "" then chunks
      else split_loop rounds' limit (drop_chars limit text) (chunks ++ [prefix limit text])
  end.

(** The body shared by the two [_split_message]: a round with a
    positive limit shortens the text, so [len(text)] rounds let the loop
    run until the text is empty. *)
Definition split_message (limit : nat) (text : string) : list string :=
  if (String.length text <=? limit)%nat then [text]
  else split_loop (String.length text) limit text [].

Module Telegram.

Definition MAX_MESSAGE_LEN : nat := 4096.

(** [TelegramInterface._split_message] *)
Definition _split_message (text : string) : list string :=
  split_message MAX_MESSAGE_LEN text.

(** [TelegramInterface._telegram_confirm], which [__init__] passes to
    [set_confirm_callback]: the prompt is logged and the answer is
    [True]. *)
Definition _telegram_confirm : callback := fun _ _ => Returned true.

End Telegram.

Module Discord.

Definition MAX_DISCORD_LEN : nat := 2000.

(** [DiscordInterface._split_message] *)
Definition _split_message (text : string) : list string :=
  split_message MAX_DISCORD_LEN text.

(** [DiscordInterface._discord_confirm], wired the same way. *)
Definition _discord_confirm : callback := fun _ _ => Returned true.

End Discord.

End Interfaces.

(* ===================================================================== *)
(** * More sample data *)
(* ===================================================================== *)

Module Scenario.

Import Executor.

(** An executor with [CONFIRM_BEFORE_ACTION=false]. *)
Definition trusting : ToolExecutor := mkExecutor Sample.registry false None [].

(** The user answers yes. *)
Definition approving : ToolExecutor :=
  set_confirm_callback (fun _ _ => Returned true) Sample.unwired.


(** An executor that has run three tools. *)
Definition ran (tool_name : string) : json :=
  JObj [("tool", JStr tool_name); ("success", JBool true)].
Definition seasoned : ToolExecutor :=
  mkExecutor Sample.registry true None
    [ran "web__search"; ran "files__read_file"; ran "files__write_file"].

(** A backend whose answer to the memory check asks to store a memory,
    and one whose answer declines; [json.loads] on the two answers. *)
Definition suggestion_text : string := "{should_store: true, ...}".
Definition refusal_text : string := "{should_store: false}".
Definition suggestion : json :=
  JObj [("should_store", JBool true);
        ("content", JStr "likes oolong");
        ("tags", JArr [JStr "prefs"])].
Definition loads (s : string) : outcome json :=
  if String.eqb s suggestion_text then Returned suggestion
  else if String.eqb s refusal_text then Returned (JObj [("should_store", JBool false)])
  else Sample.not_json.
Definition remembering_backend (n : nat) (r : request) : outcome (option string) :=
  match r with
  | ToolCompletion _ _ => Returned (Some "Noted.")
  | SimpleCompletion _ => Returned (Some suggestion_text)
  end.
Definition declining_backend (n : nat) (r : request) : outcome (option string) :=
  match r with
  | ToolCompletion _ _ => Returned (Some "Noted.")
  | SimpleCompletion _ => Returned (Some refusal_text)
  end.
Definition remembering_env : environment := Sample.env_with remembering_backend loads.
Definition declining_env : environment := Sample.env_with declining_backend loads.

(** A backend whose message has no content, so that [_call_llm] returns
    [None]; and a text on which the decoder raises [ValueError], an
    integer literal of 5000 digits. *)
Definition absent_backend (n : nat) (r : request) : outcome (option string) :=
  match r with
  | ToolCompletion _ _ => Returned None
  | SimpleCompletion _ => Returned (Some refusal_text)
  end.
Definition many_digits : string := String.concat "" (replicate 5000 "1").
Definition strict_loads (s : string) : outcome json :=
  if String.eqb s many_digits
  then Raised (Exn ValueError "Exceeds the limit (4300 digits) for integer string conversion")
  else loads s.
Definition absent_env : environment := Sample.env_with absent_backend strict_loads.

(** The call of [files__delete_file] as the loop meets it, and a call of
    a tool that is not registered. *)
Definition delete_call : list (string * json) :=
  [("name", JStr "files__delete_file"); ("arguments", Sample.delete_args)].
Definition read_call : list (string * json) :=
  [("name", JStr "files__read_file"); ("arguments", Sample.delete_args)].

(** An environment whose [json.dumps] tells the result of one tool from
    that of another. *)
Definition telling_dumps (v : json) : string :=
  match field "tool_name" v with
  | Some (JStr tool_name) => "result of " +:+ tool_name
  | _ => "<json>"
  end.
Definition telling_env : environment :=
  Environment Sample.clock Sample.silent_backend (fun _ => Sample.not_json)
    telling_dumps (fun _ => "<str>") (fun _ => "<repr>")
    (fun _ => "<time>") (fun _ => SpecFloat.S754_zero false)
    (fun name _ _ _ => name).

(** Two classes of [skills/]: [FilesSkill], of which [dir] shows among
    others a private helper and two decorated methods, and
    [EmailSkill]. *)
Definition read_file : tool := fun _ _ => Returned "hello".
Definition send_email : tool := fun _ _ => Returned "Sent.".
Definition FilesSkill : Skills.skill_class :=
  Skills.mkClass "filesskill" "files"
    (Returned [("_safe_path", None);
               ("delete_file",
                Some (Skills.mkAction Sample.delete_file
                        "Delete a file permanently. Always asks user for confirmation first."
                        true));
               ("read_file",
                Some (Skills.mkAction read_file "Read the contents of a file" false));
               ("workspace", None)]).
Definition EmailSkill : Skills.skill_class :=
  Skills.mkClass "emailskill" "email"
    (Returned [("send_email",
                Some (Skills.mkAction send_email "Send an email. Always confirms with user before sending." true))]).

(** An agent that runs tools without asking, and one configured with
    [MAX_CONTEXT_TOKENS=0]. *)
Definition trusting_agent : Agent.MAXAgent :=
  Agent.mkAgent (Agent.mkSettings "MAX" 80000) Sample.one_memory trusting [] true.
Definition starved_agent : Agent.MAXAgent :=
  Agent.mkAgent (Agent.mkSettings "MAX" 0) Sample.one_memory Sample.unwired [] true.

End Scenario.


(* ===================================================================== *)
(** * Facts about the effect monad *)
(* ===================================================================== *)

Section MonadFacts.
Context {S : Type}.

Lemma quiet_ret {A} (a : A) : quiet (ret (S:=S) a).
Proof. by intros w. Qed.

Lemma quiet_raise {A} e : quiet (raise (S:=S) (A:=A) e).
Proof. by intros w. Qed.

Lemma quiet_lift {A} (o : outcome A) : quiet (lift_outcome (S:=S) o).
Proof. by intros w. Qed.

Lemma quiet_get_state : quiet (get_state (S:=S)).
Proof. by intros w. Qed.

Lemma quiet_get_host : quiet (get_host (S:=S)).
Proof. by intros w. Qed.

Lemma quiet_modify f : quiet (modify (S:=S) f).
Proof. by intros w. Qed.

Lemma quiet_tick : quiet (modify_host (S:=S) tick).
Proof. by intros w. Qed.

Lemma quiet_log_invocation n a : quiet (modify_host (S:=S) (log_invocation n a)).
Proof. by intros w. Qed.

Lemma quiet_log_confirmation p : quiet (modify_host (S:=S) (log_confirmation p)).
Proof. by intros w. Qed.

Lemma quiet_bind {A B} (m : M S A) (f : A -> M S B) :
  quiet m -> (forall a, quiet (f a)) -> quiet (bind m f).
Proof.
  intros Hm Hf w. unfold bind. specialize (Hm w).
  destruct (m w) as [[a|e] w']; simpl in *; [|done].
  by rewrite Hf.
Qed.

Lemma quiet_try {A} (body : M S A) handler :
  quiet body -> (forall e, quiet (handler e)) -> quiet (try_except body handler).
Proof.
  intros Hm Hf w. unfold try_except. specialize (Hm w).
  destruct (body w) as [[a|e] w']; simpl in *; [done|].
  by rewrite Hf.
Qed.

Lemma quiet_for_each {A} (l : list A) (body : A -> M S unit) :
  (forall x, quiet (body x)) -> quiet (for_each l body).
Proof.
  intros Hb. induction l as [|x l IH]; simpl; [apply quiet_ret|].
  apply quiet_bind; auto.
Qed.

Lemma quiet_zoom {W A} (proj : W -> S) upd (m : M S A) :
  quiet m -> quiet (zoom proj upd m).
Proof. intros Hm w. unfold zoom. simpl. apply Hm. Qed.

Lemma quiet_now env : quiet (now (S:=S) env).
Proof.
  unfold now. apply quiet_bind; [apply quiet_get_host|intros h].
  apply quiet_bind; [apply quiet_tick|intros _]. apply quiet_ret.
Qed.

Lemma complete_spec env (r : request) (w : host * S) :
  complete env r w
  = (completion env (length (completions (fst w))) r, (log_completion r (fst w), snd w)).
Proof. reflexivity. Qed.

Context (p : request -> bool).

Lemma sends_quiet {A} (m : M S A) k : quiet m -> sends_at_most p m k.
Proof. intros Hm w. unfold requests. rewrite Hm. lia. Qed.

Lemma sends_weaken {A} (m : M S A) k k' :
  (k <= k')%nat -> sends_at_most p m k -> sends_at_most p m k'.
Proof. intros Hk Hm w. specialize (Hm w). lia. Qed.

Lemma sends_bind {A B} (m : M S A) (f : A -> M S B) k1 k2 :
  sends_at_most p m k1 -> (forall a, sends_at_most p (f a) k2) ->
  sends_at_most p (bind m f) (k1 + k2).
Proof.
  intros Hm Hf w. unfold bind. specialize (Hm w).
  destruct (m w) as [[a|e] w']; simpl in *; [|lia].
  specialize (Hf a w'). lia.
Qed.

Lemma sends_bind_l {A B} (m : M S A) (f : A -> M S B) k :
  sends_at_most p m k -> (forall a, quiet (f a)) -> sends_at_most p (bind m f) k.
Proof.
  intros Hm Hf. apply (sends_weaken _ (k + 0)); [lia|].
  apply sends_bind; [done|]. intros a. by apply sends_quiet.
Qed.

Lemma sends_bind_r {A B} (m : M S A) (f : A -> M S B) k :
  quiet m -> (forall a, sends_at_most p (f a) k) -> sends_at_most p (bind m f) k.
Proof.
  intros Hm Hf. apply (sends_weaken _ (0 + k)); [lia|].
  apply sends_bind; [|done]. by apply sends_quiet.
Qed.

Lemma sends_try {A} (body : M S A) handler k :
  sends_at_most p body k -> (forall e, quiet (handler e)) ->
  sends_at_most p (try_except body handler) k.
Proof.
  intros Hm Hf w. unfold try_except. specialize (Hm w).
  destruct (body w) as [[a|e] w']; simpl in *; [done|].
  unfold requests in *. rewrite Hf. done.
Qed.

Lemma requests_log_completion r h :
  requests p (log_completion r h) = (requests p h + (if p r then 1 else 0))%nat.
Proof.
  unfold requests, log_completion. simpl. rewrite List.filter_app, length_app. simpl.
  destruct (p r); simpl; lia.
Qed.

Lemma sends_complete env r :
  sends_at_most p (complete (S:=S) env r) (if p r then 1 else 0).
Proof. intros w. rewrite complete_spec. simpl. rewrite requests_log_completion. lia. Qed.
End MonadFacts.

Create HintDb quiet.
#[local] Hint Resolve quiet_ret quiet_raise quiet_lift quiet_get_state quiet_get_host
  quiet_modify quiet_tick quiet_log_invocation quiet_log_confirmation quiet_now : quiet.

Ltac quiet_step :=
  match goal with
  | |- quiet (bind _ _) => apply quiet_bind; [|intros ?]
  | |- quiet (try_except _ _) => apply quiet_try; [|intros ?]
  | |- quiet (for_each _ _) => apply quiet_for_each; intros ?
  | |- quiet (zoom _ _ _) => apply quiet_zoom
  | |- quiet (match ?x with _ => _ end) => destruct x
  | |- quiet (if ?b then _ else _) => destruct b
  | |- quiet _ => solve [auto with quiet]
  end.
Ltac quiet := repeat quiet_step.

(** Unfolding the primitive operations of the monad. *)
Ltac run :=
  unfold now, try_except, bind, ret, raise, get_state, get_host, modify, modify_host,
    lift_outcome; simpl.

(* ===================================================================== *)
(** * Python slices *)
(* ===================================================================== *)

Lemma slice_split {A} (l : list A) (k : Z) : slice_to l k ++ slice_from l k = l.
Proof. unfold slice_to, slice_from. apply take_drop. Qed.

Lemma length_slice_from_neg {A} (l : list A) (k : nat) :
  (0 < k <= length l)%nat -> length (slice_from l (- Z.of_nat k)) = k.
Proof.
  intros H. unfold slice_from. rewrite length_drop.
  destruct (Z.ltb_spec (- Z.of_nat k) 0); lia.
Qed.

Lemma slice_from_zero {A} (l : list A) : slice_from l (- 0) = l.
Proof. unfold slice_from. simpl. rewrite Z.min_l by lia. reflexivity. Qed.

Example strip_example : strip "  ab c  " = "ab c".
Proof. reflexivity. Qed.

Example slice_last_two : slice_from [1; 2; 3; 4; 5] (-2) = [4; 5].
Proof. reflexivity. Qed.

Example slice_but_last_two : slice_to [1; 2; 3; 4; 5] (-2) = [1; 2; 3].
Proof. reflexivity. Qed.

Example slice_short_list : slice_from [1; 2] (-10) = [1; 2].
Proof. reflexivity. Qed.

(* ===================================================================== *)
(** * The memory store *)
(* ===================================================================== *)

Section MemoryProps.
Import Memory.
Context (env : environment) (engine : fts5).

Lemma elem_of_sql_limit {A} (n : Z) (l : list A) x : x ∈ sql_limit n l -> x ∈ l.
Proof.
  unfold sql_limit. destruct (n <? 0); [done|]. apply subseteq_take.
Qed.

Lemma sql_limit_sublist {A} (n : Z) (l : list A) : sql_limit n l `sublist_of` l.
Proof. unfold sql_limit. destruct (n <? 0); [done|apply sublist_take]. Qed.

Lemma elem_of_order_by {A} (key : A -> Z) (l : list A) x : x ∈ order_by key l <-> x ∈ l.
Proof. unfold order_by. by rewrite merge_sort_Permutation. Qed.

Lemma elem_of_order_by_desc {A} (key : A -> Z) (l : list A) x :
  x ∈ order_by_desc key l <-> x ∈ l.
Proof. unfold order_by_desc. by rewrite merge_sort_Permutation. Qed.

Lemma elem_of_fts_join matches uid db f m :
  (f, m) ∈ fts_join matches uid db ->
  f ∈ memories_fts db /\ m ∈ memories db /\ rowid f = id m
  /\ matches (fts_content f) = true /\ user_id m = uid.
Proof.
  unfold fts_join. intros H.
  apply list_elem_of_bind in H as (f' & H & Hf).
  apply list_elem_of_bind in H as (m' & H & Hm).
  destruct (bool_decide (rowid f' = id m')) eqn:E1; simpl in H; [|by apply elem_of_nil in H].
  destruct (matches (fts_content f')) eqn:E2; simpl in H; [|by apply elem_of_nil in H].
  destruct (bool_decide (user_id m' = uid)) eqn:E3; simpl in H; [|by apply elem_of_nil in H].
  apply list_elem_of_singleton in H as [= -> ->].
  apply bool_decide_eq_true in E1, E3. auto.
Qed.

Lemma elem_of_select_fts query uid limit db rows m :
  select_fts engine query uid limit db = Returned rows ->
  m ∈ rows -> user_id m = uid /\ m ∈ memories db.
Proof.
  unfold select_fts. destruct (fts_match engine query) as [matches|]; [|done].
  intros [= <-] Hm. apply list_elem_of_In, in_map_iff in Hm as ([f m'] & <- & Hm).
  apply list_elem_of_In, elem_of_sql_limit, elem_of_order_by, elem_of_fts_join in Hm.
  simpl. tauto.
Qed.

Lemma List_filter_sublist {A} (f : A -> bool) (l : list A) : List.filter f l `sublist_of` l.
Proof.
  induction l as [|x l IH]; simpl; [constructor|].
  destruct (f x); by constructor.
Qed.

Lemma filter_tags_sublist tags (l : list Memory) : filter_tags tags l `sublist_of` l.
Proof. destruct tags as [[|t ts]|]; simpl; [done| |done]. apply List_filter_sublist. Qed.

Lemma elem_of_filter_tags tags (l : list Memory) m : m ∈ filter_tags tags l -> m ∈ l.
Proof. intros H. eapply elem_of_sublist; [exact H|apply filter_tags_sublist]. Qed.

Lemma get_recent_spec uid limit h db :
  _get_recent uid limit (h, db)
  = (Returned (sql_limit limit (order_by_desc accessed_at
                 (filter (fun m => user_id m = uid) (memories db)))), (h, db)).
Proof. reflexivity. Qed.

Lemma search_short query uid limit tags w :
  (String.length (strip query) < 3)%nat ->
  search env engine query uid limit tags w = _get_recent uid limit w.
Proof.
  intros H. unfold search.
  destruct (Z.ltb_spec (Z.of_nat (String.length (strip query))) 3); [done|lia].
Qed.

(** The loop over [_touch] never fails; it reads the clock once per
    record and rewrites the table accordingly. *)
Lemma touch_all_spec (l : list Memory) h db :
  for_each l (fun m => _touch env (id m)) (h, db)
  = (Returned tt,
     (Host (clock_reads h + length l) (completions h) (invocations h) (confirmations h),
      mkStore (touch_rows env (clock_reads h) (map id l) (memories db))
              (memories_fts db) (sqlite_sequence db))).
Proof.
  revert h db. induction l as [|m l IH]; intros h db; simpl.
  - unfold ret. destruct h, db; simpl. by rewrite Nat.add_0_r.
  - unfold bind at 1. unfold _touch, now, bind, get_host, modify_host, modify, ret.
    cbn [fst snd]. rewrite IH. simpl. do 3 f_equal. f_equal. lia.
Qed.

Lemma search_long query uid limit tags h db rows :
  (3 <= String.length (strip query))%nat ->
  select_fts engine query uid limit db = Returned rows ->
  search env engine query uid limit tags (h, db)
  = (Returned (filter_tags tags rows),
     (Host (clock_reads h + length (filter_tags tags rows))
           (completions h) (invocations h) (confirmations h),
      mkStore (touch_rows env (clock_reads h) (map id (filter_tags tags rows)) (memories db))
              (memories_fts db) (sqlite_sequence db))).
Proof.
  intros H Hsel. unfold search.
  destruct (Z.ltb_spec (Z.of_nat (String.length (strip query))) 3); [lia|].
  unfold bind at 1, get_state. unfold bind at 1, lift_outcome. cbn [fst snd].
  rewrite Hsel. unfold bind. by rewrite touch_all_spec.
Qed.

Lemma search_syntax_error query uid limit tags h db e :
  (3 <= String.length (strip query))%nat ->
  select_fts engine query uid limit db = Raised e ->
  search env engine query uid limit tags (h, db) = (Raised e, (h, db)).
Proof.
  intros H Hsel. unfold search.
  destruct (Z.ltb_spec (Z.of_nat (String.length (strip query))) 3); [lia|].
  unfold bind at 1, get_state. unfold bind at 1, lift_outcome. cbn [fst snd].
  by rewrite Hsel.
Qed.

Lemma touch_rows_spec n ids rows row :
  NoDup ids -> row ∈ rows ->
  (id row ∈ ids ->
     exists k, (n <= k < n + length ids)%nat
               /\ touched (utcnow env k) row ∈ touch_rows env n ids rows)
  /\ (id row ∉ ids -> row ∈ touch_rows env n ids rows).
Proof.
  intros Hnd. revert n rows row.
  induction Hnd as [|i ids Hi Hnd IH]; intros n rows row Hrow; simpl.
  - split; [by intros ?%elem_of_nil|done].
  - destruct (decide (id row = i)) as [Heq|Hne].
    + assert (Hin : touched (utcnow env n) row ∈ map (touch_one (utcnow env n) i) rows).
      { apply list_elem_of_In, in_map_iff. exists row. split; [|by apply list_elem_of_In].
        unfold touch_one. by rewrite bool_decide_eq_true_2. }
      split; [intros _|intros []; rewrite Heq; left].
      exists n. split; [lia|].
      apply (proj2 (IH (S n) _ _ Hin)). simpl. by rewrite Heq.
    + assert (Hin : row ∈ map (touch_one (utcnow env n) i) rows).
      { apply list_elem_of_In, in_map_iff. exists row. split; [|by apply list_elem_of_In].
        unfold touch_one. by rewrite bool_decide_eq_false_2. }
      destruct (IH (S n) _ _ Hin) as [IH1 IH2]. split.
      * intros [?|Hmem]%elem_of_cons; [done|].
        destruct (IH1 Hmem) as (k & Hk & Hk'). exists k. split; [lia|done].
      * intros Hnot. apply IH2. intros ?. apply Hnot. by right.
Qed.

(** Each indexed row joins with at most one memory, so distinct selected
    rows have distinct ids. *)
Lemma NoDup_join_one matches uid db f :
  NoDup (map id (memories db)) ->
  NoDup (map (fun r : fts_row * Memory => id (snd r))
     (m ← memories db;
      if bool_decide (rowid f = id m) && matches (fts_content f)
         && bool_decide (user_id m = uid) then [(f, m)] else [])).
Proof.
  induction (memories db) as [|m ms IH]; simpl; [constructor|].
  intros Hnd. apply NoDup_cons in Hnd as [Hm Hnd].
  rewrite map_app. apply NoDup_app. split; [|split; [|by apply IH]].
  - destruct (_ && _); simpl; [apply NoDup_singleton|constructor].
  - intros x Hx Hx'. destruct (_ && _); simpl in Hx; [|by apply elem_of_nil in Hx].
    apply list_elem_of_singleton in Hx as ->.
    apply list_elem_of_In, in_map_iff in Hx' as ([f' m'] & Heq & Hin). simpl in Heq.
    apply list_elem_of_In, list_elem_of_bind in Hin as (m'' & Hin & Hm'').
    destruct (_ && _); simpl in Hin; [|by apply elem_of_nil in Hin].
    apply list_elem_of_singleton in Hin as [= -> ->].
    apply Hm. rewrite <- Heq. apply list_elem_of_In, in_map_iff.
    exists m''. split; [done|by apply list_elem_of_In].
Qed.

Lemma NoDup_fts_join matches uid db :
  NoDup (map rowid (memories_fts db)) ->
  NoDup (map id (memories db)) ->
  NoDup (map (fun r : fts_row * Memory => id (snd r)) (fts_join matches uid db)).
Proof.
  unfold fts_join. intros Hf Hm.
  induction (memories_fts db) as [|f fs IH]; simpl; [constructor|].
  apply NoDup_cons in Hf as [Hf Hfs].
  rewrite map_app. apply NoDup_app. split; [|split; [|by apply IH]].
  - by apply NoDup_join_one.
  - intros x Hx Hx'.
    apply list_elem_of_In, in_map_iff in Hx as ([f1 m1] & <- & Hin1).
    apply list_elem_of_In, list_elem_of_bind in Hin1 as (m1' & Hin1 & _).
    destruct (bool_decide (rowid f = id m1')) eqn:E1; simpl in Hin1;
      [|by apply elem_of_nil in Hin1].
    destruct (_ && _); simpl in Hin1; [|by apply elem_of_nil in Hin1].
    apply list_elem_of_singleton in Hin1 as [= -> ->].
    apply bool_decide_eq_true in E1.
    apply list_elem_of_In, in_map_iff in Hx' as ([f2 m2] & Heq & Hin2).
    apply list_elem_of_In, list_elem_of_bind in Hin2 as (f2' & Hin2 & Hf2).
    apply list_elem_of_bind in Hin2 as (m2' & Hin2 & _).
    destruct (bool_decide (rowid f2' = id m2')) eqn:E2; simpl in Hin2;
      [|by apply elem_of_nil in Hin2].
    destruct (_ && _); simpl in Hin2; [|by apply elem_of_nil in Hin2].
    apply list_elem_of_singleton in Hin2 as [= -> ->].
    apply bool_decide_eq_true in E2. simpl in Heq.
    apply Hf. rewrite E1, <- Heq, <- E2.
    apply list_elem_of_In, in_map_iff. exists f2'. split; [done|by apply list_elem_of_In].
Qed.

Lemma NoDup_selected query uid limit tags db rows :
  NoDup (map rowid (memories_fts db)) ->
  NoDup (map id (memories db)) ->
  select_fts engine query uid limit db = Returned rows ->
  NoDup (map id (filter_tags tags rows)).
Proof.
  intros Hf Hm. unfold select_fts.
  destruct (fts_match engine query) as [matches|]; [|done]. intros [= <-].
  eapply sublist_NoDup;
    [|change (map id ?l) with (id <$> l); apply fmap_sublist, filter_tags_sublist].
  change (id <$> map snd ?l) with (map id (map snd l)). rewrite map_map.
  eapply sublist_NoDup;
    [|change (map ?f ?l) with (f <$> l); apply fmap_sublist, sql_limit_sublist].
  unfold order_by. rewrite merge_sort_Permutation.
  by apply NoDup_fts_join.
Qed.

(** On the full-text path every returned record is touched exactly once:
    its row then carries the count of the returned snapshot plus one and
    the time read at its touch, and rows that are not returned stay as
    they were.  The records handed to the caller are the snapshots read
    before the update. *)
Lemma search_fts_touches query uid limit tags h db ms h' db' :
  (3 <= String.length (strip query))%nat ->
  NoDup (map rowid (memories_fts db)) ->
  NoDup (map id (memories db)) ->
  search env engine query uid limit tags (h, db) = (Returned ms, (h', db')) ->
  clock_reads h' = (clock_reads h + length ms)%nat
  /\ (forall m, m ∈ ms ->
        m ∈ memories db
        /\ exists k, (clock_reads h <= k < clock_reads h')%nat
                     /\ touched (utcnow env k) m ∈ memories db')
  /\ (forall row, row ∈ memories db -> id row ∉ map id ms -> row ∈ memories db').
Proof.
  intros Hlen Hf Hm Hs.
  destruct (select_fts engine query uid limit db) as [rows|e] eqn:Hsel;
    [|by rewrite (search_syntax_error _ _ _ _ _ _ e) in Hs].
  rewrite (search_long _ _ _ _ _ _ rows) in Hs by done.
  injection Hs as <- <- <-. simpl.
  pose proof (NoDup_selected _ _ _ tags _ _ Hf Hm Hsel) as Hnd.
  split; [done|]. split.
  - intros m Hin.
    assert (Hrow : m ∈ memories db).
    { eapply elem_of_select_fts; [eassumption|]. by eapply elem_of_filter_tags. }
    split; [done|].
    destruct (touch_rows_spec (clock_reads h) _ _ m Hnd Hrow) as [Htouched _].
    destruct Htouched as (k & Hk & Hk').
    { apply list_elem_of_In, in_map. by apply list_elem_of_In. }
    exists k. rewrite length_map in Hk. split; [lia|done].
  - intros row Hrow Hnot.
    by apply (touch_rows_spec (clock_reads h) _ _ row Hnd Hrow).
Qed.

(** The recency fallback changes nothing: neither the tables nor the
    clock reading count. *)
Lemma search_fallback_reads_only query uid limit tags w :
  (String.length (strip query) < 3)%nat ->
  snd (search env engine query uid limit tags w) = w.
Proof. intros H. rewrite search_short by done. by destruct w. Qed.

(** C7: every record returned by [search], on the recency path and on
    the full-text path, and every record returned by [get_all], is a
    row of the table whose [user_id] is the [user_id] argument of the
    call; a row stored under another user is never returned. *)
Theorem retrieval_is_scoped_to_user h db uid :
  (forall query limit tags ms w',
      search env engine query uid limit tags (h, db) = (Returned ms, w') ->
      forall m, m ∈ ms -> user_id m = uid /\ m ∈ memories db)
  /\ (exists ms, get_all uid (h, db) = (Returned ms, (h, db))
                 /\ forall m, m ∈ ms -> user_id m = uid /\ m ∈ memories db).
Proof.
  split.
  - intros query limit tags ms w' Hs m Hm.
    destruct (le_lt_dec 3 (String.length (strip query))) as [Hlen|Hlen].
    + destruct (select_fts engine query uid limit db) as [rows|e] eqn:Hsel.
      * rewrite (search_long _ _ _ _ _ _ rows) in Hs by done. injection Hs as <- <-.
        eapply elem_of_select_fts; [eassumption|]. by eapply elem_of_filter_tags.
      * by rewrite (search_syntax_error _ _ _ _ _ _ e) in Hs.
    + rewrite search_short, get_recent_spec in Hs by done. injection Hs as <- <-.
      apply elem_of_sql_limit, elem_of_order_by_desc, list_elem_of_filter in Hm. tauto.
  - eexists. split; [reflexivity|]. intros m Hm.
    apply elem_of_order_by_desc, list_elem_of_filter in Hm. tauto.
Qed.

(** The query of [search]: the tag filter is applied to the rows that
    are left after ORDER BY rank and LIMIT. *)
Lemma search_filters_limited_rows query uid limit t ts h db matches :
  (3 <= String.length (strip query))%nat ->
  fts_match engine query = Some matches ->
  fst (search env engine query uid limit (Some (t :: ts)) (h, db))
  = Returned
      (List.filter (has_any_tag (t :: ts))
         (map snd
            (sql_limit limit
               (order_by (fun r => fts_rank engine query (memories_fts db) (fst r))
                         (fts_join matches uid db))))).
Proof.
  intros Hlen Hmatch.
  erewrite search_long; [reflexivity|done|]. unfold select_fts. by rewrite Hmatch.
Qed.
End MemoryProps.

Section MemoryRuns.
Import Memory.

(** The sample tables are what [store] builds from an empty database. *)
Example one_memory_stored :
  store Sample.env "likes green tea" "alice" (Some ["prefs"]) (Sample.boot, Sample.empty_store)
  = (Returned 1, (Host 1 [] [] [], Sample.one_memory)).
Proof. reflexivity. Qed.

Example two_memories_stored :
  bind (store Sample.env "green tea at home" "alice" None)
       (fun _ => store Sample.env "green tea at work" "alice" (Some ["work"]))
       (Sample.boot, Sample.empty_store)
  = (Returned 2, (Host 2 [] [] [], Sample.two_memories)).
Proof. reflexivity. Qed.

(** A query of three characters or more: the returned record is the
    snapshot, its row is touched. *)
Example search_fts_counts_access :
  search Sample.env Sample.engine "green tea" "alice" 5 None (Sample.later, Sample.one_memory)
  = (Returned [Sample.tea],
     (Host 8 [] [] [],
      mkStore [mkMemory 1 "likes green tea" "alice" ["prefs"] 1000 8000 1]
              (memories_fts Sample.one_memory) 1)).
Proof. reflexivity. Qed.

(** The fallback ranks by last access, [get_all] by creation, newest
    first; another user sees nothing. *)
Example get_recent_orders_by_access :
  fst (_get_recent "alice" 1 (Sample.later, Sample.two_memories)) = Returned [Sample.tea_work]
  /\ fst (get_all "alice" (Sample.later, Sample.two_memories))
     = Returned [Sample.tea_work; Sample.tea_home]
  /\ fst (search Sample.env Sample.engine "green tea" "bob" 5 None
            (Sample.later, Sample.two_memories)) = Returned []
  /\ fst (search Sample.env Sample.engine "" "bob" 5 None
            (Sample.later, Sample.two_memories)) = Returned [].
Proof. repeat split. Qed.

(** C1: with a query shorter than three characters [search] returns the
    stored record through [_get_recent] and leaves its row as it was:
    [access_count] is still 0 and [accessed_at] is still the old time,
    although one record was returned. *)
Theorem search_fallback_leaves_access_stats :
  search Sample.env Sample.engine "" "alice" 5 None (Sample.later, Sample.one_memory)
  = (Returned [Sample.tea], (Sample.later, Sample.one_memory))
  /\ memories Sample.one_memory = [Sample.tea]
  /\ access_count Sample.tea = 0
  /\ accessed_at Sample.tea = 1000
  /\ utcnow Sample.env (clock_reads Sample.later) = 8000.
Proof. repeat split. Qed.

(** C7, at the sample store. *)
Lemma retrieval_is_scoped_to_user_witness :
  fst (search Sample.env Sample.engine "green tea" "alice" 5 None
         (Sample.later, Sample.one_memory)) = Returned [Sample.tea]
  /\ user_id Sample.tea = "alice"
  /\ Sample.tea ∈ memories Sample.one_memory.
Proof.
  split; [reflexivity|].
  refine (proj1 (retrieval_is_scoped_to_user Sample.env Sample.engine
                   Sample.later Sample.one_memory "alice")
                "green tea" 5 None [Sample.tea] _ _ Sample.tea _).
  - vm_compute. reflexivity.
  - apply list_elem_of_here.
Defined.

(** C10: on the full-text path with a non-empty [tags] argument, [search]
    applies LIMIT to the ranked matches and filters by tag afterwards;
    so with [limit] 1 it returns no record from a store that holds one
    record of the user that matches the query and carries the tag. *)
Theorem limit_applies_before_tag_filter :
  (forall env engine query uid limit t ts h db matches,
      (3 <= String.length (strip query))%nat ->
      fts_match engine query = Some matches ->
      fst (search env engine query uid limit (Some (t :: ts)) (h, db))
      = Returned
          (List.filter (has_any_tag (t :: ts))
             (map snd
                (sql_limit limit
                   (order_by (fun r => fts_rank engine query (memories_fts db) (fst r))
                             (fts_join matches uid db))))))
  /\ fst (search Sample.env Sample.engine "green tea" "alice" 1 (Some ["work"])
            (Sample.boot, Sample.two_memories)) = Returned []
  /\ List.filter (fun m => Sample.contains "green tea" (content m)
                           && bool_decide (user_id m = "alice")
                           && has_any_tag ["work"] m)
       (memories Sample.two_memories) = [Sample.tea_work]
  /\ fst (search Sample.env Sample.engine "green tea" "alice" 2 (Some ["work"])
            (Sample.boot, Sample.two_memories)) = Returned [Sample.tea_work].
Proof.
  split; [|repeat split].
  intros. by apply search_filters_limited_rows.
Qed.

(** C10, at the sample store. *)
Lemma limit_applies_before_tag_filter_witness :
  fst (search Sample.env Sample.engine "green tea" "alice" 1 (Some ["work"])
         (Sample.boot, Sample.two_memories))
  = Returned (List.filter (has_any_tag ["work"]) [Sample.tea_home]).
Proof.
  refine (proj1 limit_applies_before_tag_filter Sample.env Sample.engine
            "green tea" "alice" 1 "work" [] Sample.boot Sample.two_memories
            (Sample.contains "green tea") _ _).
  - vm_compute. lia.
  - reflexivity.
Defined.
End MemoryRuns.

(* ===================================================================== *)
(** * The tool executor *)
(* ===================================================================== *)

Section ExecutorProps.
Import Executor.
Context (env : environment).

Ltac run_execute :=
  unfold execute, _request_confirmation, call_tool; run.

Lemma app_one_neq {A} (l : list A) (x : A) : l <> l ++ [x].
Proof.
  intros H. apply (f_equal length) in H. rewrite length_app in H. simpl in H. lia.
Qed.

Lemma quiet_execute n a u : quiet (execute env n a u).
Proof. unfold execute, _request_confirmation, call_tool. quiet. Qed.


Lemma execute_refused h ex name action kwargs user_id cb :
  tools (registry ex) !! name = Some action ->
  requires_confirmation (registry ex) name = true ->
  confirm_before_action ex = true ->
  confirm_callback ex = Some cb ->
  cb (length (confirmations h)) (confirmation_prompt env (JStr name) kwargs) = Returned false ->
  execute env (JStr name) (JObj kwargs) user_id (h, ex)
  = (Returned (cancelled_result (JStr name)),
     (log_confirmation (confirmation_prompt env (JStr name) kwargs) h, ex)).
Proof.
  intros Ht Hr Hc Hcb Hno. run_execute. rewrite Ht, Hc, Hr. simpl. run_execute.
  rewrite Hcb. run. rewrite Hno. reflexivity.
Qed.


(** C9: [get_audit_log] with [limit] 0 returns the whole audit log,
    since the slice [[-0:]] starts at index 0. *)
Theorem get_audit_log_zero_returns_all ex : get_audit_log ex 0 = audit_log ex.
Proof. unfold get_audit_log. apply slice_from_zero. Qed.

(** C2 as amended: a registered tool that requires confirmation, called
    while confirmation is enabled and no callback is wired, yields the
    same result as a refusal by the user, with [success] false and
    [cancelled] true; the state of the executor and of the host is
    unchanged, so the implementation was not called and nothing was
    audited. *)
Theorem execute_unwired_denies h ex name action arguments user_id :
  tools (registry ex) !! name = Some action ->
  requires_confirmation (registry ex) name = true ->
  confirm_before_action ex = true ->
  confirm_callback ex = None ->
  execute env (JStr name) arguments user_id (h, ex)
  = (Returned (cancelled_result (JStr name)), (h, ex))
  /\ field "success" (cancelled_result (JStr name)) = Some (JBool false)
  /\ field "cancelled" (cancelled_result (JStr name)) = Some (JBool true)
  /\ field "error" (cancelled_result (JStr name)) = Some (JStr "Action cancelled by user").
Proof.
  intros Ht Hr Hc Hcb. split; [|by repeat split].
  run_execute. rewrite Ht, Hc, Hr. simpl. run_execute. rewrite Hcb. reflexivity.
Qed.

(** C6: when the gateway has shown a prompt for a tool that requires
    confirmation and the wired callback has answered false, [execute]
    returns the cancelled result, the implementation was not called and
    nothing was added to the audit log. *)
Theorem execute_denied h ex name action arguments user_id cb out h' ex' :
  tools (registry ex) !! name = Some action ->
  requires_confirmation (registry ex) name = true ->
  confirm_callback ex = Some cb ->
  execute env (JStr name) arguments user_id (h, ex) = (out, (h', ex')) ->
  (exists prompt, confirmations h' = confirmations h ++ [prompt]
                  /\ cb (length (confirmations h)) prompt = Returned false) ->
  out = Returned (JObj [("success", JBool false);
                        ("result", JNull);
                        ("error", JStr "Action cancelled by user");
                        ("tool_name", JStr name);
                        ("cancelled", JBool true)])
  /\ invocations h' = invocations h
  /\ audit_log ex' = audit_log ex.
Proof.
  intros Ht Hr Hcb Hrun (prompt & Hlog & Hno).
  revert Hrun. run_execute. rewrite Ht, Hr. destruct (confirm_before_action ex); simpl; run.
  - rewrite Hcb. destruct arguments as [| | | | |items|kwargs]; run;
      try (intros [= <- <- <-]; exfalso; eapply app_one_neq; eassumption).
    destruct (cb _ (confirmation_prompt env (JStr name) kwargs)) as [[]|e] eqn:Hans; simpl.
    + destruct (action _ _); simpl; intros [= <- <- <-]; simpl in *;
        apply app_inv_head in Hlog; injection Hlog as <-; congruence.
    + intros [= <- <- <-]. auto.
    + intros [= <- <- <-]; simpl in *.
      apply app_inv_head in Hlog; injection Hlog as <-; congruence.
  - destruct arguments; run;
      try (intros [= <- <- <-]; exfalso; eapply app_one_neq; eassumption).
    destruct (action _ _); simpl; intros [= <- <- <-]; exfalso; eapply app_one_neq; eassumption.
Qed.

End ExecutorProps.

Section ExecutorRuns.
Import Executor.

(** C2: at the executor that [MAXAgent.initialize] builds, the denial of
    [files__delete_file] carries [cancelled] true, not false. *)
Lemma unwired_denial_reports_cancelled :
  exists fields,
    fst (execute Sample.env (JStr "files__delete_file") Sample.delete_args "alice"
           (Sample.boot, Sample.unwired)) = Returned (JObj fields)
    /\ assoc_get "success" fields = Some (JBool false)
    /\ assoc_get "cancelled" fields = Some (JBool true)
    /\ assoc_get "cancelled" fields <> Some (JBool false).
Proof. eexists. split; [reflexivity|]. repeat split. discriminate. Qed.

(** C2 as amended, at the same executor. *)
Lemma execute_unwired_denies_witness :
  execute Sample.env (JStr "files__delete_file") Sample.delete_args "alice"
    (Sample.boot, Sample.unwired)
  = (Returned (cancelled_result (JStr "files__delete_file")), (Sample.boot, Sample.unwired)).
Proof.
  refine (proj1 (execute_unwired_denies Sample.env Sample.boot Sample.unwired
                   "files__delete_file" Sample.delete_file Sample.delete_args "alice"
                   _ _ _ _)); reflexivity.
Defined.



(** C6, at an executor whose user answers no. *)
Lemma execute_denied_witness :
  fst (execute Sample.env (JStr "files__delete_file") Sample.delete_args "alice"
         (Sample.boot, Sample.refusing))
  = Returned (JObj [("success", JBool false);
                    ("result", JNull);
                    ("error", JStr "Action cancelled by user");
                    ("tool_name", JStr "files__delete_file");
                    ("cancelled", JBool true)]).
Proof.
  refine (proj1 (execute_denied Sample.env Sample.boot Sample.refusing
                   "files__delete_file" Sample.delete_file Sample.delete_args "alice"
                   (fun _ _ => Returned false) _
                   (log_confirmation
                      (confirmation_prompt Sample.env (JStr "files__delete_file")
                         [("path", JStr "a.txt")]) Sample.boot)
                   Sample.refusing _ _ _ _ _)); try reflexivity.
  eexists. split; reflexivity.
Defined.

Example audit_log_after_two_calls :
  get_audit_log (mkExecutor Sample.registry true None [JStr "first"; JStr "second"]) 0
  = [JStr "first"; JStr "second"]
  /\ get_audit_log (mkExecutor Sample.registry true None [JStr "first"; JStr "second"]) 1
     = [JStr "second"].
Proof. split; reflexivity. Qed.
End ExecutorRuns.

(* ===================================================================== *)
(** * The agent loop *)
(* ===================================================================== *)

Section AgentProps.
Import Executor Agent.
Context (env : environment) (engine : Memory.fts5).

Lemma quiet_store c u t : quiet (Memory.store env c u t).
Proof. unfold Memory.store. quiet. Qed.

Lemma quiet_touch i : quiet (Memory._touch env i).
Proof. unfold Memory._touch. quiet. Qed.

Lemma quiet_search q u l t : quiet (Memory.search env engine q u l t).
Proof. unfold Memory.search, Memory._get_recent. quiet. apply quiet_touch. Qed.

Lemma quiet_append_message r c m : quiet (append_message env r c m).
Proof. unfold append_message. quiet. Qed.

Lemma quiet_run_tool_call uid tc : quiet (run_tool_call env uid tc).
Proof.
  unfold run_tool_call, in_executor. quiet; try apply quiet_append_message.
  apply quiet_execute.
Qed.

Lemma quiet_run_tool_calls uid tcs acts : quiet (run_tool_calls env uid tcs acts).
Proof.
  revert acts. induction tcs as [|tc tcs IH]; intros acts; simpl; [apply quiet_ret|].
  apply quiet_bind; [apply quiet_run_tool_call|intros; apply IH].
Qed.

Lemma quiet_run_requested uid v acts : quiet (run_requested env uid v acts).
Proof. unfold run_requested. quiet; apply quiet_run_tool_calls. Qed.

Lemma quiet_should_compact : quiet _should_compact.
Proof. unfold _should_compact. quiet. Qed.

Section Counting.
Context (p : request -> bool) (ct cs : nat).
Context (Hct : forall sp ms, ((if p (ToolCompletion sp ms) then 1 else 0) <= ct)%nat).
Context (Hcs : forall s, ((if p (SimpleCompletion s) then 1 else 0) <= cs)%nat).

Lemma sends_call_llm sp : sends_at_most p (_call_llm env sp) ct.
Proof.
  unfold _call_llm. apply sends_bind_r; [quiet|intros a].
  eapply sends_weaken; [apply Hct|apply sends_complete].
Qed.

Lemma sends_call_llm_simple s : sends_at_most p (_call_llm_simple env s) cs.
Proof.
  unfold _call_llm_simple. eapply sends_weaken; [apply Hcs|apply sends_complete].
Qed.

Lemma sends_compact_context uid : sends_at_most p (_compact_context env uid) cs.
Proof.
  unfold _compact_context. apply sends_bind_r; [quiet|intros a].
  destruct (_ <=? _)%nat; [apply sends_quiet; quiet|].
  apply sends_bind_l; [apply sends_call_llm_simple|intros s].
  unfold in_memory. quiet. apply quiet_store.
Qed.

Lemma sends_maybe_memorize ui r uid : sends_at_most p (_maybe_memorize env ui r uid) cs.
Proof.
  unfold _maybe_memorize. apply sends_try; [|intros; quiet].
  apply sends_bind_l; [apply sends_call_llm_simple|intros s].
  unfold in_memory. quiet. apply quiet_store.
Qed.

Lemma sends_prepare ui uid : sends_at_most p (prepare env engine ui uid) cs.
Proof.
  unfold prepare, in_memory.
  apply sends_bind_r; [quiet; apply quiet_search|intros ms].
  apply sends_bind_r; [quiet|intros a].
  apply sends_bind_r; [quiet|intros t1].
  apply sends_bind_r; [quiet|intros t2].
  apply sends_bind_r; [apply quiet_append_message|intros _].
  apply sends_bind_r; [apply quiet_should_compact|intros c].
  apply sends_bind_l; [|intros; quiet].
  destruct c; [apply sends_compact_context|apply sends_quiet; quiet].
Qed.

Lemma sends_react_loop n sp uid acts :
  sends_at_most p (react_loop env n sp uid acts) (n * ct).
Proof.
  revert acts. induction n as [|n IH]; intros acts; simpl.
  - apply sends_quiet. quiet.
  - apply sends_bind; [apply sends_call_llm|intros raw].
    apply sends_bind_r; [quiet|intros tcs].
    destruct (negb _); [apply sends_quiet; quiet|].
    apply sends_bind_r; [apply quiet_run_requested|intros acts']. apply IH.
Qed.

Lemma sends_conclude ui uid ms fr acts :
  sends_at_most p (conclude env ui uid ms fr acts) cs.
Proof.
  unfold conclude.
  apply sends_bind_r; [apply quiet_append_message|intros _].
  apply sends_bind_l; [apply sends_maybe_memorize|intros; quiet].
Qed.

Lemma sends_process_message ui uid :
  sends_at_most p (process_message env engine ui uid) (cs + MAX_ITERATIONS * ct + cs).
Proof.
  unfold process_message. apply sends_bind_r; [quiet|intros a].
  destruct (negb _); [apply sends_quiet; quiet|].
  rewrite <- Nat.add_assoc.
  apply sends_bind; [apply sends_prepare|intros prepared].
  apply sends_bind; [apply sends_react_loop|intros looped].
  apply sends_conclude.
Qed.
End Counting.

(** Counting every request, the summary of a compaction and the memorize
    check included, one turn sends at most seventeen. *)
Lemma process_message_sends_at_most_17 ui uid w :
  (length (completions (fst (snd (process_message env engine ui uid w))))
   <= length (completions (fst w)) + 17)%nat.
Proof.
  pose proof (sends_process_message (fun _ => true) 1 1) as H.
  unfold sends_at_most, requests in H.
  assert (Hall : forall l : list request, List.filter (fun _ => true) l = l).
  { induction l; simpl; congruence. }
  specialize (H ltac:(intros; simpl; lia) ltac:(intros; simpl; lia) ui uid w).
  rewrite !Hall in H. simpl in H. lia.
Qed.

Lemma extract_none :
  _extract_tool_calls env None
  = Raised (Exn TypeError "the JSON object must be str, bytes or bytearray, not NoneType").
Proof. reflexivity. Qed.

(** Text that the decoder rejects as not being JSON requests no calls. *)
Lemma extract_not_json s e :
  json_loads env s = Raised e -> exn_cls e = JSONDecodeError ->
  _extract_tool_calls env (Some s) = Returned (JArr []).
Proof.
  intros H Hcls. unfold _extract_tool_calls, loads. rewrite H.
  destruct e as [cls msg]. simpl in Hcls. subst cls. reflexivity.
Qed.

(** Nor does JSON text that is not an object. *)
Lemma extract_not_object s v :
  json_loads env s = Returned v -> (forall fields, v <> JObj fields) ->
  _extract_tool_calls env (Some s) = Returned (JArr []).
Proof.
  intros H Hv. unfold _extract_tool_calls, loads. rewrite H.
  destruct v; try reflexivity. by destruct (Hv fields).
Qed.

Lemma extract_object s fields :
  json_loads env s = Returned (JObj fields) ->
  _extract_tool_calls env (Some s)
  = Returned (default (JArr []) (assoc_get "tool_calls" fields)).
Proof. intros H. unfold _extract_tool_calls, loads. by rewrite H. Qed.

(** An exception of the decoder that the [except] clause does not name
    leaves [_extract_tool_calls]. *)
Lemma extract_uncaught s e :
  json_loads env s = Raised e ->
  exn_cls e <> JSONDecodeError -> exn_cls e <> AttributeError ->
  _extract_tool_calls env (Some s) = Raised e.
Proof.
  intros H H1 H2. unfold _extract_tool_calls, loads. rewrite H.
  destruct e as [cls msg]. simpl in H1, H2. by destruct cls.
Qed.

(** An iteration of the loop in which [_extract_tool_calls] raises ends
    the loop with that exception, after the request was sent. *)
Lemma react_loop_extraction_fails n sp uid acts w raw e :
  completion env (length (completions (fst w)))
    (ToolCompletion sp (_history_to_messages (snd w))) = Returned raw ->
  _extract_tool_calls env raw = Raised e ->
  react_loop env (S n) sp uid acts w
  = (Raised e,
     (log_completion (ToolCompletion sp (_history_to_messages (snd w))) (fst w), snd w)).
Proof.
  intros Hc He. simpl. unfold bind at 1. unfold _call_llm, bind at 1, get_state.
  rewrite complete_spec. cbn [fst snd]. rewrite Hc.
  unfold bind, lift_outcome. rewrite He. reflexivity.
Qed.

Lemma react_loop_final n sp uid acts w s :
  completion env (length (completions (fst w)))
    (ToolCompletion sp (_history_to_messages (snd w))) = Returned (Some s) ->
  _extract_tool_calls env (Some s) = Returned (JArr []) ->
  react_loop env (S n) sp uid acts w
  = (Returned (Some s, acts),
     (log_completion (ToolCompletion sp (_history_to_messages (snd w))) (fst w), snd w)).
Proof.
  intros Hc He. simpl. unfold bind at 1. unfold _call_llm, bind at 1, get_state.
  rewrite complete_spec. cbn [fst snd]. rewrite Hc.
  unfold bind, lift_outcome. rewrite He. reflexivity.
Qed.

Lemma maybe_memorize_returns ui r uid w :
  exists w', _maybe_memorize env ui r uid w = (Returned tt, w').
Proof.
  unfold _maybe_memorize, try_except.
  match goal with |- context [match ?b w with _ => _ end] => destruct (b w) as [[[]|e] w'] end;
    unfold ret; eauto.
Qed.

Lemma conclude_returns ui uid ms fr acts w :
  exists w',
    conclude env ui uid ms fr acts w
    = (Returned (mkResponse
                   (match fr with
                    | Some s => if String.eqb s "" then apology else s
                    | None => apology
                    end)
                   acts (map (fun m => prefix 60 (Memory.content m)) ms) None), w').
Proof.
  unfold conclude. unfold bind at 1. unfold append_message at 1.
  unfold now, bind at 1, get_host, modify_host, modify, ret. cbn [fst snd].
  unfold bind.
  match goal with |- context [_maybe_memorize env ?a ?b ?c ?w0] =>
    destruct (maybe_memorize_returns a b c w0) as [w' ->] end.
  eauto.
Qed.

(** The loop ends without a final response only by running out of
    iterations, each of which sent one request. *)
Lemma react_loop_exhausted n sp uid acts w acts' w' :
  react_loop env n sp uid acts w = (Returned (None, acts'), w') ->
  tool_completions (fst w') = (tool_completions (fst w) + n)%nat.
Proof.
  revert acts w. induction n as [|n IH]; intros acts w; simpl.
  - unfold ret. intros [= <- <-]. lia.
  - unfold bind at 1. unfold _call_llm, bind at 1, get_state. rewrite complete_spec.
    cbn [fst snd].
    destruct (completion env _ _) as [raw|e]; [|done].
    unfold bind at 1, lift_outcome.
    destruct (_extract_tool_calls env raw) as [tcs|e] eqn:He; [|done].
    destruct (negb (truthy tcs)).
    + unfold ret. intros [= -> <- <-]. by rewrite extract_none in He.
    + unfold bind at 1.
      pose proof (quiet_run_requested uid tcs acts
        (log_completion (ToolCompletion sp (_history_to_messages w.2)) w.1, w.2)) as Hq.
      destruct (run_requested env uid tcs acts _) as [[acts1|e] w1]; [|done].
      intros Hloop. apply IH in Hloop. rewrite Hloop. cbn [fst snd] in Hq.
      unfold tool_completions, requests. rewrite Hq.
      pose proof (requests_log_completion is_tool_completion
                    (ToolCompletion sp (_history_to_messages w.2)) w.1) as Hr.
      unfold requests in Hr. rewrite Hr. simpl. lia.
Qed.

(** C4 as amended: [process_message] is a total function of its inputs
    and of the backend, and one call sends at most [MAX_ITERATIONS] = 15
    tool-enabled requests, those of [_call_llm] in the loop, and at most
    2 requests without tools, those of [_call_llm_simple], so at most 17
    requests in all, whatever the backend answers.  When the loop uses
    up its iterations without a final response, all fifteen tool-enabled
    requests were sent and the call returns, without raising, a response
    whose text is the fixed apology. *)
Theorem process_message_is_bounded ui uid w :
  (tool_completions (fst (snd (process_message env engine ui uid w)))
   <= tool_completions (fst w) + 15)%nat
  /\ (requests (fun r => negb (is_tool_completion r))
        (fst (snd (process_message env engine ui uid w)))
      <= requests (fun r => negb (is_tool_completion r)) (fst w) + 2)%nat
  /\ (length (completions (fst (snd (process_message env engine ui uid w))))
      <= length (completions (fst w)) + 17)%nat
  /\ (forall prepared w1 acts w2,
        _initialized (snd w) = true ->
        prepare env engine ui uid w = (Returned prepared, w1) ->
        react_loop env MAX_ITERATIONS (snd prepared) uid [] w1 = (Returned (None, acts), w2) ->
        tool_completions (fst w2) = (tool_completions (fst w1) + 15)%nat
        /\ exists w3,
             process_message env engine ui uid w
             = (Returned
                  (mkResponse "I ran into trouble completing that task. Please try again."
                     acts (map (fun m => prefix 60 (Memory.content m)) (fst prepared)) None),
                w3)).
Proof.
  split; [|split; [|split]].
  - pose proof (sends_process_message is_tool_completion 1 0) as H.
    unfold sends_at_most in H. unfold tool_completions.
    etransitivity; [apply H|].
    + intros; simpl; lia.
    + intros; simpl; lia.
    + unfold MAX_ITERATIONS. lia.
  - pose proof (sends_process_message (fun r => negb (is_tool_completion r)) 0 1) as H.
    unfold sends_at_most in H.
    etransitivity; [apply H|].
    + intros; simpl; lia.
    + intros; simpl; lia.
    + unfold MAX_ITERATIONS. lia.
  - apply process_message_sends_at_most_17.
  - intros prepared w1 acts w2 Hinit Hprep Hloop. split.
    + apply (react_loop_exhausted _ _ _ _ _ _ _ Hloop).
    + unfold process_message, bind at 1, get_state. rewrite Hinit.
      change (negb true) with false. cbv iota.
      unfold bind at 1. rewrite Hprep. unfold bind at 1. rewrite Hloop.
      cbn [fst snd]. apply conclude_returns.
Qed.

(** C5: [_compact_context] leaves a transcript of ten or fewer entries,
    and everything else, as it is.  On a longer transcript, when the
    summarising request is answered with a text, the last ten entries
    stay as they are and in their order, the entries before them are
    replaced by one assistant entry holding the summary, put in front,
    and a memory with the summary as content and the single tag
    [context_summary] is added for the user. *)
Theorem compaction_keeps_last_ten uid h a :
  ((length (conversation_history a) <= 10)%nat ->
   _compact_context env uid (h, a) = (Returned tt, (h, a)))
  /\ (forall summary,
      (10 < length (conversation_history a))%nat ->
      completion env (length (completions h))
        (SimpleCompletion (summary_prompt (slice_to (conversation_history a) (-10))))
      = Returned (Some summary) ->
      exists h' a' older recent t t',
        _compact_context env uid (h, a) = (Returned tt, (h', a'))
        /\ conversation_history a = older ++ recent
        /\ length recent = 10%nat
        /\ conversation_history a'
           = mkMessage "assistant" ("[Context summary]: " +:+ summary) t (JObj []) :: recent
        /\ Memory.memories (memory a')
           = Memory.memories (memory a)
             ++ [Memory.mkMemory (Memory.sqlite_sequence (memory a) + 1) summary uid
                   ["context_summary"] t' t' 0]).
Proof.
  split.
  - intros Hlen. unfold _compact_context, bind, get_state, ret. simpl.
    destruct (Nat.leb_spec (length (conversation_history a)) 10); [done|lia].
  - intros summary Hlen Hsum.
    exists (tick (tick (log_completion
              (SimpleCompletion (summary_prompt (slice_to (conversation_history a) (-10)))) h))).
    eexists. exists (slice_to (conversation_history a) (-10)),
      (slice_from (conversation_history a) (-10)).
    eexists. eexists.
    split; [|split; [|split; [|split]]].
    + unfold _compact_context, bind, get_state, ret. simpl.
      destruct (Nat.leb_spec (length (conversation_history a)) 10); [lia|].
      cbn [fst snd]. rewrite Hsum. reflexivity.
    + symmetry. apply slice_split.
    + apply (length_slice_from_neg _ 10). lia.
    + reflexivity.
    + reflexivity.
Qed.

(** C8: on the absent response, which [_call_llm] passes on when the
    message of the backend has no content, [json.loads] raises
    [TypeError]; the [except] clause of [_extract_tool_calls] names
    [JSONDecodeError] and [AttributeError] only, so the exception leaves
    it, and the iteration of the loop that received the response ends
    the loop with that exception, where the claim has the response
    treated as the final answer.  The same holds of a string on which
    the decoder raises an exception of another class than those two. *)
Theorem absent_response_fails_the_turn :
  _extract_tool_calls env None
  = Raised (Exn TypeError "the JSON object must be str, bytes or bytearray, not NoneType")
  /\ (forall n sp uid acts w,
        completion env (length (completions (fst w)))
          (ToolCompletion sp (_history_to_messages (snd w))) = Returned None ->
        fst (react_loop env (S n) sp uid acts w)
        = Raised (Exn TypeError
                    "the JSON object must be str, bytes or bytearray, not NoneType"))
  /\ (forall s e,
        json_loads env s = Raised e ->
        exn_cls e <> JSONDecodeError -> exn_cls e <> AttributeError ->
        _extract_tool_calls env (Some s) = Raised e
        /\ forall n sp uid acts w,
             completion env (length (completions (fst w)))
               (ToolCompletion sp (_history_to_messages (snd w))) = Returned (Some s) ->
             fst (react_loop env (S n) sp uid acts w) = Raised e).
Proof.
  split; [reflexivity|]. split.
  - intros n sp uid acts w Hc.
    by rewrite (react_loop_extraction_fails n sp uid acts w None _ Hc extract_none).
  - intros s e Hl H1 H2. split; [by apply extract_uncaught|].
    intros n sp uid acts w Hc.
    rewrite (react_loop_extraction_fails n sp uid acts w (Some s) e Hc); [done|].
    by apply extract_uncaught.
Qed.
End AgentProps.

Section AgentRuns.
Import Executor Agent.

(** Scenario A of the specification: a plain answer ends the turn in
    one iteration. *)
Example plain_answer :
  fst (process_message Sample.helpful_env Sample.engine "what is 2+2" "alice"
         (Sample.boot, Sample.fresh_agent))
  = Returned (mkResponse "4" [] [] None).
Proof. reflexivity. Qed.

(** Scenario B of the specification: the user refuses the deletion; the
    tool is not called, the refusal is put into the transcript, and the
    next response ends the turn after two requests. *)
Example refused_deletion :
  fst (process_message Sample.asking_once_env Sample.engine "delete the old file" "alice"
         (Sample.boot, Sample.refused_agent))
  = Returned (mkResponse "The file was not deleted." ["files__delete_file: <str>"] [] None)
  /\ invocations (fst (snd (process_message Sample.asking_once_env Sample.engine
                              "delete the old file" "alice" (Sample.boot, Sample.refused_agent))))
     = []
  /\ map role (conversation_history (snd (snd
        (process_message Sample.asking_once_env Sample.engine
           "delete the old file" "alice" (Sample.boot, Sample.refused_agent)))))
     = ["user"; "assistant"; "tool_result"; "assistant"]
  /\ tool_completions (fst (snd (process_message Sample.asking_once_env Sample.engine
                              "delete the old file" "alice" (Sample.boot, Sample.refused_agent))))
     = 2%nat.
Proof. repeat split. Qed.

(** C4: with a backend that asks for a tool call on every response, one
    turn sends sixteen requests, the fifteen of the loop and the memory
    check, and returns. *)
Lemma process_message_sends_sixteen_requests :
  completions Sample.boot = []
  /\ length (completions
               (fst (snd (process_message Sample.insistent_env Sample.engine
                            "delete the old file" "alice"
                            (Sample.boot, Sample.fresh_agent))))) = 16%nat
  /\ exists acts,
       fst (process_message Sample.insistent_env Sample.engine "delete the old file" "alice"
              (Sample.boot, Sample.fresh_agent))
       = Returned
           (mkResponse "I ran into trouble completing that task. Please try again."
              acts [] None).
Proof.
  split; [reflexivity|]. split; [by vm_compute|].
  eexists. vm_compute. reflexivity.
Qed.

(** C4 as amended, with the same backend. *)
Lemma process_message_is_bounded_witness :
  (tool_completions
     (fst (snd (process_message Sample.insistent_env Sample.engine
                  "delete the old file" "alice"
                  (Sample.boot, Sample.fresh_agent)))) <= 0 + 15)%nat
  /\ (length (completions
                (fst (snd (process_message Sample.insistent_env Sample.engine
                             "delete the old file" "alice"
                             (Sample.boot, Sample.fresh_agent))))) <= 0 + 17)%nat
  /\ exists acts w3,
       process_message Sample.insistent_env Sample.engine "delete the old file" "alice"
         (Sample.boot, Sample.fresh_agent)
       = (Returned
            (mkResponse "I ran into trouble completing that task. Please try again."
               acts [] None), w3).
Proof.
  destruct (process_message_is_bounded Sample.insistent_env Sample.engine
              "delete the old file" "alice" (Sample.boot, Sample.fresh_agent))
    as (Htools & _ & Hall & Hexhausted).
  split; [exact Htools|]. split; [exact Hall|].
  eexists.
  refine (proj2 (Hexhausted ([], _) _ _ _ _ _ _)).
  - reflexivity.
  - vm_compute. reflexivity.
  - vm_compute. reflexivity.
Defined.

(** C5, on a transcript of twelve entries. *)
Lemma compaction_keeps_last_ten_witness :
  exists h' a' t,
    _compact_context Sample.helpful_env "alice" (Sample.boot, Sample.busy_agent)
    = (Returned tt, (h', a'))
    /\ conversation_history a'
       = mkMessage "assistant" "[Context summary]: They talked about tea." t (JObj [])
         :: Sample.recent_entries.
Proof.
  destruct (proj2 (compaction_keeps_last_ten Sample.helpful_env "alice"
                     Sample.boot Sample.busy_agent) "They talked about tea.")
    as (h' & a' & older & recent & t & t' & Hrun & Hsplit & Hlen & Hhist & Hmem).
  - vm_compute. lia.
  - reflexivity.
  - exists h', a', t. split; [exact Hrun|].
    rewrite Hhist. f_equal.
    change (conversation_history Sample.busy_agent)
      with (Sample.old_entries ++ Sample.recent_entries) in Hsplit.
    apply (f_equal (drop (length older))) in Hsplit as Hdrop.
    rewrite drop_app_length in Hdrop. rewrite <- Hdrop.
    assert (length older = 2%nat) as ->.
    { apply (f_equal length) in Hsplit. rewrite !length_app, Hlen in Hsplit.
      simpl in Hsplit. lia. }
    reflexivity.
Defined.

(** C8, with a backend whose message has no content: the turn raises
    where the claim has it answer, and nothing is added to the
    transcript after the user message. *)
Lemma absent_response_fails_the_turn_witness :
  fst (react_loop Scenario.absent_env 15 "MAX" "alice" [] (Sample.boot, Sample.fresh_agent))
  = Raised (Exn TypeError "the JSON object must be str, bytes or bytearray, not NoneType")
  /\ fst (process_message Scenario.absent_env Sample.engine "what is 2+2" "alice"
            (Sample.boot, Sample.fresh_agent))
     = Raised (Exn TypeError "the JSON object must be str, bytes or bytearray, not NoneType")
  /\ _extract_tool_calls Scenario.absent_env (Some Scenario.many_digits)
     = Raised (Exn ValueError "Exceeds the limit (4300 digits) for integer string conversion").
Proof.
  destruct (absent_response_fails_the_turn Scenario.absent_env) as (_ & Hnone & Hother).
  split; [|split].
  - apply (Hnone 14%nat "MAX" "alice" [] (Sample.boot, Sample.fresh_agent)). reflexivity.
  - reflexivity.
  - apply (Hother Scenario.many_digits); [by vm_compute|discriminate|discriminate].
Defined.

Example extract_requested_call :
  _extract_tool_calls Sample.helpful_env (Some Sample.delete_request_text)
  = Returned (JArr [JObj [("name", JStr "files__delete_file");
                          ("arguments", Sample.delete_args)]]).
Proof. reflexivity. Qed.
End AgentRuns.

(* ===================================================================== *)
(** * The memory store: what its operations keep and change *)
(* ===================================================================== *)


Section MemoryMore.
Import Memory MemoryInv.
Context (env : environment) (engine : fts5).

Lemma touch_one_fixed t i m : fixed_columns (touch_one t i m) = fixed_columns m.
Proof. unfold touch_one. by destruct (bool_decide _). Qed.

Lemma touch_one_count t i m : access_count m <= access_count (touch_one t i m).
Proof. unfold touch_one. destruct (bool_decide _); simpl; lia. Qed.

Lemma touch_rows_fixed n ids rows :
  map fixed_columns (touch_rows env n ids rows) = map fixed_columns rows.
Proof.
  revert n rows. induction ids as [|i ids IH]; intros n rows; simpl; [done|].
  rewrite IH, map_map. apply map_ext. intros m. apply touch_one_fixed.
Qed.

Lemma fixed_id rows rows' :
  map fixed_columns rows' = map fixed_columns rows -> map id rows' = map id rows.
Proof.
  intros H. apply (f_equal (map (fun c : Z * string * string * list string * Z => c.1.1.1.1))) in H.
  by rewrite !map_map in H.
Qed.

Lemma fixed_indexed rows rows' :
  map fixed_columns rows' = map fixed_columns rows -> map indexed rows' = map indexed rows.
Proof.
  intros H.
  apply (f_equal (map (fun c : Z * string * string * list string * Z =>
                         (c.1.1.1.1, c.1.1.1.2, c.1.1.2)))) in H.
  by rewrite !map_map in H.
Qed.

Lemma Forall_fixed_id (P : Z -> Prop) rows rows' :
  map fixed_columns rows' = map fixed_columns rows ->
  Forall (fun m => P (id m)) rows -> Forall (fun m => P (id m)) rows'.
Proof.
  intros H%fixed_id Hall.
  apply Forall_forall. intros m Hm.
  assert (Hin : In (id m) (map id rows)).
  { rewrite <- H. by apply in_map, list_elem_of_In. }
  apply in_map_iff in Hin as (m' & <- & Hm').
  rewrite Forall_forall in Hall. by apply Hall, list_elem_of_In.
Qed.

Lemma well_formed_touched n ids db :
  well_formed db ->
  well_formed (mkStore (touch_rows env n ids (memories db))
                       (memories_fts db) (sqlite_sequence db)).
Proof.
  intros [H1 H2 H3]. pose proof (touch_rows_fixed n ids (memories db)) as Hf.
  split; simpl.
  - by rewrite (fixed_id _ _ Hf).
  - by apply (Forall_fixed_id (fun i => i <= sqlite_sequence db) _ _ Hf).
  - by rewrite (fixed_indexed _ _ Hf).
Qed.

(** What [search] leaves behind, whichever way it ends. *)
Lemma search_final_store query uid limit tags h db :
  snd (snd (search env engine query uid limit tags (h, db))) = db
  \/ exists n ids,
       snd (snd (search env engine query uid limit tags (h, db)))
       = mkStore (touch_rows env n ids (memories db)) (memories_fts db) (sqlite_sequence db).
Proof.
  destruct (le_lt_dec 3 (String.length (strip query))) as [Hlen|Hlen].
  - destruct (select_fts engine query uid limit db) as [rows|e] eqn:Hsel.
    + right. rewrite (search_long _ _ _ _ _ _ _ _ rows) by done. simpl. eauto.
    + left. by rewrite (search_syntax_error _ _ _ _ _ _ _ _ e).
  - left. by rewrite search_short.
Qed.

Lemma well_formed_empty : well_formed (mkStore [] [] 0).
Proof. split; simpl; [constructor|constructor|done]. Qed.

Lemma well_formed_store content uid tags h db :
  well_formed db -> well_formed (snd (snd (store env content uid tags (h, db)))).
Proof.
  intros [H1 H2 H3]. split; simpl.
  - rewrite map_app. simpl. apply NoDup_app. split; [done|]. split; [|apply NoDup_singleton].
    intros x Hx ->%list_elem_of_singleton.
    apply list_elem_of_In, in_map_iff in Hx as (m & Hm & Hin).
    rewrite Forall_forall in H2. apply list_elem_of_In, H2 in Hin. lia.
  - apply Forall_app. split; [|by repeat constructor].
    eapply Forall_impl; [exact H2|]. simpl. intros; lia.
  - rewrite !map_app, H3. reflexivity.
Qed.

Lemma filter_map_indexed (memory_id : Z) (fs : list fts_row) (ms : list Memory) :
  map index_entry fs = map indexed ms ->
  map index_entry (filter (fun f => rowid f ≠ memory_id) fs)
  = map indexed (filter (fun m => id m ≠ memory_id) ms).
Proof.
  revert ms. induction fs as [|f fs IH]; intros [|m ms]; simpl; try done.
  intros [= Hid Hc Hu Hrest].
  rewrite !filter_cons. rewrite Hid.
  destruct (decide (id m ≠ memory_id)); simpl; [|by apply IH].
  unfold index_entry at 1, indexed at 1. rewrite Hid, Hc, Hu. f_equal. by apply IH.
Qed.

Lemma well_formed_delete memory_id h db :
  well_formed db -> well_formed (snd (snd (delete memory_id (h, db)))).
Proof.
  intros [H1 H2 H3]. split; simpl.
  - eapply sublist_NoDup; [exact H1|].
    change (map id ?l) with (id <$> l). apply fmap_sublist, sublist_filter.
  - apply Forall_forall. intros m [_ Hm]%list_elem_of_filter.
    rewrite Forall_forall in H2. by apply H2.
  - by apply filter_map_indexed.
Qed.

Lemma well_formed_touch memory_id h db :
  well_formed db -> well_formed (snd (snd (_touch env memory_id (h, db)))).
Proof. intros H. apply (well_formed_touched (clock_reads h) [memory_id] db H). Qed.

Lemma well_formed_search query uid limit tags h db :
  well_formed db ->
  well_formed (snd (snd (search env engine query uid limit tags (h, db)))).
Proof.
  intros H.
  destruct (search_final_store query uid limit tags h db) as [->|(n & ids & ->)]; [done|].
  by apply well_formed_touched.
Qed.

Lemma rowids_are_ids db :
  well_formed db -> map rowid (memories_fts db) = map id (memories db).
Proof.
  intros [_ _ H].
  apply (f_equal (map (fun c : Z * string * string => c.1.1))) in H.
  by rewrite !map_map in H.
Qed.

Lemma touch_rows_monotone n ids rows :
  Forall2 (fun m m' => fixed_columns m' = fixed_columns m
                       /\ access_count m <= access_count m')
          rows (touch_rows env n ids rows).
Proof.
  revert n rows. induction ids as [|i ids IH]; intros n rows; simpl.
  - apply Forall2_same_length_lookup_2; [done|]. intros k m m' H1 H2.
    assert (m = m') as -> by congruence. split; [done|lia].
  - specialize (IH (S n) (map (touch_one (utcnow env n) i) rows)).
    assert (Hstep : Forall2 (fun m m' => fixed_columns m' = fixed_columns m
                                         /\ access_count m <= access_count m')
                      rows (map (touch_one (utcnow env n) i) rows)).
    { clear IH. induction rows as [|m rows IHr]; simpl; constructor; [|done].
      split; [apply touch_one_fixed|apply touch_one_count]. }
    eapply Forall2_trans; [|exact Hstep|exact IH].
    intros x y z [Hxy1 Hxy2] [Hyz1 Hyz2]. split; [congruence|lia].
Qed.

(** X1: whichever way it ends, [search] adds, removes and reorders no
    row of [memories]: row by row the id, content, user, tags and
    creation time are the same and [access_count] has not gone down; the
    full-text index and the AUTOINCREMENT counter are untouched. *)
Theorem search_only_raises_access_stats query uid limit tags h db :
  Forall2 (fun m m' => fixed_columns m' = fixed_columns m
                       /\ access_count m <= access_count m')
          (memories db)
          (memories (snd (snd (search env engine query uid limit tags (h, db)))))
  /\ memories_fts (snd (snd (search env engine query uid limit tags (h, db))))
     = memories_fts db
  /\ sqlite_sequence (snd (snd (search env engine query uid limit tags (h, db))))
     = sqlite_sequence db.
Proof.
  destruct (search_final_store query uid limit tags h db) as [->|(n & ids & ->)]; simpl.
  - split; [|done]. apply (touch_rows_monotone 0 []).
  - split; [|done]. apply touch_rows_monotone.
Qed.

Lemma length_sql_limit {A} (n : Z) (l : list A) :
  0 <= n -> Z.of_nat (length (sql_limit n l)) <= n.
Proof.
  intros H. unfold sql_limit. destruct (Z.ltb_spec n 0); [lia|].
  rewrite length_take. lia.
Qed.

Lemma length_filter_tags tags (l : list Memory) :
  (length (filter_tags tags l) <= length l)%nat.
Proof. apply sublist_length, filter_tags_sublist. Qed.

(** X2: with a [limit] that is not negative, [search] returns at most
    [limit] memories, on the full-text path and on the recency path. *)
Theorem search_respects_limit query uid limit tags h db ms w' :
  0 <= limit ->
  search env engine query uid limit tags (h, db) = (Returned ms, w') ->
  Z.of_nat (length ms) <= limit.
Proof.
  intros Hl Hs.
  destruct (le_lt_dec 3 (String.length (strip query))) as [Hlen|Hlen].
  - destruct (select_fts engine query uid limit db) as [rows|e] eqn:Hsel.
    + rewrite (search_long _ _ _ _ _ _ _ _ rows) in Hs by done. injection Hs as <- <-.
      pose proof (length_filter_tags tags rows).
      unfold select_fts in Hsel. destruct (fts_match engine query); [|done].
      injection Hsel as <-. rewrite length_map in *.
      pose proof (length_sql_limit limit
        (order_by (fun r => fts_rank engine query (memories_fts db) r.1)
           (fts_join b uid db)) Hl). lia.
    + by rewrite (search_syntax_error _ _ _ _ _ _ _ _ e) in Hs.
  - rewrite search_short, get_recent_spec in Hs by done. injection Hs as <- <-.
    by apply length_sql_limit.
Qed.

#[local] Instance key_ge_total {A} (key : A -> Z) : Total (key_ge key).
Proof. intros x y. unfold key_ge. lia. Qed.
#[local] Instance key_ge_trans {A} (key : A -> Z) : Transitive (key_ge key).
Proof. intros x y z. unfold key_ge. lia. Qed.
#[local] Instance key_le_total {A} (key : A -> Z) : Total (key_le key).
Proof. intros x y. unfold key_le. lia. Qed.
#[local] Instance key_le_trans {A} (key : A -> Z) : Transitive (key_le key).
Proof. intros x y z. unfold key_le. lia. Qed.

Lemma order_by_desc_sorted {A} (key : A -> Z) (l : list A) :
  StronglySorted (key_ge key) (order_by_desc key l).
Proof. unfold order_by_desc. apply StronglySorted_merge_sort; apply _. Qed.

Lemma order_by_sorted {A} (key : A -> Z) (l : list A) :
  StronglySorted (key_le key) (order_by key l).
Proof. unfold order_by. apply StronglySorted_merge_sort; apply _. Qed.

(** X3: [get_all] returns the memories of the user and no others, each
    as often as it is stored, the most recently created first, and
    changes nothing. *)
Theorem get_all_lists_the_users_memories uid h db :
  exists ms,
    get_all uid (h, db) = (Returned ms, (h, db))
    /\ ms ≡ₚ filter (fun m => user_id m = uid) (memories db)
    /\ StronglySorted (fun m m' => created_at m' <= created_at m) ms.
Proof.
  eexists. split; [reflexivity|]. split.
  - unfold order_by_desc. apply merge_sort_Permutation.
  - apply order_by_desc_sorted.
Qed.

Lemma sql_limit_split {A} (n : Z) (l : list A) :
  exists rest, l = sql_limit n l ++ rest.
Proof.
  unfold sql_limit. destruct (n <? 0).
  - exists []. by rewrite app_nil_r.
  - exists (drop (Z.to_nat n) l). by rewrite take_drop.
Qed.


Lemma store_spec content uid tags h db :
  store env content uid tags (h, db)
  = (Returned (sqlite_sequence db + 1),
     (tick h,
      mkStore
        (memories db
         ++ [mkMemory (sqlite_sequence db + 1) content uid (default [] tags)
               (utcnow env (clock_reads h)) (utcnow env (clock_reads h)) 0])
        (memories_fts db ++ [mkFts (sqlite_sequence db + 1) content uid])
        (sqlite_sequence db + 1))).
Proof. reflexivity. Qed.

(** X5: [store] returns the next id of the AUTOINCREMENT counter, reads
    the clock once, and the memory it inserts (no tags when [tags] is
    [None], both time stamps the time read, no access yet) is in what
    [get_all] then gives for that user; what [get_all] gives for any
    other user is the same as before. *)
Theorem stored_memory_is_listed content uid tags h db h' :
  exists db' ms,
    store env content uid tags (h, db) = (Returned (sqlite_sequence db + 1), (tick h, db'))
    /\ get_all uid (h', db') = (Returned ms, (h', db'))
    /\ mkMemory (sqlite_sequence db + 1) content uid (default [] tags)
         (utcnow env (clock_reads h)) (utcnow env (clock_reads h)) 0 ∈ ms
    /\ (forall other, other <> uid ->
          fst (get_all other (h', db')) = fst (get_all other (h', db))).
Proof.
  rewrite store_spec. eexists _, _. split; [reflexivity|]. split; [reflexivity|]. split.
  - apply elem_of_order_by_desc, list_elem_of_filter. split; [done|].
    simpl. apply elem_of_app. right. apply list_elem_of_here.
  - intros other Hne. unfold get_all, bind, get_state, ret. simpl.
    rewrite filter_app, filter_cons_False by (simpl; congruence).
    by rewrite filter_nil, app_nil_r.
Qed.

(** X6: in a consistent database an id is never handed out twice: after
    [delete] of an id handed out before, [store] returns an id above the
    deleted one and above every id the table held. *)
Theorem store_never_reuses_an_id content uid tags db :
  well_formed db ->
  forall deleted h1,
    deleted <= sqlite_sequence db ->
    exists new_id w,
      store env content uid tags (snd (delete deleted (h1, db))) = (Returned new_id, w)
      /\ deleted < new_id
      /\ Forall (fun m => id m < new_id) (memories db).
Proof.
  intros [_ H2 _] deleted h1 Hd.
  change (snd (delete deleted (h1, db)))
    with (h1, mkStore (filter (fun m => id m ≠ deleted) (memories db))
                      (filter (fun f => rowid f ≠ deleted) (memories_fts db))
                      (sqlite_sequence db)).
  rewrite store_spec. eexists _, _. split; [reflexivity|]. simpl.
  split; [lia|]. eapply Forall_impl; [exact H2|]. simpl. intros; lia.
Qed.



(** X8: in a consistent database, a [search] that takes the full-text
    path and returns reads the clock once per returned memory, and for
    each returned memory leaves the stored row with [access_count] one
    higher and [accessed_at] one of the times read; every row whose id it
    did not return is left as it was. *)
Theorem full_text_search_touches_results_once query uid limit tags h db ms h' db' :
  well_formed db ->
  (3 <= String.length (strip query))%nat ->
  search env engine query uid limit tags (h, db) = (Returned ms, (h', db')) ->
  clock_reads h' = (clock_reads h + length ms)%nat
  /\ (forall m, m ∈ ms ->
        m ∈ memories db
        /\ exists k, (clock_reads h <= k < clock_reads h')%nat
                     /\ mkMemory (id m) (content m) (user_id m) (Memory.tags m)
                          (created_at m) (utcnow env k) (access_count m + 1)
                        ∈ memories db')
  /\ (forall row, row ∈ memories db -> id row ∉ map id ms -> row ∈ memories db').
Proof.
  intros Hwf Hlen Hs.
  apply (search_fts_touches env engine query uid limit tags h db ms h' db' Hlen); [|apply Hwf|done].
  rewrite (rowids_are_ids db Hwf). apply Hwf.
Qed.

Lemma NoDup_id_inj (rows : list Memory) m m' :
  NoDup (map id rows) -> m ∈ rows -> m' ∈ rows -> id m = id m' -> m = m'.
Proof.
  induction rows as [|r rows IH]; simpl; [by intros _ ?%elem_of_nil|].
  intros [Hr Hnd]%NoDup_cons [->|Hm]%elem_of_cons [->|Hm']%elem_of_cons Heq; auto.
  - destruct Hr. rewrite Heq. by apply list_elem_of_In, in_map, list_elem_of_In.
  - destruct Hr. rewrite <- Heq. by apply list_elem_of_In, in_map, list_elem_of_In.
Qed.

Lemma filter_touch_one (P : Memory -> Prop) `{forall m, Decision (P m)} t i rows :
  (forall m, P (touch_one t i m) <-> P m) ->
  (forall m, m ∈ rows -> id m = i -> ~ P m) ->
  filter P (map (touch_one t i) rows) = filter P rows.
Proof.
  intros HP Hi. induction rows as [|r rows IH]; simpl; [done|].
  rewrite !filter_cons.
  assert (IH' : filter P (map (touch_one t i) rows) = filter P rows).
  { apply IH. intros m Hm. apply Hi. by right. }
  destruct (decide (P (touch_one t i r))) as [Hp|Hp];
    destruct (decide (P r)) as [Hr|Hr]; rewrite ?IH'.
  - f_equal. unfold touch_one. destruct (bool_decide_reflect (id r = i)) as [Heq|]; [|done].
    destruct (Hi r (list_elem_of_here _ _) Heq Hr).
  - destruct Hr. by apply HP.
  - destruct Hp. by apply HP.
  - done.
Qed.

Lemma touch_rows_other_users uid n ids rows :
  NoDup (map id rows) ->
  (forall i, i ∈ ids -> exists m, m ∈ rows /\ id m = i /\ user_id m = uid) ->
  filter (fun m => user_id m ≠ uid) (touch_rows env n ids rows)
  = filter (fun m => user_id m ≠ uid) rows.
Proof.
  revert n rows. induction ids as [|i ids IH]; intros n rows Hnd Hids; simpl; [done|].
  assert (Hsame : forall m, user_id (touch_one (utcnow env n) i m) = user_id m
                            /\ id (touch_one (utcnow env n) i m) = id m).
  { intros m. unfold touch_one. by destruct (bool_decide _). }
  rewrite IH.
  - apply filter_touch_one.
    + intros m. by rewrite (proj1 (Hsame m)).
    + intros m Hm Hi Hne.
      destruct (Hids i (list_elem_of_here _ _)) as (m' & Hm' & Hi' & Hu).
      assert (m = m') as -> by (apply (NoDup_id_inj rows); congruence).
      done.
  - rewrite map_map. erewrite map_ext; [exact Hnd|]. intros m. apply Hsame.
  - intros i' Hi'. destruct (Hids i') as (m & Hm & Hid & Hu); [by right|].
    exists (touch_one (utcnow env n) i m). split.
    + apply list_elem_of_In, in_map, list_elem_of_In, Hm.
    + by rewrite (proj1 (Hsame m)), (proj2 (Hsame m)).
Qed.

(** X9: in a consistent database, [search] for one user leaves the rows
    of all other users exactly as they were, access statistics
    included. *)
Theorem search_leaves_other_users_alone query uid limit tags h db :
  well_formed db ->
  filter (fun m => user_id m ≠ uid)
         (memories (snd (snd (search env engine query uid limit tags (h, db)))))
  = filter (fun m => user_id m ≠ uid) (memories db).
Proof.
  intros Hwf.
  destruct (le_lt_dec 3 (String.length (strip query))) as [Hlen|Hlen].
  - destruct (select_fts engine query uid limit db) as [rows|e] eqn:Hsel.
    + rewrite (search_long _ _ _ _ _ _ _ _ rows) by done. simpl.
      apply touch_rows_other_users; [apply Hwf|].
      intros i Hi. apply list_elem_of_In, in_map_iff in Hi as (m & <- & Hm).
      exists m. apply list_elem_of_In, elem_of_filter_tags in Hm.
      destruct (elem_of_select_fts engine _ _ _ _ _ m Hsel Hm). auto.
    + by rewrite (search_syntax_error _ _ _ _ _ _ _ _ e).
  - by rewrite search_short.
Qed.
(** X10: [store], [search], [_touch] and [delete] keep the database
    consistent (distinct ids, none above the AUTOINCREMENT counter, the
    full-text index row by row in step with [memories]), whatever their
    arguments and however they end; [get_all] leaves the database as it
    is. *)
Theorem memory_operations_keep_the_database_consistent h db :
  well_formed db ->
  (forall content uid tags,
      well_formed (snd (snd (store env content uid tags (h, db)))))
  /\ (forall query uid limit tags,
        well_formed (snd (snd (search env engine query uid limit tags (h, db)))))
  /\ (forall memory_id, well_formed (snd (snd (_touch env memory_id (h, db)))))
  /\ (forall memory_id, well_formed (snd (snd (delete memory_id (h, db)))))
  /\ (forall uid, snd (snd (get_all uid (h, db))) = db).
Proof.
  intros H. split; [|split; [|split; [|split]]].
  - intros. by apply well_formed_store.
  - intros. by apply well_formed_search.
  - intros. by apply well_formed_touch.
  - intros. by apply well_formed_delete.
  - done.
Qed.
End MemoryMore.

(** The sample stores are consistent. *)
Lemma one_memory_well_formed : MemoryInv.well_formed Sample.one_memory.
Proof.
  split; simpl.
  - apply NoDup_singleton.
  - repeat constructor. simpl. lia.
  - reflexivity.
Qed.

Lemma two_memories_well_formed : MemoryInv.well_formed Sample.two_memories.
Proof.
  split; simpl.
  - apply (bool_decide_unpack _). by vm_compute.
  - repeat constructor; simpl; lia.
  - reflexivity.
Qed.

(** X2, on a store where two memories match and one is asked for. *)
Lemma search_respects_limit_witness :
  fst (Memory.search Sample.env Sample.engine "green tea" "alice" 1 None
         (Sample.later, Sample.two_memories)) = Returned [Sample.tea_home]
  /\ Z.of_nat (length [Sample.tea_home]) <= 1.
Proof.
  split; [reflexivity|].
  eapply (search_respects_limit Sample.env Sample.engine "green tea" "alice" 1 None
            Sample.later Sample.two_memories [Sample.tea_home]).
  - lia.
  - vm_compute. reflexivity.
Defined.


(** X6, deleting the one memory of the sample store and storing another. *)
Lemma store_never_reuses_an_id_witness :
  exists new_id w,
    Memory.store Sample.env "likes oolong" "alice" None
      (snd (Memory.delete 1 (Sample.later, Sample.one_memory))) = (Returned new_id, w)
    /\ 1 < new_id
    /\ Forall (fun m => Memory.id m < new_id) (Memory.memories Sample.one_memory).
Proof.
  apply (store_never_reuses_an_id Sample.env "likes oolong" "alice" None
           Sample.one_memory one_memory_well_formed 1 Sample.later).
  vm_compute. discriminate.
Defined.

(** X8, with a query that matches the one memory of the sample store. *)
Lemma full_text_search_touches_results_once_witness :
  exists h' db',
    Memory.search Sample.env Sample.engine "green tea" "alice" 5 None
      (Sample.later, Sample.one_memory) = (Returned [Sample.tea], (h', db'))
    /\ clock_reads h' = 8%nat
    /\ Memory.mkMemory 1 "likes green tea" "alice" ["prefs"] 1000 8000 1
       ∈ Memory.memories db'.
Proof.
  eexists _, _. split; [vm_compute; reflexivity|].
  edestruct (full_text_search_touches_results_once Sample.env Sample.engine
               "green tea" "alice" 5 None Sample.later Sample.one_memory [Sample.tea])
    as (Hclock & Htouched & _).
  - exact one_memory_well_formed.
  - vm_compute. lia.
  - vm_compute. reflexivity.
  - split; [exact Hclock|]. apply list_elem_of_here.
Defined.

(** X9, with a search of bob in a store that holds a memory of alice. *)
Lemma search_leaves_other_users_alone_witness :
  filter (fun m => Memory.user_id m ≠ "bob")
    (Memory.memories
       (snd (snd (Memory.search Sample.env Sample.engine "green tea" "bob" 5 None
                    (Sample.later, Sample.one_memory)))))
  = filter (fun m => Memory.user_id m ≠ "bob") (Memory.memories Sample.one_memory).
Proof.
  apply (search_leaves_other_users_alone Sample.env Sample.engine "green tea" "bob" 5 None
           Sample.later Sample.one_memory).
  exact one_memory_well_formed.
Defined.

(** X10, at the sample store. *)
Lemma memory_operations_keep_the_database_consistent_witness :
  MemoryInv.well_formed
    (snd (snd (Memory.store Sample.env "likes oolong" "alice" None
                 (Sample.later, Sample.one_memory))))
  /\ MemoryInv.well_formed
       (snd (snd (Memory.delete 1 (Sample.later, Sample.one_memory)))).
Proof.
  destruct (memory_operations_keep_the_database_consistent Sample.env Sample.engine
              Sample.later Sample.one_memory one_memory_well_formed)
    as (Hstore & _ & _ & Hdelete & _).
  split; [apply Hstore|apply Hdelete].
Defined.

(* ===================================================================== *)
(** * The executor: effects of [execute] and the audit log *)
(* ===================================================================== *)


Section ExecutorMore.
Import Executor.
Context (env : environment).

Ltac run_execute :=
  unfold execute, _request_confirmation, call_tool; run.

(** X11: when the tool is registered, no confirmation is needed or the
    callback answers yes, the arguments are a dict and the action
    returns, [execute] calls the action once and returns the success
    dict with [str(result)], having appended to the audit log one entry
    with the tool name, the arguments, the user and [success] true. *)
Theorem execute_returns_and_audits_success h ex name action kwargs user_id result :
  tools (registry ex) !! name = Some action ->
  confirm_before_action ex && requires_confirmation (registry ex) name = false
  \/ (exists cb, confirm_callback ex = Some cb
                 /\ cb (length (confirmations h))
                       (confirmation_prompt env (JStr name) kwargs) = Returned true) ->
  action (length (invocations h)) kwargs = Returned result ->
  exists h' duration entry,
    execute env (JStr name) (JObj kwargs) user_id (h, ex)
    = (Returned (JObj [("success", JBool true);
                       ("result", JStr result);
                       ("error", JNull);
                       ("tool_name", JStr name);
                       ("duration_ms", duration)]),
       (h', append_audit entry ex))
    /\ invocations h' = invocations h ++ [(name, JObj kwargs)]
    /\ field "tool" entry = Some (JStr name)
    /\ field "arguments" entry = Some (JObj kwargs)
    /\ field "user_id" entry = Some (JStr user_id)
    /\ field "success" entry = Some (JBool true).
Proof.
  intros Ht Hc Hres. run_execute.
  destruct (tools (registry ex) !! name) as [action'|]; [|done]. injection Ht as ->.
  destruct (confirm_before_action ex && requires_confirmation (registry ex) name) eqn:Hneed.
  - destruct Hc as [|(cb & Hcb & Hyes)]; [done|]. run_execute. rewrite Hcb. run.
    rewrite Hyes. simpl. rewrite Hres. simpl. eexists _, _, _. split; [reflexivity|].
    by repeat split.
  - run. rewrite Hres. simpl. eexists _, _, _. split; [reflexivity|]. by repeat split.
Qed.

Lemma execute_effects h ex tool_name arguments user_id :
  exists added called,
    audit_log (snd (snd (execute env tool_name arguments user_id (h, ex))))
    = audit_log ex ++ added
    /\ invocations (fst (snd (execute env tool_name arguments user_id (h, ex))))
       = invocations h ++ called
    /\ (length called <= length added <= 1)%nat
    /\ ((exists kwargs, arguments = JObj kwargs) -> length called = length added)
    /\ registry (snd (snd (execute env tool_name arguments user_id (h, ex)))) = registry ex
    /\ confirm_before_action (snd (snd (execute env tool_name arguments user_id (h, ex))))
       = confirm_before_action ex
    /\ confirm_callback (snd (snd (execute env tool_name arguments user_id (h, ex))))
       = confirm_callback ex.
Proof.
  run_execute.
  destruct tool_name as [| | | |name| |]; run;
    try (exists [], []; simpl; rewrite !app_nil_r; repeat split; lia).
  destruct (tools (registry ex) !! name) as [action|]; run;
    [|exists [], []; simpl; rewrite !app_nil_r; repeat split; lia].
  destruct (confirm_before_action ex && requires_confirmation (registry ex) name); run.
  - destruct (confirm_callback ex) as [cb|] eqn:Hcb; run;
      [|exists [], []; simpl; rewrite !app_nil_r; repeat split; first [lia|done]].
    destruct arguments as [| | | | |items|kwargs]; run;
      try (exists [], []; simpl; rewrite !app_nil_r; repeat split;
           first [lia|done|by intros [? ?]]).
    destruct (cb _ _) as [[]|e]; simpl;
      try (exists [], []; simpl; rewrite !app_nil_r; repeat split; first [lia|done]).
    destruct (action _ _); simpl; eexists [_], [_]; simpl; repeat split; first [lia|done].
  - destruct arguments as [| | | | |items|kwargs]; run;
      try (eexists [_], []; simpl; rewrite !app_nil_r; repeat split;
           first [lia|done|by intros [? ?]]).
    destruct (action _ _); simpl; eexists [_], [_]; simpl; repeat split; first [lia|done].
Qed.


(** X12: however it ends, [execute] only appends to the audit log, at
    most one entry; it calls at most one action, and never one without
    an audit entry: with a dict of arguments the calls and the entries
    added are as many.  Registry, confirmation policy and callback are
    left as they were. *)
Theorem execute_only_appends_to_the_audit_log h ex tool_name arguments user_id :
  exists added called,
    audit_log (snd (snd (execute env tool_name arguments user_id (h, ex))))
    = audit_log ex ++ added
    /\ invocations (fst (snd (execute env tool_name arguments user_id (h, ex))))
       = invocations h ++ called
    /\ (length called <= length added <= 1)%nat
    /\ ((exists kwargs, arguments = JObj kwargs) -> length called = length added)
    /\ registry (snd (snd (execute env tool_name arguments user_id (h, ex)))) = registry ex
    /\ confirm_before_action (snd (snd (execute env tool_name arguments user_id (h, ex))))
       = confirm_before_action ex
    /\ confirm_callback (snd (snd (execute env tool_name arguments user_id (h, ex))))
       = confirm_callback ex.
Proof. apply execute_effects. Qed.

(** X13: with [confirm_before_action] on, an action that requires
    confirmation is called only if a callback is wired, it was asked
    exactly once during this [execute], and it answered [True]. *)
Theorem confirmed_tools_run_only_after_approval h ex name arguments user_id out h' ex' :
  confirm_before_action ex = true ->
  requires_confirmation (registry ex) name = true ->
  execute env (JStr name) arguments user_id (h, ex) = (out, (h', ex')) ->
  invocations h' <> invocations h ->
  exists cb prompt,
    confirm_callback ex = Some cb
    /\ confirmations h' = confirmations h ++ [prompt]
    /\ cb (length (confirmations h)) prompt = Returned true.
Proof.
  intros Hc Hr. run_execute. rewrite Hc, Hr.
  destruct (tools (registry ex) !! name) as [action|]; run;
    [|by intros [= <- <- <-] []].
  destruct (confirm_callback ex) as [cb|]; run; [|by intros [= <- <- <-] []].
  destruct arguments as [| | | | |items|kwargs]; run; try by intros [= <- <- <-] [].
  destruct (cb _ _) as [[]|e] eqn:Hans; simpl; try by intros [= <- <- <-] [].
  destruct (action _ _); simpl; intros [= <- <- <-] _; eauto.
Qed.

(** X14: for a limit other than 0, [get_audit_log] returns the end of
    the audit log, in order: with a positive limit it leaves out all but
    the last [limit] entries, and with a negative limit it leaves out the
    first [-limit] entries instead. *)
Theorem get_audit_log_returns_the_latest ex (limit : Z) :
  limit <> 0 ->
  exists earlier,
    audit_log ex = earlier ++ get_audit_log ex limit
    /\ length earlier
       = (if 0 <? limit then (length (audit_log ex) - Z.to_nat limit)%nat
          else Nat.min (Z.to_nat (- limit)) (length (audit_log ex))).
Proof.
  intros Hl. unfold get_audit_log, slice_from.
  eexists. split; [symmetry; apply take_drop|]. rewrite length_take.
  destruct (Z.ltb_spec 0 limit), (Z.ltb_spec (- limit) 0); lia.
Qed.

(** X15: when the arguments of a registered tool that needs no
    confirmation are not a dict, [execute] does not call the action: the
    [TypeError] of the call is caught, written to the audit log as a
    failure and returned as an error result. *)
Theorem non_mapping_arguments_fail_inside_execute h ex name action arguments user_id :
  tools (registry ex) !! name = Some action ->
  confirm_before_action ex && requires_confirmation (registry ex) name = false ->
  (forall kwargs, arguments <> JObj kwargs) ->
  exists message duration h' entry,
    execute env (JStr name) arguments user_id (h, ex)
    = (Returned (_error_result (JStr name) message duration), (h', append_audit entry ex))
    /\ invocations h' = invocations h
    /\ field "success" entry = Some (JBool false)
    /\ field "error" entry = Some (JStr message).
Proof.
  intros Ht Hc Hargs. run_execute.
  destruct (tools (registry ex) !! name) as [action'|]; [|done]. rewrite Hc. run.
  destruct arguments as [| | | | |items|kwargs]; run;
    try (eexists _, _, _, _; split; [reflexivity|]; by repeat split).
  by destruct (Hargs kwargs).
Qed.
End ExecutorMore.

(** X11, with confirmation switched off. *)
Lemma execute_returns_and_audits_success_witness :
  exists h' duration entry,
    Executor.execute Sample.env (JStr "files__delete_file") Sample.delete_args "alice"
      (Sample.boot, Scenario.trusting)
    = (Returned (JObj [("success", JBool true);
                       ("result", JStr "Deleted a.txt");
                       ("error", JNull);
                       ("tool_name", JStr "files__delete_file");
                       ("duration_ms", duration)]),
       (h', Executor.append_audit entry Scenario.trusting))
    /\ invocations h' = [("files__delete_file", Sample.delete_args)].
Proof.
  destruct (execute_returns_and_audits_success Sample.env Sample.boot Scenario.trusting
              "files__delete_file" Sample.delete_file [("path", JStr "a.txt")] "alice"
              "Deleted a.txt")
    as (h' & duration & entry & Hrun & Hcalled & _).
  - vm_compute. reflexivity.
  - left. vm_compute. reflexivity.
  - reflexivity.
  - exists h', duration, entry. split; [exact Hrun|exact Hcalled].
Defined.

(** X13, with a user who answers yes. *)
Lemma confirmed_tools_run_only_after_approval_witness :
  exists cb prompt,
    Executor.confirm_callback Scenario.approving = Some cb
    /\ cb 0%nat prompt = Returned true.
Proof.
  edestruct (confirmed_tools_run_only_after_approval Sample.env Sample.boot
               Scenario.approving "files__delete_file" Sample.delete_args "alice")
    as (cb & prompt & Hcb & _ & Hyes).
  - reflexivity.
  - vm_compute. reflexivity.
  - vm_compute. reflexivity.
  - vm_compute. discriminate.
  - exists cb, prompt. split; [exact Hcb|exact Hyes].
Defined.

(** X14, asking for the last two of three entries. *)
Lemma get_audit_log_returns_the_latest_witness :
  exists earlier,
    Executor.audit_log Scenario.seasoned
    = earlier ++ Executor.get_audit_log Scenario.seasoned 2
    /\ length earlier = 1%nat.
Proof.
  apply (get_audit_log_returns_the_latest Scenario.seasoned 2). lia.
Defined.

(** X15, with a string where the arguments are expected. *)
Lemma non_mapping_arguments_fail_inside_execute_witness :
  exists message duration h' entry,
    Executor.execute Sample.env (JStr "files__delete_file") (JStr "a.txt") "alice"
      (Sample.boot, Scenario.trusting)
    = (Returned (Executor._error_result (JStr "files__delete_file") message duration),
       (h', Executor.append_audit entry Scenario.trusting))
    /\ invocations h' = invocations Sample.boot
    /\ field "success" entry = Some (JBool false)
    /\ field "error" entry = Some (JStr message).
Proof.
  apply (non_mapping_arguments_fail_inside_execute Sample.env Sample.boot Scenario.trusting
           "files__delete_file" Sample.delete_file (JStr "a.txt") "alice").
  - vm_compute. reflexivity.
  - vm_compute. reflexivity.
  - intros kwargs. discriminate.
Defined.

(* ===================================================================== *)
(** * What a turn of the agent may change *)
(* ===================================================================== *)


Section TurnFacts.
Import Executor Agent Turn.
Context (env : environment) (engine : Memory.fts5).
Context (R : relation MAXAgent) `{!Reflexive R, !Transitive R}.

Lemma steps_ret {A} (x : A) : steps R (ret x).
Proof. intros w. simpl. reflexivity. Qed.

Lemma steps_raise {A} e : steps R (raise (A:=A) e).
Proof. intros w. simpl. reflexivity. Qed.

Lemma steps_lift {A} (o : outcome A) : steps R (lift_outcome o).
Proof. intros w. simpl. reflexivity. Qed.

Lemma steps_get_state : steps R get_state.
Proof. intros w. simpl. reflexivity. Qed.

Lemma steps_get_host : steps R get_host.
Proof. intros w. simpl. reflexivity. Qed.

Lemma steps_modify_host f : steps R (modify_host f).
Proof. intros w. simpl. reflexivity. Qed.

Lemma steps_bind {A B} (m : M MAXAgent A) (f : A -> M MAXAgent B) :
  steps R m -> (forall x, steps R (f x)) -> steps R (bind m f).
Proof.
  intros Hm Hf w. unfold bind. specialize (Hm w).
  destruct (m w) as [[x|e] w']; simpl in *; [|done].
  etransitivity; [exact Hm|apply Hf].
Qed.

Lemma steps_try {A} (body : M MAXAgent A) handler :
  steps R body -> (forall e, steps R (handler e)) -> steps R (try_except body handler).
Proof.
  intros Hm Hf w. unfold try_except. specialize (Hm w).
  destruct (body w) as [[x|e] w']; simpl in *; [done|].
  etransitivity; [exact Hm|apply Hf].
Qed.

Lemma steps_now : steps R (now env).
Proof. intros w. simpl. reflexivity. Qed.

Lemma steps_complete r : steps R (complete env r).
Proof. intros w. simpl. reflexivity. Qed.

Lemma steps_in_memory {A} (m : M Memory.MemoryStore A) :
  (forall a h, R a (with_memory (snd (snd (m (h, memory a)))) a)) ->
  steps R (in_memory m).
Proof. intros H w. unfold in_memory, zoom. simpl. apply H. Qed.

Lemma steps_in_executor {A} (m : M ToolExecutor A) :
  (forall a h, R a (with_executor (snd (snd (m (h, tool_executor a)))) a)) ->
  steps R (in_executor m).
Proof. intros H w. unfold in_executor, zoom. simpl. apply H. Qed.

Lemma steps_append_message role content metadata :
  (forall a t, R a (with_history (conversation_history a ++ [mkMessage role content t metadata]) a)) ->
  steps R (append_message env role content metadata).
Proof. intros H w. unfold append_message. simpl. apply H. Qed.

(** The five ways in which [process_message] changes the agent. *)
Context (Hsearch : forall a h q u l t,
            R a (with_memory (snd (snd (Memory.search env engine q u l t (h, memory a)))) a)).
Context (Hstore : forall a h c u t,
            R a (with_memory (snd (snd (Memory.store env c u t (h, memory a)))) a)).
Context (Hexecute : forall a h n args u,
            R a (with_executor (snd (snd (execute env n args u (h, tool_executor a)))) a)).
Context (Happend : forall a msg, R a (with_history (conversation_history a ++ [msg]) a)).

Lemma steps_run_tool_call uid tc : steps R (run_tool_call env uid tc).
Proof.
  unfold run_tool_call.
  apply steps_bind; [apply steps_lift|intros name].
  apply steps_bind; [apply steps_lift|intros args].
  apply steps_bind; [apply steps_in_executor; intros; apply Hexecute|intros result].
  apply steps_bind; [apply steps_append_message; intros; apply Happend|intros _].
  apply steps_bind; [apply steps_append_message; intros; apply Happend|intros _].
  apply steps_ret.
Qed.

Lemma steps_run_tool_calls uid tcs acts : steps R (run_tool_calls env uid tcs acts).
Proof.
  revert acts. induction tcs as [|tc tcs IH]; intros acts; simpl; [apply steps_ret|].
  apply steps_bind; [apply steps_run_tool_call|intros; apply IH].
Qed.

Lemma steps_run_requested uid v acts : steps R (run_requested env uid v acts).
Proof.
  unfold run_requested. destruct v; try apply steps_raise. apply steps_run_tool_calls.
Qed.

Lemma steps_react_loop n sp uid acts : steps R (react_loop env n sp uid acts).
Proof.
  revert acts. induction n as [|n IH]; intros acts; simpl; [apply steps_ret|].
  apply steps_bind; [|intros raw].
  { unfold _call_llm. apply steps_bind; [apply steps_get_state|intros; apply steps_complete]. }
  apply steps_bind; [apply steps_lift|intros tcs].
  destruct (negb _); [apply steps_ret|].
  apply steps_bind; [apply steps_run_requested|intros; apply IH].
Qed.

Lemma steps_maybe_memorize ui r uid : steps R (_maybe_memorize env ui r uid).
Proof.
  unfold _maybe_memorize. apply steps_try; [|intros; apply steps_ret].
  apply steps_bind; [apply steps_complete|intros s].
  apply steps_bind; [apply steps_lift|intros v].
  apply steps_bind; [apply steps_lift|intros b].
  destruct (truthy b); [|apply steps_ret].
  apply steps_bind; [apply steps_lift|intros c].
  apply steps_bind; [apply steps_lift|intros ts].
  apply steps_bind; [apply steps_in_memory; intros; apply Hstore|intros; apply steps_ret].
Qed.

Lemma steps_conclude ui uid ms fr acts : steps R (conclude env ui uid ms fr acts).
Proof.
  unfold conclude.
  apply steps_bind; [apply steps_append_message; intros; apply Happend|intros _].
  apply steps_bind; [apply steps_maybe_memorize|intros; apply steps_ret].
Qed.

Lemma steps_rest_of_turn ui uid prepared :
  steps R (bind (react_loop env MAX_ITERATIONS (snd prepared) uid [])
             (fun looped => conclude env ui uid (fst prepared) (fst looped) (snd looped))).
Proof. apply steps_bind; [apply steps_react_loop|intros; apply steps_conclude]. Qed.

Context (Hcompact : forall a summary t,
            (10 < length (conversation_history a))%nat ->
            R a (with_history
                   ([mkMessage "assistant" ("[Context summary]: " +:+ fmt summary) t (JObj [])]
                    ++ slice_from (conversation_history a) (-10)) a)).

Lemma steps_compact_context uid : steps R (_compact_context env uid).
Proof.
  intros w. unfold _compact_context, bind at 1, get_state. cbn [fst snd].
  destruct (Nat.leb_spec (length (conversation_history w.2)) 10) as [|Hlen];
    [simpl; reflexivity|].
  unfold bind at 1, _call_llm_simple. rewrite complete_spec.
  destruct (completion env _ _) as [summary|e]; [|simpl; reflexivity].
  unfold bind at 1. unfold now, bind at 1, get_host. cbn [fst snd].
  unfold bind at 1, modify_host. cbn [fst snd]. unfold ret at 1.
  unfold bind at 1, modify. cbn [fst snd].
  etransitivity; [apply (Hcompact _ summary (utcnow env (clock_reads w.1)) Hlen)|].
  destruct summary as [s|].
  - match goal with |- R ?a0 (snd (snd (bind ?m ?f ?w0))) =>
      change a0 with (snd w0); apply (steps_bind m f) end;
      [|intros; apply steps_ret].
    apply steps_in_memory. intros; apply Hstore.
  - simpl. reflexivity.
Qed.

Lemma steps_prepare ui uid : steps R (prepare env engine ui uid).
Proof.
  unfold prepare.
  apply steps_bind; [apply steps_in_memory; intros; apply Hsearch|intros ms].
  apply steps_bind; [apply steps_get_state|intros a].
  apply steps_bind; [apply steps_now|intros t1].
  apply steps_bind; [apply steps_now|intros t2].
  apply steps_bind; [apply steps_append_message; intros; apply Happend|intros _].
  apply steps_bind; [|intros c].
  { unfold _should_compact. apply steps_bind; [apply steps_get_state|intros a'].
    destruct (_ =? _); [apply steps_raise|apply steps_ret]. }
  apply steps_bind; [|intros; apply steps_ret].
  destruct c; [apply steps_compact_context|apply steps_ret].
Qed.

Lemma steps_process_message ui uid : steps R (process_message env engine ui uid).
Proof.
  unfold process_message. apply steps_bind; [apply steps_get_state|intros a].
  destruct (negb _); [apply steps_raise|].
  apply steps_bind; [apply steps_prepare|intros prepared]. apply steps_rest_of_turn.
Qed.
End TurnFacts.


Section TurnProps.
Import Executor Agent Turn.
Context (env : environment) (engine : Memory.fts5).

Lemma prepare_keeps_short_transcript ui uid h a :
  (length (conversation_history a) <= 9)%nat ->
  extends_transcript a (snd (snd (prepare env engine ui uid (h, a)))).
Proof.
  intros Hlen. unfold extends_transcript, prepare, in_memory, zoom.
  unfold bind at 1. cbn [fst snd].
  destruct (Memory.search env engine ui uid 5 None (h, memory a)) as [[ms|e] [h1 db1]];
    cbn [fst snd]; [|done].
  unfold bind at 1, get_state. cbn [fst snd].
  unfold bind at 1, now at 1. unfold bind at 1, get_host. cbn [fst snd].
  unfold bind at 1, modify_host. cbn [fst snd]. unfold ret at 1.
  unfold bind at 1, now at 1. unfold bind at 1, get_host. cbn [fst snd].
  unfold bind at 1, modify_host. cbn [fst snd]. unfold ret at 1.
  unfold bind at 1, append_message. unfold bind at 1, now at 1.
  unfold bind at 1, get_host. cbn [fst snd].
  unfold bind at 1, modify_host. cbn [fst snd]. unfold ret at 1. unfold modify. cbn [fst snd].
  unfold bind at 1, _should_compact. unfold bind at 1, get_state. cbn [fst snd].
  destruct (_ =? 0); [by apply prefix_app_r|].
  unfold ret at 1.
  destruct (negb _).
  - unfold bind at 1, _compact_context. unfold bind at 1, get_state. cbn [fst snd].
    simpl conversation_history.
    match goal with |- context [(?n <=? 10)%nat] =>
      destruct (Nat.leb_spec n 10) as [|Hbig] end.
    + simpl. by apply prefix_app_r.
    + rewrite length_app in Hbig. simpl in Hbig. lia.
  - simpl. by apply prefix_app_r.
Qed.

#[local] Instance settles_refl : Reflexive settles.
Proof. intros a. by repeat split. Qed.

#[local] Instance settles_trans : Transitive settles.
Proof.
  intros a b c [(? & ? & ? & ? & ?) [? ?]] [(? & ? & ? & ? & ?) [? ?]].
  repeat split; try congruence; by etransitivity.
Qed.

#[local] Instance extends_transcript_refl : Reflexive extends_transcript.
Proof. intros a. unfold extends_transcript. done. Qed.

#[local] Instance extends_transcript_trans : Transitive extends_transcript.
Proof. intros a b c. unfold extends_transcript. by etransitivity. Qed.

#[local] Instance keeps_database_refl : Reflexive keeps_database.
Proof. intros a H. exact H. Qed.

#[local] Instance keeps_database_trans : Transitive keeps_database.
Proof. intros a b c. unfold keeps_database. auto. Qed.

Lemma search_fixed_columns q u l t h db :
  map MemoryInv.fixed_columns
      (Memory.memories (snd (snd (Memory.search env engine q u l t (h, db)))))
  = map MemoryInv.fixed_columns (Memory.memories db).
Proof.
  destruct (search_final_store env engine q u l t h db) as [->|(n & ids & ->)]; [done|].
  apply touch_rows_fixed.
Qed.

Lemma settles_process_message ui uid : steps settles (process_message env engine ui uid).
Proof.
  apply steps_process_message; try apply _.
  - intros. repeat split; simpl; [done|]. by rewrite search_fixed_columns.
  - intros. repeat split; simpl; [done|]. rewrite map_app. by apply prefix_app_r.
  - intros a h n args u.
    destruct (execute_effects env h (tool_executor a) n args u)
      as (added & called & Ha & _ & _ & _ & Hr & Hc & Hcb).
    repeat split; simpl; try done. rewrite Ha. by apply prefix_app_r.
  - intros. by repeat split.
  - intros. by repeat split.
Qed.

(** X16: however it ends, [process_message] leaves the settings, the
    initialisation flag, the registry, the confirmation policy and the
    callback as they were; the audit log and the table of memories only
    grow at the end, and no stored memory changes in id, content, user,
    tags or creation time. *)
Theorem a_turn_keeps_setup_and_history_of_actions ui uid h a :
  same_setup a (snd (snd (process_message env engine ui uid (h, a))))
  /\ accumulates a (snd (snd (process_message env engine ui uid (h, a)))).
Proof. apply (settles_process_message ui uid (h, a)). Qed.

(** X17: however it ends, [process_message] leaves a consistent memory
    database consistent. *)
Theorem a_turn_keeps_the_database_consistent ui uid h a :
  MemoryInv.well_formed (memory a) ->
  MemoryInv.well_formed (memory (snd (snd (process_message env engine ui uid (h, a))))).
Proof.
  assert (H : steps keeps_database (process_message env engine ui uid)).
  { apply steps_process_message; try apply _.
    - intros a0 h0 q u l t Hwf. simpl. by apply well_formed_search.
    - intros a0 h0 c u t Hwf. simpl. by apply well_formed_store.
    - intros a0 h0 n args u Hwf. done.
    - intros a0 msg Hwf. done.
    - intros a0 summary t _ Hwf. done. }
  exact (H (h, a)).
Qed.

(** X18: on a transcript of at most nine entries, [process_message]
    only appends to [conversation_history], however it ends: with the
    user message added the transcript is too short for
    [_compact_context] to rewrite it. *)
Theorem a_turn_only_appends_to_a_short_transcript ui uid h a :
  (length (conversation_history a) <= 9)%nat ->
  conversation_history a
  `prefix_of` conversation_history (snd (snd (process_message env engine ui uid (h, a)))).
Proof.
  intros Hlen. unfold process_message, bind at 1, get_state. cbn [fst snd].
  destruct (negb _); [done|].
  pose proof (prepare_keeps_short_transcript ui uid h a Hlen) as Hprep.
  unfold bind at 1.
  destruct (prepare env engine ui uid (h, a)) as [[prepared|e] w1]; [|exact Hprep].
  cbn [fst snd] in Hprep.
  etransitivity; [exact Hprep|].
  assert (H : steps extends_transcript
                (bind (react_loop env MAX_ITERATIONS (snd prepared) uid [])
                   (fun looped => conclude env ui uid (fst prepared) (fst looped) (snd looped)))).
  { apply steps_rest_of_turn; try apply _.
    - intros a0 h0 c u t. by unfold extends_transcript.
    - intros a0 h0 n args u. by unfold extends_transcript.
    - intros a0 msg. unfold extends_transcript. simpl. by apply prefix_app_r. }
  exact (H w1).
Qed.

Lemma last_slice_from {A} (l : list A) (k : Z) x :
  k < 0 -> last (slice_from (l ++ [x]) k) = Some x.
Proof.
  intros Hk. unfold slice_from. destruct (Z.ltb_spec k 0); [|lia].
  rewrite length_app. simpl.
  rewrite drop_app_le by lia. apply last_snoc.
Qed.

(** X19: [_history_to_messages] renders the last forty entries of the
    transcript (all of them when there are fewer), one message per entry
    and in order; a tool result is sent with the role [user] and its
    content after [[Tool Result]: ], every other entry with its own role
    and content, so no message has the role [tool_result]. *)
Theorem history_to_messages_sends_the_last_forty a :
  exists dropped kept,
    conversation_history a = dropped ++ kept
    /\ length kept = Nat.min 40 (length (conversation_history a))
    /\ length (_history_to_messages a) = length kept
    /\ Forall2 (fun msg sent =>
                  snd sent = (if String.eqb (role msg) "tool_result"
                              then "[Tool Result]: " +:+ content msg else content msg)
                  /\ fst sent = (if String.eqb (role msg) "tool_result"
                                 then "user" else role msg))
               kept (_history_to_messages a)
    /\ Forall (fun sent => fst sent <> "tool_result") (_history_to_messages a).
Proof.
  exists (slice_to (conversation_history a) (-40)), (slice_from (conversation_history a) (-40)).
  split; [symmetry; apply slice_split|]. split.
  { unfold slice_from. destruct (Z.ltb_spec (-40) 0); [|lia]. rewrite length_drop. lia. }
  unfold _history_to_messages. split; [by rewrite length_map|]. split.
  - induction (slice_from (conversation_history a) (-40)) as [|m l IH]; simpl; constructor;
      [|done].
    by destruct (String.eqb (role m) "tool_result").
  - apply Forall_forall. intros sent Hin.
    apply list_elem_of_In, in_map_iff in Hin as (m & <- & _).
    destruct (String.eqb_spec (role m) "tool_result"); simpl; [done|done].
Qed.

#[local] Instance writes_memory_only_refl : Reflexive writes_memory_only.
Proof. intros a. exists (memory a). by destruct a. Qed.

#[local] Instance writes_memory_only_trans : Transitive writes_memory_only.
Proof. intros a b c [db1 ->] [db2 ->]. by exists db2. Qed.

Lemma maybe_memorize_writes_memory_only ui r uid :
  steps writes_memory_only (_maybe_memorize env ui r uid).
Proof. apply steps_maybe_memorize; try apply _. intros. by eexists. Qed.

Lemma maybe_memorize_sends_one ui r uid h a :
  completions (fst (snd (_maybe_memorize env ui r uid (h, a))))
  = completions h ++ [SimpleCompletion (check_prompt ui r)].
Proof.
  unfold _maybe_memorize, try_except, bind at 1, _call_llm_simple.
  rewrite complete_spec. cbn [fst snd].
  destruct (completion env _ _) as [s|e]; [|done].
  match goal with |- context [let (o, w') := ?m ?w0 in _] =>
    assert (Hq : quiet m); [|specialize (Hq w0); destruct (m w0) as [[[]|e] w1]] end;
    [|exact Hq|exact Hq].
  unfold in_memory. quiet. apply quiet_store.
Qed.

Lemma maybe_memorize_effect ui r uid h a :
  exists h' db',
    _maybe_memorize env ui r uid (h, a) = (Returned tt, (h', with_memory db' a))
    /\ completions h' = completions h ++ [SimpleCompletion (check_prompt ui r)]
    /\ map MemoryInv.fixed_columns (Memory.memories (memory a))
       `prefix_of` map MemoryInv.fixed_columns (Memory.memories db').
Proof.
  destruct (maybe_memorize_returns env ui r uid (h, a)) as [[h' a'] Hrun].
  pose proof (maybe_memorize_writes_memory_only ui r uid (h, a)) as [db' Hdb].
  pose proof (maybe_memorize_sends_one ui r uid h a) as Hsent.
  assert (Hacc : steps settles (_maybe_memorize env ui r uid)).
  { apply steps_maybe_memorize; try apply _.
    intros. repeat split; simpl; [done|]. rewrite map_app. by apply prefix_app_r. }
  specialize (Hacc (h, a)) as [_ [_ Hmem]].
  rewrite Hrun in Hdb, Hsent, Hmem. cbn [fst snd] in *. subst a'.
  exists h', db'. by repeat split.
Qed.

(** X20: [_maybe_memorize] always returns, whatever the backend answers
    or raises; it sends exactly one request, the check prompt, and
    writes nothing but the memory store, where the rows keep their id,
    content, user, tags and creation time and rows are only added at the
    end. *)
Theorem memorize_check_never_fails ui r uid h a :
  exists h' db',
    _maybe_memorize env ui r uid (h, a) = (Returned tt, (h', with_memory db' a))
    /\ completions h' = completions h ++ [SimpleCompletion (check_prompt ui r)]
    /\ map MemoryInv.fixed_columns (Memory.memories (memory a))
       `prefix_of` map MemoryInv.fixed_columns (Memory.memories db').
Proof. apply maybe_memorize_effect. Qed.

Lemma as_texts_strings (ts : list string) : as_texts (map JStr ts) = Returned ts.
Proof. induction ts as [|s ts IH]; simpl; [done|]. by rewrite IH. Qed.

Lemma as_tags_strings (ts : list string) : as_tags (JArr (map JStr ts)) = Returned ts.
Proof. destruct ts as [|s ts]; [done|]. unfold as_tags. simpl. by rewrite as_texts_strings. Qed.

(** X21: when the answer to the check prompt parses to a dict with a
    truthy [should_store], a string [content] and a list of strings
    [tags], [_maybe_memorize] stores exactly that memory for the user:
    one row is appended, with the next id, the content and tags of the
    answer and the time read. *)
Theorem memorize_check_stores_the_suggestion ui r uid h a s fields flag content tags :
  completion env (length (completions h)) (SimpleCompletion (check_prompt ui r))
  = Returned (Some s) ->
  json_loads env s = Returned (JObj fields) ->
  assoc_get "should_store" fields = Some flag ->
  truthy flag = true ->
  assoc_get "content" fields = Some (JStr content) ->
  assoc_get "tags" fields = Some (JArr (map JStr tags)) ->
  exists h' db',
    _maybe_memorize env ui r uid (h, a) = (Returned tt, (h', with_memory db' a))
    /\ Memory.memories db'
       = Memory.memories (memory a)
         ++ [Memory.mkMemory (Memory.sqlite_sequence (memory a) + 1) content uid tags
               (utcnow env (clock_reads h)) (utcnow env (clock_reads h)) 0].
Proof.
  intros Hc Hj Hs Ht Hcon Htags.
  unfold _maybe_memorize, try_except, bind at 1, _call_llm_simple.
  rewrite complete_spec. cbn [fst snd]. rewrite Hc.
  unfold bind at 1, lift_outcome, loads. rewrite Hj.
  unfold bind at 1, get_attr. rewrite Hs. cbn [default from_option id]. rewrite Ht.
  unfold bind at 1, get_item, outcome_bind. rewrite Hcon. cbn [as_text].
  unfold bind at 1. rewrite Htags. cbn [default from_option id]. rewrite as_tags_strings.
  eexists _, _. split; reflexivity.
Qed.

(** X22: unless the answer to the check prompt parses to a dict with a
    truthy [should_store], [_maybe_memorize] changes nothing; its one
    effect is the request it sent. *)
Theorem memorize_check_stores_nothing_unasked ui r uid h a :
  (forall s fields flag,
      completion env (length (completions h)) (SimpleCompletion (check_prompt ui r))
      = Returned (Some s) ->
      json_loads env s = Returned (JObj fields) ->
      assoc_get "should_store" fields = Some flag ->
      truthy flag = false) ->
  _maybe_memorize env ui r uid (h, a)
  = (Returned tt, (log_completion (SimpleCompletion (check_prompt ui r)) h, a)).
Proof.
  intros Hno.
  unfold _maybe_memorize, try_except, bind at 1, _call_llm_simple.
  rewrite complete_spec. cbn [fst snd].
  destruct (completion env _ _) as [[s|]|e] eqn:Hc; [| done | done].
  unfold bind at 1, lift_outcome, loads.
  destruct (json_loads env s) as [[| | | | | |fields]|] eqn:Hj; try done.
  unfold bind at 1, get_attr.
  destruct (assoc_get "should_store" fields) as [flag|] eqn:Hs; cbn [default from_option id truthy]; [|done].
  by rewrite (Hno s fields flag).
Qed.

Lemma conclude_spec ui uid ms fr acts h a :
  exists h' db' t,
    conclude env ui uid ms fr acts (h, a)
    = (Returned (mkResponse
                   (match fr with
                    | Some s => if String.eqb s "" then apology else s
                    | None => apology
                    end)
                   acts (map (fun m => prefix 60 (Memory.content m)) ms) None),
       (h', with_memory db'
              (with_history
                 (conversation_history a
                  ++ [mkMessage "assistant"
                        (match fr with
                         | Some s => if String.eqb s "" then apology else s
                         | None => apology
                         end) t (JObj [])]) a)))
    /\ completions h `prefix_of` completions h'.
Proof.
  unfold conclude. unfold bind at 1. unfold append_message at 1.
  unfold now, bind at 1, get_host, modify_host, modify, ret. cbn [fst snd].
  unfold bind.
  match goal with |- context [_maybe_memorize env ?x ?y ?z (?h0, ?a0)] =>
    destruct (maybe_memorize_effect x y z h0 a0) as (h' & db' & -> & Hsent & _) end.
  eexists _, _, _. split; [reflexivity|].
  rewrite Hsent. simpl. by apply prefix_app_r.
Qed.

(** The loop and the steps before it only add to the log of requests. *)
Lemma extends_quiet {A} (m : M MAXAgent A) : quiet m -> extends_log m.
Proof. intros Hm w. by rewrite Hm. Qed.

Lemma extends_bind {A B} (m : M MAXAgent A) (f : A -> M MAXAgent B) :
  extends_log m -> (forall x, extends_log (f x)) -> extends_log (bind m f).
Proof.
  intros Hm Hf w. unfold bind. specialize (Hm w).
  destruct (m w) as [[x|e] w1]; [|done].
  etransitivity; [exact Hm|apply Hf].
Qed.

Lemma extends_complete r : extends_log (complete (S:=MAXAgent) env r).
Proof. intros w. rewrite complete_spec. simpl. by apply prefix_app_r. Qed.

Lemma extends_compact_context uid : extends_log (_compact_context env uid).
Proof.
  unfold _compact_context. apply extends_bind; [by apply extends_quiet; quiet|intros a].
  destruct (_ <=? _)%nat; [by apply extends_quiet; quiet|].
  apply extends_bind; [apply extends_complete|intros s].
  apply extends_quiet. unfold in_memory. quiet. apply quiet_store.
Qed.

Lemma extends_prepare ui uid : extends_log (prepare env engine ui uid).
Proof.
  unfold prepare, in_memory.
  apply extends_bind; [apply extends_quiet; quiet; apply quiet_search|intros ms].
  apply extends_bind; [apply extends_quiet; quiet|intros a].
  apply extends_bind; [apply extends_quiet; quiet|intros t1].
  apply extends_bind; [apply extends_quiet; quiet|intros t2].
  apply extends_bind; [apply extends_quiet, quiet_append_message|intros _].
  apply extends_bind; [apply extends_quiet, quiet_should_compact|intros c].
  apply extends_bind; [|intros; apply extends_quiet; quiet].
  destruct c; [apply extends_compact_context|apply extends_quiet; quiet].
Qed.

Lemma extends_react_loop n sp uid acts : extends_log (react_loop env n sp uid acts).
Proof.
  revert acts. induction n as [|n IH]; intros acts; simpl.
  - apply extends_quiet. quiet.
  - apply extends_bind; [|intros raw].
    { unfold _call_llm. apply extends_bind; [apply extends_quiet; quiet|intros a].
      apply extends_complete. }
    apply extends_bind; [apply extends_quiet; quiet|intros tcs].
    destruct (negb _); [apply extends_quiet; quiet|].
    apply extends_bind; [apply extends_quiet, quiet_run_requested|intros acts']. apply IH.
Qed.

(** A final response of the loop is the answer to a tool-enabled request
    that the loop sent, and no tool calls were extracted from it. *)
Lemma react_loop_answer n sp uid acts w s acts' w' :
  react_loop env n sp uid acts w = (Returned (Some s, acts'), w') ->
  exists k msgs tcs,
    (length (completions (fst w)) <= k)%nat
    /\ completions (fst w') !! k = Some (ToolCompletion sp msgs)
    /\ completion env k (ToolCompletion sp msgs) = Returned (Some s)
    /\ _extract_tool_calls env (Some s) = Returned tcs
    /\ truthy tcs = false.
Proof.
  revert acts w. induction n as [|n IH]; intros acts [h a]; simpl.
  - unfold ret. intros [= ]. 
  - unfold bind at 1. unfold _call_llm, bind at 1, get_state. rewrite complete_spec.
    cbn [fst snd].
    destruct (completion env _ _) as [raw|e] eqn:Hc; [|done].
    unfold bind at 1, lift_outcome.
    destruct (_extract_tool_calls env raw) as [tcs|e] eqn:He; [|done].
    destruct (truthy tcs) eqn:Ht; cbn [negb].
    + unfold bind at 1.
      pose proof (quiet_run_requested env uid tcs acts
                    (log_completion (ToolCompletion sp (_history_to_messages a)) h, a)) as Hq.
      destruct (run_requested env uid tcs acts _) as [[acts1|e] w1]; [|done].
      intros Hloop. apply IH in Hloop as (k & msgs & tcs' & Hk & H).
      exists k, msgs, tcs'. split; [|exact H].
      cbn [fst snd] in Hq. rewrite Hq in Hk. simpl in Hk. rewrite length_app in Hk.
      simpl in Hk. lia.
    + unfold ret. intros [= -> <- <-].
      exists (length (completions h)), (_history_to_messages a), tcs.
      split; [done|]. split; [|done].
      simpl. by rewrite lookup_app_r, Nat.sub_diag.
Qed.

(** X23: when [process_message] returns, the text of the response is
    not empty: it is the fixed apology, or it is the text that the
    backend answered to a tool-enabled request sent during this call and
    from which [_extract_tool_calls] extracted no tool calls; and the
    last entry of the transcript is the assistant message with that
    text. *)
Theorem the_reply_is_never_empty ui uid h a resp h' a' :
  process_message env engine ui uid (h, a) = (Returned resp, (h', a')) ->
  text resp <> ""
  /\ (text resp = "I ran into trouble completing that task. Please try again."
      \/ exists k sp msgs tcs,
           (length (completions h) <= k)%nat
           /\ completions h' !! k = Some (ToolCompletion sp msgs)
           /\ completion env k (ToolCompletion sp msgs) = Returned (Some (text resp))
           /\ _extract_tool_calls env (Some (text resp)) = Returned tcs
           /\ truthy tcs = false)
  /\ exists t, last (conversation_history a')
               = Some (mkMessage "assistant" (text resp) t (JObj [])).
Proof.
  unfold process_message, bind at 1, get_state. cbn [fst snd].
  destruct (negb _); [done|].
  unfold bind at 1.
  pose proof (extends_prepare ui uid (h, a)) as Hprep.
  destruct (prepare env engine ui uid (h, a)) as [[prepared|e] [h1 a1]]; [|done].
  unfold bind at 1.
  destruct (react_loop env MAX_ITERATIONS _ uid [] (h1, a1)) as [[[fr acts]|e] [h2 a2]] eqn:Hloop;
    [|done].
  cbn [fst snd] in *.
  destruct (conclude_spec ui uid (fst prepared) fr acts h2 a2) as (h3 & db3 & t & -> & Hlog).
  intros [= <- <- <-]. simpl. split; [|split].
  - destruct fr as [s|]; [|done]. by destruct (String.eqb_spec s "").
  - destruct fr as [s|]; [|by left].
    destruct (String.eqb_spec s ""); [by left|]. right.
    apply react_loop_answer in Hloop as (k & msgs & tcs & Hk & Hat & Hans & Hex & Ht).
    exists k, prepared.2, msgs, tcs. cbn [fst snd] in *.
    split; [apply prefix_length in Hprep; lia|].
    split; [|done].
    destruct Hlog as [more ->]. by apply lookup_app_l_Some.
  - exists t. apply last_snoc.
Qed.

Lemma run_tool_call_spec uid tool_call h a :
  run_tool_call env uid tool_call (h, a)
  = match tool_call with
    | JObj fields =>
        let name := default JNull (assoc_get "name" fields) in
        let args := default (JObj []) (assoc_get "arguments" fields) in
        let ran := execute env name args uid (h, tool_executor a) in
        match fst ran with
        | Returned result =>
            (Returned (str env name +:+ ": " +:+ prefix 80 (py_str env args)),
             (tick (tick (fst (snd ran))),
              with_history
                (conversation_history a
                 ++ [mkMessage "assistant" (json_dumps env tool_call)
                       (utcnow env (clock_reads (fst (snd ran))))
                       (JObj [("type", JStr "tool_call")]);
                     mkMessage "tool_result" (json_dumps env result)
                       (utcnow env (S (clock_reads (fst (snd ran)))))
                       (JObj [("tool_name", name)])])
                (with_executor (snd (snd ran)) a)))
        | Raised e => (Raised e, (fst (snd ran), with_executor (snd (snd ran)) a))
        end
    | _ => (Raised (Exn AttributeError "object has no attribute 'get'"), (h, a))
    end.
Proof.
  destruct tool_call as [| | | | | |fields]; try reflexivity.
  cbn zeta. unfold run_tool_call, get_attr, lift_outcome, in_executor, zoom.
  unfold bind at 1 2 3. cbn beta iota delta [fst snd].
  destruct (execute env _ _ uid (h, tool_executor a)) as [[result|e] [h1 ex1]];
    cbn beta iota delta [fst snd]; [|reflexivity].
  unfold append_message, now, get_host, modify_host, modify, ret, bind.
  cbn beta iota delta [fst snd].
  unfold with_history, with_executor, tick.
  cbn beta iota delta [conversation_history settings memory tool_executor _initialized
                       clock_reads completions invocations confirmations].
  rewrite <- app_assoc. reflexivity.
Qed.

Lemma run_tool_calls_app uid calls more acts w :
  run_tool_calls env uid (calls ++ more) acts w
  = match run_tool_calls env uid calls acts w with
    | (Returned acts1, w1) => run_tool_calls env uid more acts1 w1
    | (Raised e, w1) => (Raised e, w1)
    end.
Proof.
  revert acts w. induction calls as [|tc calls IH]; intros acts w; simpl; [done|].
  unfold bind. destruct (run_tool_call env uid tc w) as [[action|e] w1]; [|done].
  apply IH.
Qed.

(** An iteration of the loop starts with the request that [_call_llm]
    builds from the transcript as it is; the log keeps it. *)
Lemma react_loop_first_request n sp uid acts h a :
  exists rest,
    completions (fst (snd (react_loop env (S n) sp uid acts (h, a))))
    = completions h ++ ToolCompletion sp (_history_to_messages a) :: rest.
Proof.
  assert (Hbody : forall raw,
    extends_log (tool_calls <- lift_outcome (_extract_tool_calls env raw) ;;
                 if negb (truthy tool_calls) then ret (raw, acts)
                 else (acts1 <- run_requested env uid tool_calls acts ;;
                       react_loop env n sp uid acts1))%py).
  { intros raw. apply extends_bind; [apply extends_quiet; quiet|intros tcs].
    destruct (negb _); [apply extends_quiet; quiet|].
    apply extends_bind; [apply extends_quiet, quiet_run_requested|intros acts1].
    apply extends_react_loop. }
  simpl. unfold bind at 1. unfold _call_llm, bind at 1, get_state. rewrite complete_spec.
  cbn [fst snd].
  destruct (completion env _ _) as [raw|e]; [|by exists []].
  destruct (Hbody raw (log_completion (ToolCompletion sp (_history_to_messages a)) h, a))
    as [rest Hrest].
  exists rest. rewrite Hrest. simpl. by rewrite <- app_assoc.
Qed.

(** X24: when the loop over the tool calls of one response completes,
    [execute] returned a result for the last call, and the transcript
    ends with the serialised call under the role [assistant] followed by
    the serialised result under the role [tool_result]; when the
    reasoning loop goes on from there, the first request it sends
    carries that result as its last message, as [[Tool Result]: ...]
    with the role [user]. *)
Theorem the_next_request_ends_with_the_last_tool_result
    uid calls fields acts h a acts' h' a' :
  run_tool_calls env uid (calls ++ [JObj fields]) acts (h, a) = (Returned acts', (h', a')) ->
  exists acts1 h1 a1 result t1 t2,
    run_tool_calls env uid calls acts (h, a) = (Returned acts1, (h1, a1))
    /\ fst (execute env (default JNull (assoc_get "name" fields))
              (default (JObj []) (assoc_get "arguments" fields)) uid (h1, tool_executor a1))
       = Returned result
    /\ conversation_history a'
       = conversation_history a1
         ++ [mkMessage "assistant" (json_dumps env (JObj fields)) t1
               (JObj [("type", JStr "tool_call")]);
             mkMessage "tool_result" (json_dumps env result) t2
               (JObj [("tool_name", default JNull (assoc_get "name" fields))])]
    /\ forall n sp, exists msgs rest,
         completions (fst (snd (react_loop env (S n) sp uid acts' (h', a'))))
         = completions h' ++ ToolCompletion sp msgs :: rest
         /\ last msgs = Some ("user", "[Tool Result]: " +:+ json_dumps env result).
Proof.
  rewrite run_tool_calls_app.
  destruct (run_tool_calls env uid calls acts (h, a)) as [[acts1|e] [h1 a1]]; [|done].
  cbn [run_tool_calls]. unfold bind. rewrite run_tool_call_spec. cbn zeta.
  destruct (fst (execute env _ _ uid (h1, tool_executor a1))) as [result|e] eqn:Hresult;
    [|done].
  unfold ret. intros [= <- <- <-].
  eexists acts1, h1, a1, result, _, _. split; [done|]. split; [exact Hresult|].
  split; [reflexivity|]. intros n sp.
  match goal with |- context [react_loop env (S n) sp uid ?acts0 (?h0, ?a0)] =>
    destruct (react_loop_first_request n sp uid acts0 h0 a0) as [rest Hrest] end.
  eexists _, rest. split; [exact Hrest|].
  unfold _history_to_messages. simpl conversation_history.
  change (map ?f ?l) with (f <$> l). rewrite fmap_last.
  match goal with
  | |- context [slice_from (?l ++ [?x; ?y]) _] =>
      change (l ++ [x; y]) with (l ++ [x] ++ [y]); rewrite (app_assoc l [x] [y])
  end.
  rewrite last_slice_from by lia. reflexivity.
Qed.

(** X25: when the loop over the tool calls of one response completes, it
    has added one entry to [actions_taken] per call and, per call, an
    [assistant] entry followed by a [tool_result] entry to the
    transcript, and it has not touched the memory store. *)
Theorem each_tool_call_adds_two_entries uid calls acts h a acts' h' a' :
  run_tool_calls env uid calls acts (h, a) = (Returned acts', (h', a')) ->
  (exists added, acts' = acts ++ added /\ length added = length calls)
  /\ (exists entries,
        conversation_history a' = conversation_history a ++ entries
        /\ map role entries = mjoin (replicate (length calls) ["assistant"; "tool_result"]))
  /\ memory a' = memory a.
Proof.
  revert acts h a. induction calls as [|tc calls IH]; intros acts h a; simpl.
  - unfold ret. intros [= <- <- <-]. split; [exists []; by rewrite app_nil_r|].
    split; [exists []; by rewrite app_nil_r|done].
  - unfold bind at 1.
    rewrite run_tool_call_spec.
    destruct tc as [| | | | | |fields]; try done. cbn zeta.
    destruct (fst (execute env _ _ uid (h, tool_executor a))) as [result|e]; [|done].
    intros Hrest. apply IH in Hrest as ((added & -> & Hadded) & (entries & Hent & Hroles) & Hmem).
    simpl in Hent, Hmem. split; [|split; [|done]].
    + eexists. rewrite <- app_assoc. split; [reflexivity|]. simpl. by rewrite Hadded.
    + eexists. rewrite Hent, <- app_assoc. split; [reflexivity|].
      rewrite map_app, Hroles. reflexivity.
Qed.
End TurnProps.

Section BudgetProps.
Import Executor Agent.
Context (env : environment) (engine : Memory.fts5).

(** X26: with [max_context_tokens] set to 0, every turn of an initialised
    agent raises before any request is sent: the error of [search] when
    it raises, and otherwise [ZeroDivisionError] from [_should_compact],
    in which case the user message stays at the end of the transcript. *)
Theorem zero_context_budget_fails_every_turn ui uid h a :
  _initialized a = true ->
  max_context_tokens (settings a) = 0 ->
  exists e h' a',
    process_message env engine ui uid (h, a) = (Raised e, (h', a'))
    /\ completions h' = completions h
    /\ match fst (Memory.search env engine ui uid 5 None (h, memory a)) with
       | Returned _ =>
           e = Exn ZeroDivisionError "float division by zero"
           /\ exists t, conversation_history a'
                        = conversation_history a ++ [mkMessage "user" ui t (JObj [])]
       | Raised e' => e = e' /\ conversation_history a' = conversation_history a
       end.
Proof.
  intros Hinit Hzero. unfold process_message, prepare, in_memory, zoom.
  unfold bind at 1. unfold get_state at 1. cbn beta iota delta [fst snd].
  rewrite Hinit. cbn beta iota delta [negb].
  unfold bind at 1. unfold bind at 1. cbn beta iota delta [fst snd].
  pose proof (quiet_search env engine ui uid 5 None (h, memory a)) as Hquiet.
  destruct (Memory.search env engine ui uid 5 None (h, memory a)) as [[ms|e] [h1 db1]] eqn:Hs;
    cbn beta iota delta [fst snd] in *.
  - unfold _should_compact, append_message, now, bind, get_state, get_host, modify_host,
      modify, ret, raise.
    cbn beta iota delta [fst snd]. unfold with_history, with_memory.
    cbn beta iota delta [settings]. rewrite Hzero. cbn beta iota delta [Z.eqb].
    eexists _, _, _. split; [reflexivity|]. split; [exact Hquiet|].
    split; [done|]. eexists. reflexivity.
  - eexists _, _, _. split; [reflexivity|]. by split.
Qed.
End BudgetProps.

(** X17, on a turn of the sample agent. *)
Lemma a_turn_keeps_the_database_consistent_witness :
  MemoryInv.well_formed
    (Agent.memory
       (snd (snd (Agent.process_message Sample.helpful_env Sample.engine
                    "what is 2+2" "alice" (Sample.boot, Sample.fresh_agent))))).
Proof.
  apply (a_turn_keeps_the_database_consistent Sample.helpful_env Sample.engine
           "what is 2+2" "alice" Sample.boot Sample.fresh_agent).
  exact one_memory_well_formed.
Defined.

(** X18, on a turn that starts from an empty transcript. *)
Lemma a_turn_only_appends_to_a_short_transcript_witness :
  Agent.conversation_history Sample.fresh_agent
  `prefix_of`
  Agent.conversation_history
    (snd (snd (Agent.process_message Sample.helpful_env Sample.engine
                 "what is 2+2" "alice" (Sample.boot, Sample.fresh_agent)))).
Proof.
  apply (a_turn_only_appends_to_a_short_transcript Sample.helpful_env Sample.engine
           "what is 2+2" "alice" Sample.boot Sample.fresh_agent).
  simpl. lia.
Defined.

(** X21, with a backend that suggests a memory. *)
Lemma memorize_check_stores_the_suggestion_witness :
  exists h' db',
    Agent._maybe_memorize Scenario.remembering_env "I drink oolong" "Noted." "alice"
      (Sample.boot, Sample.fresh_agent)
    = (Returned tt, (h', Agent.with_memory db' Sample.fresh_agent))
    /\ Memory.memories db'
       = [Sample.tea; Memory.mkMemory 2 "likes oolong" "alice" ["prefs"] 1000 1000 0].
Proof.
  apply (memorize_check_stores_the_suggestion Scenario.remembering_env
           "I drink oolong" "Noted." "alice" Sample.boot Sample.fresh_agent
           Scenario.suggestion_text
           [("should_store", JBool true); ("content", JStr "likes oolong");
            ("tags", JArr [JStr "prefs"])]
           (JBool true) "likes oolong" ["prefs"]); reflexivity.
Defined.

(** X22, with a backend that declines. *)
Lemma memorize_check_stores_nothing_unasked_witness :
  Agent._maybe_memorize Scenario.declining_env "hello" "Hi." "alice"
    (Sample.boot, Sample.fresh_agent)
  = (Returned tt,
     (log_completion (SimpleCompletion (Agent.check_prompt "hello" "Hi.")) Sample.boot,
      Sample.fresh_agent)).
Proof.
  apply (memorize_check_stores_nothing_unasked Scenario.declining_env "hello" "Hi." "alice"
           Sample.boot Sample.fresh_agent).
  intros s fields flag Hanswer Hloads Hflag.
  injection Hanswer as <-. injection Hloads as <-. injection Hflag as <-. reflexivity.
Defined.

(** X23, on a turn that the backend answers at once. *)
Lemma the_reply_is_never_empty_witness :
  exists resp h' a',
    Agent.process_message Sample.helpful_env Sample.engine "what is 2+2" "alice"
      (Sample.boot, Sample.fresh_agent) = (Returned resp, (h', a'))
    /\ Agent.text resp = "4"
    /\ Agent.text resp <> ""
    /\ exists t, last (Agent.conversation_history a')
                 = Some (Agent.mkMessage "assistant" (Agent.text resp) t (JObj [])).
Proof.
  eexists _, _, _. split; [vm_compute; reflexivity|].
  edestruct (the_reply_is_never_empty Sample.helpful_env Sample.engine "what is 2+2" "alice"
               Sample.boot Sample.fresh_agent) as (Hfilled & _ & Hlast).
  - vm_compute. reflexivity.
  - split; [reflexivity|]. split; [exact Hfilled|exact Hlast].
Defined.

(** X24, with two calls in one response: the request that follows ends
    with the result of the second. *)
Lemma the_next_request_ends_with_the_last_tool_result_witness :
  exists msgs rest,
    completions
      (fst (snd (Agent.react_loop Scenario.telling_env 1 "MAX" "alice"
                   ["files__read_file: <str>"; "files__delete_file: <str>"]
                   (snd (Agent.run_tool_calls Scenario.telling_env "alice"
                           [JObj Scenario.read_call; JObj Scenario.delete_call] []
                           (Sample.boot, Scenario.trusting_agent))))))
    = ToolCompletion "MAX" msgs :: rest
    /\ last msgs = Some ("user", "[Tool Result]: result of files__delete_file").
Proof.
  edestruct (the_next_request_ends_with_the_last_tool_result Scenario.telling_env "alice"
               [JObj Scenario.read_call] Scenario.delete_call [] Sample.boot
               Scenario.trusting_agent)
    as (acts1 & h1 & a1 & result & t1 & t2 & Hfirst & Hresult & _ & Hnext).
  - vm_compute. reflexivity.
  - injection Hfirst as <- <- <-.
    destruct (Hnext 0%nat "MAX") as (msgs & rest & Hlog & Hlast).
    exists msgs, rest. split; [exact Hlog|].
    rewrite Hlast. f_equal. f_equal. f_equal.
    vm_compute in Hresult. injection Hresult as <-. reflexivity.
Defined.

(** X25, with the same call made twice. *)
Lemma each_tool_call_adds_two_entries_witness :
  exists acts' h' a',
    Agent.run_tool_calls Sample.env "alice"
      [JObj Scenario.delete_call; JObj Scenario.delete_call] []
      (Sample.boot, Scenario.trusting_agent) = (Returned acts', (h', a'))
    /\ length acts' = 2%nat
    /\ map Agent.role (Agent.conversation_history a')
       = ["assistant"; "tool_result"; "assistant"; "tool_result"]
    /\ Agent.memory a' = Sample.one_memory.
Proof.
  eexists _, _, _. split; [vm_compute; reflexivity|].
  edestruct (each_tool_call_adds_two_entries Sample.env "alice"
               [JObj Scenario.delete_call; JObj Scenario.delete_call] []
               Sample.boot Scenario.trusting_agent)
    as ((added & Hacts & Hadded) & (entries & Hhist & Hroles) & Hmem).
  - vm_compute. reflexivity.
  - split; [|split; [|exact Hmem]].
    + reflexivity.
    + reflexivity.
Defined.

(** X26, with an agent whose budget is zero. *)
Lemma zero_context_budget_fails_every_turn_witness :
  exists h' a',
    Agent.process_message Sample.helpful_env Sample.engine "what is 2+2" "alice"
      (Sample.boot, Scenario.starved_agent)
    = (Raised (Exn ZeroDivisionError "float division by zero"), (h', a'))
    /\ completions h' = [].
Proof.
  destruct (zero_context_budget_fails_every_turn Sample.helpful_env Sample.engine
              "what is 2+2" "alice" Sample.boot Scenario.starved_agent)
    as (e & h' & a' & Hrun & Hquiet & Hcase); [reflexivity|reflexivity|].
  exists h', a'. split; [|exact Hquiet].
  rewrite Hrun. f_equal. f_equal.
  vm_compute in Hcase. exact (proj1 Hcase).
Defined.

(* ===================================================================== *)
(** * Splitting a reply into messages *)
(* ===================================================================== *)

Section SplitProps.
Import Interfaces.

Lemma length_prefix n s : String.length (prefix n s) = Nat.min n (String.length s).
Proof.
  unfold prefix. revert n. induction s as [|c s IH]; intros [|n]; simpl; try done.
  by rewrite IH.
Qed.

Lemma append_cons c s1 s2 : String c s1 +:+ s2 = String c (s1 +:+ s2).
Proof. reflexivity. Qed.

Lemma prefix_drop_chars n s : prefix n s +:+ drop_chars n s = s.
Proof.
  unfold prefix. revert n. induction s as [|c s IH]; intros [|n]; simpl; try done.
  by rewrite append_cons, IH.
Qed.

Lemma length_drop_chars n s :
  String.length (drop_chars n s) = (String.length s - n)%nat.
Proof. revert n. induction s as [|c s IH]; intros [|n]; simpl; try done. Qed.

Lemma append_nil_r s : s +:+ "" = s.
Proof. induction s as [|c s IH]; [done|]. by rewrite append_cons, IH. Qed.

Lemma concat_cons p parts :
  String.concat "" (p :: parts) = p +:+ String.concat "" parts.
Proof. destruct parts; simpl; [by rewrite append_nil_r|done]. Qed.

Lemma eqb_empty s : String.eqb s "" = true <-> String.length s = 0%nat.
Proof. destruct s; simpl; split; done. Qed.

Lemma chunk_count_step len limit :
  (0 < limit < len)%nat ->
  ((len + limit - 1) / limit = S ((len - limit + limit - 1) / limit))%nat.
Proof.
  intros H. replace (len + limit - 1)%nat with ((len - limit + limit - 1) + 1 * limit)%nat by lia.
  rewrite Nat.div_add by lia. lia.
Qed.

Lemma chunk_count_last len limit :
  (0 < len <= limit)%nat -> ((len + limit - 1) / limit = 1)%nat.
Proof.
  intros H. symmetry. apply (Nat.div_unique _ _ _ (len - 1)%nat); lia.
Qed.

(** The loop appends the text in pieces of [limit] characters, the last
    one holding what is left, and consumes all of it. *)
Lemma split_loop_spec limit rounds text chunks :
  (0 < limit)%nat -> (String.length text <= rounds)%nat ->
  exists parts,
    split_loop rounds limit text chunks = chunks ++ parts
    /\ String.concat "" parts = text
    /\ Forall (fun c => (0 < String.length c <= limit)%nat) parts
    /\ length parts = ((String.length text + limit - 1) / limit)%nat.
Proof.
  intros Hlimit. revert text chunks.
  induction rounds as [|rounds IH]; intros text chunks Hlen.
  - destruct text; [|simpl in Hlen; lia]. exists []. simpl.
    rewrite app_nil_r. repeat split; [constructor|].
    symmetry. apply Nat.div_small. lia.
  - simpl. destruct (String.eqb text "") eqn:Hempty.
    + apply eqb_empty in Hempty. destruct text; [|done]. exists []. simpl.
      rewrite app_nil_r. repeat split; [constructor|].
      symmetry. apply Nat.div_small. lia.
    + assert (0 < String.length text)%nat as Hpos.
      { destruct text; [done|simpl; lia]. }
      destruct (IH (drop_chars limit text) (chunks ++ [prefix limit text])) as
        (parts & -> & Hcat & Hall & Hcount).
      { rewrite length_drop_chars. lia. }
      exists (prefix limit text :: parts). split; [by rewrite <- app_assoc|].
      split; [|split].
      * rewrite concat_cons, Hcat. apply prefix_drop_chars.
      * constructor; [|done]. rewrite length_prefix. lia.
      * simpl. rewrite Hcount, length_drop_chars.
        destruct (le_lt_dec (String.length text) limit) as [Hle|Hgt].
        -- replace (String.length text - limit)%nat with 0%nat by lia.
           rewrite (chunk_count_last (String.length text)) by lia.
           rewrite (Nat.div_small (0 + limit - 1)) by lia. done.
        -- by rewrite (chunk_count_step (String.length text)) by lia.
Qed.

Lemma split_message_spec limit text :
  (0 < limit)%nat ->
  String.concat "" (split_message limit text) = text
  /\ Forall (fun c => (String.length c <= limit)%nat /\ (c = "" -> text = ""))
            (split_message limit text)
  /\ length (split_message limit text)
     = Nat.max 1 ((String.length text + limit - 1) / limit).
Proof.
  intros Hlimit. unfold split_message.
  destruct (Nat.leb_spec (String.length text) limit) as [Hle|Hgt].
  - simpl. split; [done|]. split; [by repeat constructor|].
    destruct (decide (String.length text = 0%nat)) as [H0|H0].
    + rewrite H0, Nat.div_small by lia. done.
    + rewrite chunk_count_last by lia. done.
  - destruct (split_loop_spec limit (String.length text) text [] Hlimit (le_n _))
      as (parts & -> & Hcat & Hall & Hcount).
    simpl. split; [done|]. split.
    + eapply Forall_impl; [exact Hall|]. simpl. intros c Hc. split; [lia|].
      intros ->. simpl in Hc. lia.
    + rewrite Hcount. rewrite (chunk_count_step (String.length text)) by lia. lia.
Qed.

(** X27: the chunks that [_split_message] makes of a reply, for Telegram
    and for Discord, concatenate to the reply; none is longer than the
    limit of the platform (4096 and 2000 characters), none is empty
    unless the reply is, and they are as few as the limit allows, one
    for the empty reply. *)
Theorem split_messages_lose_nothing text :
  (String.concat "" (Telegram._split_message text) = text
   /\ Forall (fun c => (String.length c <= 4096)%nat /\ (c = "" -> text = ""))
             (Telegram._split_message text)
   /\ length (Telegram._split_message text)
      = Nat.max 1 ((String.length text + 4095) / 4096))
  /\ (String.concat "" (Discord._split_message text) = text
      /\ Forall (fun c => (String.length c <= 2000)%nat /\ (c = "" -> text = ""))
                (Discord._split_message text)
      /\ length (Discord._split_message text)
         = Nat.max 1 ((String.length text + 1999) / 2000)).
Proof.
  split.
  - pose proof (split_message_spec Telegram.MAX_MESSAGE_LEN text) as H.
    unfold Telegram._split_message.
    change Telegram.MAX_MESSAGE_LEN with 4096%nat in *.
    replace (String.length text + 4096 - 1)%nat with (String.length text + 4095)%nat in H by lia.
    apply H. lia.
  - pose proof (split_message_spec Discord.MAX_DISCORD_LEN text) as H.
    unfold Discord._split_message.
    change Discord.MAX_DISCORD_LEN with 2000%nat in *.
    replace (String.length text + 2000 - 1)%nat with (String.length text + 1999)%nat in H by lia.
    apply H. lia.
Qed.
End SplitProps.

(* ===================================================================== *)
(** * The confirmation wired by the chat interfaces *)
(* ===================================================================== *)

Section ChatConfirmation.
Import Executor Interfaces.
Context (env : environment).

(** X28: with the confirmation callback of the Telegram or of the
    Discord interface wired, [execute] calls every registered tool it is
    given a dict of arguments for, whether or not the tool requires
    confirmation: the result is never the cancelled one. *)
Theorem chat_interfaces_approve_every_action cb h ex name action kwargs user_id :
  cb = Telegram._telegram_confirm \/ cb = Discord._discord_confirm ->
  tools (registry ex) !! name = Some action ->
  exists out h' entry,
    execute env (JStr name) (JObj kwargs) user_id (h, set_confirm_callback cb ex)
    = (Returned out, (h', append_audit entry (set_confirm_callback cb ex)))
    /\ invocations h' = invocations h ++ [(name, JObj kwargs)]
    /\ field "cancelled" out = None.
Proof.
  intros Hcb Ht. unfold execute, _request_confirmation, call_tool. run.
  destruct (tools (registry ex) !! name) as [action'|]; [|done]. injection Ht as ->.
  assert (forall n p, cb n p = Returned true) as Hyes.
  { by destruct Hcb as [-> | ->]. }
  destruct (confirm_before_action ex && requires_confirmation (registry ex) name); run.
  - rewrite Hyes. simpl.
    destruct (action _ _); simpl; eexists _, _, _; (split; [reflexivity|]); by split.
  - destruct (action _ _); simpl; eexists _, _, _; (split; [reflexivity|]); by split.
Qed.
End ChatConfirmation.

(* ===================================================================== *)
(** * Registration of tools *)
(* ===================================================================== *)

Section RegistryProps.
Import Executor Skills.

Lemma elem_of_discover_actions self_name attributes tool_name a :
  (tool_name, a) ∈ _discover_actions self_name attributes ->
  exists attr_name,
    (attr_name, Some a) ∈ attributes
    /\ is_private attr_name = false
    /\ tool_name = self_name +:+ "__" +:+ attr_name.
Proof.
  unfold _discover_actions. intros ([attr_name attr] & Hin & Hattr)%list_elem_of_bind.
  simpl in Hin. destruct (is_private attr_name) eqn:Hp; [by apply elem_of_nil in Hin|].
  destruct attr as [a'|]; [|by apply elem_of_nil in Hin].
  apply list_elem_of_singleton in Hin. injection Hin as -> ->. eauto.
Qed.

Lemma in_step_register enabled found skill reg entries :
  in_step enabled found reg ->
  (forall tool_name a, (tool_name, a) ∈ entries ->
     declared_by enabled found tool_name a skill) ->
  in_step enabled found (foldl (register skill) reg entries).
Proof.
  revert reg. induction entries as [|[tool_name a] entries IH]; intros reg Hreg Hdecl; [done|].
  simpl. apply IH.
  - intros t. unfold register. simpl.
    destruct (decide (t = tool_name)) as [->|Hne].
    + rewrite !lookup_insert_eq. exists a. split; [|done].
      apply Hdecl, list_elem_of_here.
    + rewrite !lookup_insert_ne by done. apply Hreg.
  - intros t b Hin. apply Hdecl. by apply list_elem_of_further.
Qed.

Lemma declared_by_more enabled found c tool_name a skill :
  declared_by enabled found tool_name a skill ->
  declared_by enabled (found ++ [c]) tool_name a skill.
Proof.
  intros (c' & attrs & attr & Hc & H). exists c', attrs, attr.
  split; [|done]. apply elem_of_app. by left.
Qed.

Lemma in_step_more enabled found c reg :
  in_step enabled found reg -> in_step enabled (found ++ [c]) reg.
Proof.
  intros H t. specialize (H t).
  destruct (tools reg !! t), (_tool_metadata reg !! t); try done.
  destruct H as (a & Hd & H). exists a. split; [|done]. by apply declared_by_more.
Qed.

Lemma in_step_load_skill enabled found c reg :
  in_step enabled found reg ->
  in_step enabled (found ++ [c]) (load_skill enabled reg c).
Proof.
  intros H%(in_step_more _ _ c). unfold load_skill.
  destruct (is_enabled enabled c) eqn:Hen; simpl; [|done].
  destruct (instance c) as [attributes|e] eqn:Hinst; [|done].
  apply in_step_register; [done|].
  intros t a (attr & Hattr & Hpub & ->)%elem_of_discover_actions.
  exists c, attributes, attr. repeat split; try done.
  apply elem_of_app. right. apply list_elem_of_here.
Qed.

Lemma in_step_discover enabled seen found reg :
  in_step enabled seen reg ->
  in_step enabled (seen ++ found) (foldl (load_skill enabled) reg found).
Proof.
  revert seen reg. induction found as [|c found IH]; intros seen reg H; simpl.
  - by rewrite app_nil_r.
  - replace (seen ++ c :: found) with ((seen ++ [c]) ++ found) by by rewrite <- app_assoc.
    apply IH. by apply in_step_load_skill.
Qed.

Lemma discover_skills_in_step enabled found :
  in_step enabled found (discover_skills enabled found empty_registry).
Proof.
  apply (in_step_discover enabled [] found). intros t. simpl.
  by rewrite !lookup_empty.
Qed.

(** X29: every tool that [discover_skills] registers in a new registry
    is a decorated method with a name that does not start with an
    underscore, of a class that was found, whose skill name is enabled
    (or ENABLED_SKILLS holds [all]) and whose [__init__] returned; its
    name is the [name] of the class, two underscores and the method
    name. *)
Theorem registered_tools_are_enabled_public_actions enabled found tool_name f :
  tools (discover_skills enabled found empty_registry) !! tool_name = Some f ->
  exists c attributes attr_name a,
    c ∈ found
    /\ ("all" ∈ enabled \/ skill_name c ∈ enabled)
    /\ instance c = Returned attributes
    /\ (attr_name, Some a) ∈ attributes
    /\ is_private attr_name = false
    /\ tool_name = name c +:+ "__" +:+ attr_name
    /\ f = call a.
Proof.
  intros Hf. pose proof (discover_skills_in_step enabled found tool_name) as H.
  rewrite Hf in H. destruct (_tool_metadata _ !! tool_name) as [meta|]; [|done].
  destruct H as (a & (c & attrs & attr & Hc & Hen & _ & Hinst & Hattr & Hpub & ->) & -> & _).
  exists c, attrs, attr, a. repeat split; try done.
  unfold is_enabled in Hen. apply orb_true_iff in Hen as [H|H].
  - left. by apply bool_decide_eq_true in H.
  - right. by apply bool_decide_eq_true in H.
Qed.

(** X30: after [discover_skills] on a new registry, [tools] and
    [_tool_metadata] hold the same names; the metadata of a registered
    tool names the skill and carries the description and the
    [confirm_required] of the decorator of the very action [tools] holds,
    which is what [requires_confirmation] answers; for any other name it
    answers [False]. *)
Theorem confirmation_flag_is_the_one_declared enabled found tool_name :
  match tools (discover_skills enabled found empty_registry) !! tool_name with
  | Some f =>
      exists a meta,
        _tool_metadata (discover_skills enabled found empty_registry) !! tool_name
        = Some meta
        /\ declared_by enabled found tool_name a (skill meta)
        /\ f = call a
        /\ description meta = _action_description a
        /\ confirm_required meta = _confirm_required a
        /\ requires_confirmation (discover_skills enabled found empty_registry) tool_name
           = _confirm_required a
  | None =>
      _tool_metadata (discover_skills enabled found empty_registry) !! tool_name = None
      /\ requires_confirmation (discover_skills enabled found empty_registry) tool_name
         = false
  end.
Proof.
  pose proof (discover_skills_in_step enabled found tool_name) as H.
  unfold requires_confirmation.
  destruct (tools _ !! tool_name) as [f|], (_tool_metadata _ !! tool_name) as [meta|];
    try done.
  destruct H as (a & Hd & -> & Hdesc & Hflag). by exists a, meta.
Qed.
End RegistryProps.

(** X28, with the callback of the Telegram interface wired to the sample
    executor, which asks for confirmation. *)
Lemma chat_interfaces_approve_every_action_witness :
  exists out h' entry,
    Executor.execute Sample.env (JStr "files__delete_file") Sample.delete_args "alice"
      (Sample.boot,
       Executor.set_confirm_callback Interfaces.Telegram._telegram_confirm Sample.unwired)
    = (Returned out,
       (h', Executor.append_audit entry
              (Executor.set_confirm_callback Interfaces.Telegram._telegram_confirm
                 Sample.unwired)))
    /\ invocations h' = invocations Sample.boot ++ [("files__delete_file", Sample.delete_args)]
    /\ field "cancelled" out = None.
Proof.
  apply (chat_interfaces_approve_every_action Sample.env
           Interfaces.Telegram._telegram_confirm Sample.boot Sample.unwired
           "files__delete_file" Sample.delete_file [("path", JStr "a.txt")] "alice").
  - left. reflexivity.
  - vm_compute. reflexivity.
Defined.

(** X29, with [ENABLED_SKILLS=web,files] and the two sample classes. *)
Lemma registered_tools_are_enabled_public_actions_witness :
  exists c attributes attr_name a,
    c ∈ [Scenario.FilesSkill; Scenario.EmailSkill]
    /\ ("all" ∈ ["web"; "files"] \/ Skills.skill_name c ∈ ["web"; "files"])
    /\ Skills.instance c = Returned attributes
    /\ (attr_name, Some a) ∈ attributes
    /\ Skills.is_private attr_name = false
    /\ "files__delete_file" = Skills.name c +:+ "__" +:+ attr_name
    /\ Sample.delete_file = Skills.call a.
Proof.
  apply (registered_tools_are_enabled_public_actions ["web"; "files"]
           [Scenario.FilesSkill; Scenario.EmailSkill] "files__delete_file"
           Sample.delete_file).
  vm_compute. reflexivity.
Defined.
